(** * Business Hub: the local store and its CRUD operations

    A shallow embedding of [src/script.js].  The program keeps one JSON
    document in a [localStorage] slot and every operation is
    load-entire-document, mutate, save-entire-document.

    Definitions
    - [Js]       : JavaScript strings (sequences of UTF-16 code units), the
                   values that [JSON.parse] can build, and the primitives of
                   the language the script relies on ([trim], [split],
                   truthiness, property access, [find], [filter], ...).
    - [Json]     : [JSON.stringify] and [JSON.parse] on those values.
    - [Hub]      : the script: its state, its effects and each function
                   that touches the store, in a state and exception monad.
    - [Shape]    : the document of the specification and the vocabulary of
                   the theorems.
    - [Sample]   : concrete states and documents.
    - [Terms]    : more vocabulary: what an operation leaves alone.
    - [Crypto]   : [hashText], from the text to the hexadecimal digits.
    - [Forms]    : the text an editor puts in a form field.
    - [Download] : the indented text of the export.
    - [Views]    : the categories of the filter.
    - [Relay]    : the contact form on a document that cannot be counted.

    Proofs
    - [JsFacts], [JsonFacts] : [parse (stringify v) = v].
    - [HubFacts]  : what each operation returns and leaves in the slot.
    - [DocFacts]  : the document before and after.
    - [FormFacts] : the tags of a work item, from the field and back.
    - then one theorem for each claim of the specification.
    - [StoreFacts], [StepFacts], [FlowFacts], [CryptoFacts],
      [DownloadFacts], [ViewFacts], [RelayFacts], [EditingFacts], and the
      properties of the script that follow from them: invariants, round
      trips, operations in sequence.

    What is taken from the host.  The storage slot is unbounded and always
    accessible, and the DOM nodes the script looks up exist.  The random
    source, the clock, the file reader, the digest and the network are
    inputs of the operations that use them.  Rebuilding a list on the page
    is recorded as one [Render] effect: it does not change the store, and
    its helpers are in the part of the file that is not available.  A
    [Render] is taken to return, as the available part of each renderer
    does on a valid document; on a collection that holds [null], which no
    valid document has, the renderer raises after the store is written.
    The script runs as non-strict code. *)
From Stdlib Require Import List NArith Bool Lia String Ascii Arith.
Import ListNotations.

Set Warnings "-register-all".

(* ================================================================== *)
(** * JavaScript strings and values *)
(* ================================================================== *)

Module Js.

(** A string is a sequence of UTF-16 code units. *)
Definition jstring := list N.

(** Rocq literal to JavaScript string (code units below 256). *)
Definition str (s : string) : jstring :=
  map N_of_ascii (list_ascii_of_string s).

Fixpoint streq (a b : jstring) : bool :=
  match a, b with
  | [], [] => true
  | x :: a', y :: b' => N.eqb x y && streq a' b'
  | _, _ => false
  end.

(** [!s] is true exactly for the empty string. *)
Definition nonempty (s : jstring) : bool :=
  match s with [] => false | _ :: _ => true end.

(** ECMAScript WhiteSpace and LineTerminator code units, the ones
    [String.prototype.trim] strips. *)
Definition is_space (c : N) : bool :=
  ((9 <=? c) && (c <=? 13) || (c =? 32) || (c =? 160) || (c =? 5760)
   || (8192 <=? c) && (c <=? 8202) || (c =? 8232) || (c =? 8233)
   || (c =? 8239) || (c =? 8287) || (c =? 12288) || (c =? 65279))%N.

Fixpoint trim_start (s : jstring) : jstring :=
  match s with
  | c :: r => if is_space c then trim_start r else s
  | [] => []
  end.

Definition trim_end (s : jstring) : jstring := rev (trim_start (rev s)).

(** [s.trim()] *)
Definition trim (s : jstring) : jstring := trim_end (trim_start s).

(** [s.split(sep)] for a one-unit separator; never the empty list. *)
Fixpoint split (sep : N) (s : jstring) : list jstring :=
  match s with
  | [] => [[]]
  | c :: r =>
      if N.eqb c sep then [] :: split sep r
      else match split sep r with
           | h :: t => (c :: h) :: t
           | [] => [[c]]
           end
  end.

(** The values [JSON.parse] builds.  A number is kept as its literal: the
    script never computes with a stored number and no field of a document
    is numeric.  An object is its own properties in enumeration order. *)
Inductive value : Type :=
| VNull
| VBool (b : bool)
| VNum (lit : jstring)
| VStr (s : jstring)
| VArr (elems : list value)
| VObj (props : list (jstring * value)).

(** Exceptions the modelled code can raise. *)
Inductive exn : Type :=
| SyntaxError
| TypeError
| ReadError
| NetworkError.

Inductive res (A : Type) : Type :=
| Val (a : A)
| Throw (e : exn).
Arguments Val {A} a.
Arguments Throw {A} e.

(** Own-property lookup; [None] is [undefined]. *)
Fixpoint lookup (k : jstring) (ps : list (jstring * value)) : option value :=
  match ps with
  | [] => None
  | (k', v) :: r => if streq k k' then Some v else lookup k r
  end.

(** [o[k] = v] on an ordinary object: overwrite in place, else append. *)
Fixpoint assign (k : jstring) (v : value) (ps : list (jstring * value))
  : list (jstring * value) :=
  match ps with
  | [] => [(k, v)]
  | (k', v') :: r =>
      if streq k k' then (k, v) :: r else (k', v') :: assign k v r
  end.

(** [x.k] where [x] is a value or [undefined].  Reading a property of
    [undefined] or [null] raises; the keys the script reads are own
    properties of objects only, so every other base gives [undefined]. *)
Definition get (x : option value) (k : jstring) : res (option value) :=
  match x with
  | None | Some VNull => Throw TypeError
  | Some (VObj ps) => Val (lookup k ps)
  | Some _ => Val None
  end.

(** [x === s] for a string [s]. *)
Definition same_str (x : option value) (s : jstring) : bool :=
  match x with
  | Some (VStr t) => streq t s
  | _ => false
  end.

(** Number literals that denote zero: every mantissa digit is [0].  (A
    literal so small that it rounds to zero is not told apart.) *)
Fixpoint zero_mantissa (lit : jstring) : bool :=
  match lit with
  | [] => true
  | c :: r =>
      if (c =? 101)%N || (c =? 69)%N then true
      else if (49 <=? c)%N && (c <=? 57)%N then false
      else zero_mantissa r
  end.

(** ToBoolean. *)
Definition truthy (x : option value) : bool :=
  match x with
  | None | Some VNull => false
  | Some (VBool b) => b
  | Some (VNum lit) => negb (zero_mantissa lit)
  | Some (VStr s) => nonempty s
  | Some (VArr _) | Some (VObj _) => true
  end.

(** [arr.find(x => x.id === id)]: the first element whose [id] is the
    string [id]; the callback raises on a [null] element. *)
Fixpoint find_by_id (id : jstring) (l : list value) : res (option value) :=
  match l with
  | [] => Val None
  | x :: r =>
      match get (Some x) (str "id") with
      | Throw e => Throw e
      | Val i => if same_str i id then Val (Some x) else find_by_id id r
      end
  end.

(** [arr.filter(x => x.id !== id)] *)
Fixpoint reject_id (id : jstring) (l : list value) : res (list value) :=
  match l with
  | [] => Val []
  | x :: r =>
      match get (Some x) (str "id") with
      | Throw e => Throw e
      | Val i =>
          match reject_id id r with
          | Throw e => Throw e
          | Val r' => Val (if same_str i id then r' else x :: r')
          end
      end
  end.

(** The in-place mutation [t.k1 = v1; ...] of the element [find] returned:
    the first element whose [id] is [id] is replaced by [f] of it.  It runs
    after [find] has gone through the elements without raising. *)
Fixpoint update_first (id : jstring) (f : value -> value) (l : list value)
  : list value :=
  match l with
  | [] => []
  | x :: r =>
      match get (Some x) (str "id") with
      | Val i => if same_str i id then f x :: r
                 else x :: update_first id f r
      | Throw _ => x :: r
      end
  end.

(** [x.k = v] on the element [find] returned, which is an object. *)
Definition set (k : jstring) (v : value) (x : value) : value :=
  match x with
  | VObj ps => VObj (assign k v ps)
  | _ => x
  end.

(** [db.k = v] on a parsed value: [null] raises, an object takes the
    property, and on any other value the property never reaches the
    serialised text. *)
Definition put (k : jstring) (v : value) (x : value) : res value :=
  match x with
  | VNull => Throw TypeError
  | VObj ps => Val (VObj (assign k v ps))
  | _ => Val x
  end.

(** The receiver of [find], [filter] and [push]: only an array has these
    methods, a call on anything else raises. *)
Definition as_array (x : option value) : res (list value) :=
  match x with
  | Some (VArr l) => Val l
  | _ => Throw TypeError
  end.

(** [x.length]: the size of an array or a string, the own property of an
    object, [undefined] on a number or a boolean. *)
Inductive measure : Type :=
| Count (n : nat)
| Other (x : option value).

Definition length_of (x : option value) : res measure :=
  match x with
  | None | Some VNull => Throw TypeError
  | Some (VArr l) => Val (Count (List.length l))
  | Some (VStr s) => Val (Count (List.length s))
  | Some (VObj ps) => Val (Other (lookup (str "length") ps))
  | Some _ => Val (Other None)
  end.

(** [String(v)] returns.  It raises on an object that has a [toString]
    property of its own, which no value of a parsed document can be called
    as, and on an array that holds such an object: an array prints its
    elements. *)
Fixpoint printable (v : value) : bool :=
  match v with
  | VArr l => forallb printable l
  | VObj ps => match lookup (str "toString") ps with
               | Some _ => false
               | None => true
               end
  | _ => true
  end.

(** [(x||[]).join(',')], but for the text it gives: only an array has
    [join], and [join] prints the elements. *)
Definition joins (x : option value) : res unit :=
  if truthy x then
    match x with
    | Some (VArr l) => if forallb printable l then Val tt else Throw TypeError
    | _ => Throw TypeError
    end
  else Val tt.

End Js.

(* ================================================================== *)
(** * [JSON.stringify] and [JSON.parse] *)
(* ================================================================== *)

Module Json.
Import Js.

Local Open Scope N_scope.

(** Lower-case hexadecimal digit of [d < 16]. *)
Definition hex_digit (d : N) : N := if d <? 10 then 48 + d else 87 + d.

(** [\uXXXX] *)
Definition uescape (c : N) : jstring :=
  [92; 117; hex_digit (c / 4096 mod 16); hex_digit (c / 256 mod 16);
   hex_digit (c / 16 mod 16); hex_digit (c mod 16)].

Definition is_lead (c : N) : bool := (55296 <=? c) && (c <=? 56319).
Definition is_trail (c : N) : bool := (56320 <=? c) && (c <=? 57343).

(** One code unit that is not a surrogate, as QuoteJSONString writes it. *)
Definition escape1 (c : N) : jstring :=
  if c =? 8 then [92; 98]
  else if c =? 9 then [92; 116]
  else if c =? 10 then [92; 110]
  else if c =? 12 then [92; 102]
  else if c =? 13 then [92; 114]
  else if c =? 34 then [92; 34]
  else if c =? 92 then [92; 92]
  else if c <? 32 then uescape c
  else [c].

(** The characters between the quotes: a surrogate pair is written as it
    is, a lone surrogate as a [\u] escape. *)
Fixpoint quote_body (s : jstring) : jstring :=
  match s with
  | [] => []
  | c :: r =>
      if is_lead c then
        match r with
        | d :: r' =>
            if is_trail d then c :: d :: quote_body r'
            else uescape c ++ quote_body r
        | [] => uescape c
        end
      else if is_trail c then uescape c ++ quote_body r
      else escape1 c ++ quote_body r
  end.

Definition quote (s : jstring) : jstring := 34 :: quote_body s ++ [34].

(** Comma-separated. *)
Fixpoint join (l : list jstring) : jstring :=
  match l with
  | [] => []
  | [x] => x
  | x :: r => x ++ 44 :: join r
  end.

(** [JSON.stringify(v)] without indentation. *)
Fixpoint stringify (v : value) : jstring :=
  match v with
  | VNull => str "null"
  | VBool true => str "true"
  | VBool false => str "false"
  | VNum lit => lit
  | VStr s => quote s
  | VArr l => 91 :: join (map stringify l) ++ [93]
  | VObj ps =>
      123 :: join (map (fun kv => quote (fst kv) ++ 58 :: stringify (snd kv))
                       ps) ++ [125]
  end.

(** One member of a serialised object. *)
Definition member (kv : jstring * value) : jstring :=
  quote (fst kv) ++ 58 :: stringify (snd kv).

(** The first code unit of a serialised value without numbers. *)
Definition opens (c : N) : Prop :=
  c = 110 \/ c = 116 \/ c = 102 \/ c = 34 \/ c = 91 \/ c = 123.

(** ** Parsing *)

Definition is_ws (c : N) : bool :=
  (c =? 32) || (c =? 9) || (c =? 10) || (c =? 13).

Fixpoint skip_ws (s : jstring) : jstring :=
  match s with
  | c :: r => if is_ws c then skip_ws r else s
  | [] => []
  end.

Definition unhex (c : N) : option N :=
  if (48 <=? c) && (c <=? 57) then Some (c - 48)
  else if (97 <=? c) && (c <=? 102) then Some (c - 87)
  else if (65 <=? c) && (c <=? 70) then Some (c - 55)
  else None.

Definition unhex4 (a b c d : N) : option N :=
  match unhex a, unhex b, unhex c, unhex d with
  | Some x, Some y, Some z, Some w => Some (4096 * x + 256 * y + 16 * z + w)
  | _, _, _, _ => None
  end.

(** The single-character escapes. *)
Definition unescape (e : N) : option N :=
  if e =? 34 then Some 34
  else if e =? 92 then Some 92
  else if e =? 47 then Some 47
  else if e =? 98 then Some 8
  else if e =? 102 then Some 12
  else if e =? 110 then Some 10
  else if e =? 114 then Some 13
  else if e =? 116 then Some 9
  else None.

(** A parsed code unit in front of the rest of a parsed literal. *)
Definition more (c : N) (p : option (jstring * jstring))
  : option (jstring * jstring) :=
  match p with
  | Some (t, rest) => Some (c :: t, rest)
  | None => None
  end.

(** The rest of a string literal, after its opening quote. *)
Fixpoint parse_chars (s : jstring) : option (jstring * jstring) :=
  match s with
  | [] => None
  | c :: r =>
      if c =? 34 then Some ([], r)
      else if c =? 92 then
        match r with
        | [] => None
        | e :: r1 =>
            if e =? 117 then
              match r1 with
              | h1 :: h2 :: h3 :: h4 :: r2 =>
                  match unhex4 h1 h2 h3 h4 with
                  | Some u => more u (parse_chars r2)
                  | None => None
                  end
              | _ => None
              end
            else
              match unescape e with
              | Some u => more u (parse_chars r1)
              | None => None
              end
        end
      else if c <? 32 then None
      else more c (parse_chars r)
  end.

Definition is_digit (c : N) : bool := (48 <=? c) && (c <=? 57).

Fixpoint digits (s : jstring) : jstring * jstring :=
  match s with
  | c :: r => if is_digit c then let (ds, rest) := digits r in (c :: ds, rest)
              else ([], s)
  | [] => ([], [])
  end.

(** A number literal: an optional minus, then a single zero or a digit
    sequence without leading zero, then optionally a dot with one or more
    digits, then optionally an exponent mark with an optional sign and one
    or more digits. *)
Definition parse_int (s : jstring) : option (jstring * jstring) :=
  match s with
  | c :: r =>
      if c =? 48 then Some ([48], r)
      else if is_digit c then let (ds, rest) := digits r in Some (c :: ds, rest)
      else None
  | [] => None
  end.

Definition parse_frac (s : jstring) : option (jstring * jstring) :=
  match s with
  | c :: r =>
      if c =? 46 then
        match digits r with
        | ([], _) => None
        | (ds, rest) => Some (46 :: ds, rest)
        end
      else Some ([], s)
  | [] => Some ([], [])
  end.

Definition parse_exp (s : jstring) : option (jstring * jstring) :=
  match s with
  | c :: r =>
      if (c =? 101) || (c =? 69) then
        let (sign, r1) :=
          match r with
          | g :: r' => if (g =? 43) || (g =? 45) then ([g], r') else ([], r)
          | [] => ([], r)
          end in
        match digits r1 with
        | ([], _) => None
        | (ds, rest) => Some (c :: sign ++ ds, rest)
        end
      else Some ([], s)
  | [] => Some ([], [])
  end.

Definition parse_number (s : jstring) : option (jstring * jstring) :=
  let (sign, s1) :=
    match s with
    | c :: r => if c =? 45 then ([45], r) else ([], s)
    | [] => ([], s)
    end in
  match parse_int s1 with
  | None => None
  | Some (i, s2) =>
      match parse_frac s2 with
      | None => None
      | Some (f, s3) =>
          match parse_exp s3 with
          | None => None
          | Some (e, s4) => Some (sign ++ i ++ f ++ e, s4)
          end
      end
  end.

(** [s] without the prefix [p], when it has it. *)
Fixpoint strip (p s : jstring) : option jstring :=
  match p, s with
  | [], _ => Some s
  | x :: p', y :: s' => if x =? y then strip p' s' else None
  | _ :: _, [] => None
  end.

(** The elements of a non-empty array, up to and with the closing bracket.
    [pv] parses one value; [n] bounds the number of elements. *)
Fixpoint parse_elems (pv : jstring -> option (value * jstring)) (n : nat)
  (s : jstring) : option (list value * jstring) :=
  match n with
  | O => None
  | S n' =>
      match pv s with
      | None => None
      | Some (v, r) =>
          match skip_ws r with
          | c :: r' =>
              if c =? 44 then
                match parse_elems pv n' r' with
                | Some (vs, rest) => Some (v :: vs, rest)
                | None => None
                end
              else if c =? 93 then Some ([v], r')
              else None
          | [] => None
          end
      end
  end.

(** The members of a non-empty object, in source order. *)
Fixpoint parse_members (pv : jstring -> option (value * jstring)) (n : nat)
  (s : jstring) : option (list (jstring * value) * jstring) :=
  match n with
  | O => None
  | S n' =>
      match skip_ws s with
      | q :: r0 =>
          if q =? 34 then
            match parse_chars r0 with
            | None => None
            | Some (k, r1) =>
                match skip_ws r1 with
                | col :: r2 =>
                    if col =? 58 then
                      match pv r2 with
                      | None => None
                      | Some (v, r3) =>
                          match skip_ws r3 with
                          | c :: r4 =>
                              if c =? 44 then
                                match parse_members pv n' r4 with
                                | Some (ms, rest) => Some ((k, v) :: ms, rest)
                                | None => None
                                end
                              else if c =? 125 then Some ([(k, v)], r4)
                              else None
                          | [] => None
                          end
                      end
                    else None
                | [] => None
                end
            end
          else None
      | [] => None
      end
  end.

(** The object a member list denotes: a repeated key keeps its first
    position and its last value.  Members are kept in the order of the
    text.  An engine lists the members whose names are array indices
    ([2], [10]) first, in ascending order; the script reads and writes no
    member of such a name, and for a document that has one only the order
    of the members in the text written back differs. *)
Definition build (ms : list (jstring * value)) : list (jstring * value) :=
  fold_left (fun acc kv => assign (fst kv) (snd kv) acc) ms [].

(** One JSON value with leading white space; [fuel] bounds the nesting. *)
Fixpoint parse_value (fuel : nat) (s : jstring) : option (value * jstring) :=
  match fuel with
  | O => None
  | S f =>
      match skip_ws s with
      | [] => None
      | c :: r =>
          if c =? 34 then
            match parse_chars r with
            | Some (t, rest) => Some (VStr t, rest)
            | None => None
            end
          else if c =? 91 then
            match skip_ws r with
            | d :: r' =>
                if d =? 93 then Some (VArr [], r')
                else match parse_elems (parse_value f) (List.length r) r with
                     | Some (vs, rest) => Some (VArr vs, rest)
                     | None => None
                     end
            | [] => None
            end
          else if c =? 123 then
            match skip_ws r with
            | d :: r' =>
                if d =? 125 then Some (VObj [], r')
                else match parse_members (parse_value f) (List.length r) r with
                     | Some (ms, rest) => Some (VObj (build ms), rest)
                     | None => None
                     end
            | [] => None
            end
          else if c =? 110 then
            match strip (str "null") (c :: r) with
            | Some rest => Some (VNull, rest)
            | None => None
            end
          else if c =? 116 then
            match strip (str "true") (c :: r) with
            | Some rest => Some (VBool true, rest)
            | None => None
            end
          else if c =? 102 then
            match strip (str "false") (c :: r) with
            | Some rest => Some (VBool false, rest)
            | None => None
            end
          else
            match parse_number (c :: r) with
            | Some (lit, rest) => Some (VNum lit, rest)
            | None => None
            end
      end
  end.

(** [JSON.parse(s)]: one value, then only white space.  The nesting of a
    text is below its length, so the fuel never runs out on a text that
    has a value. *)
Definition parse (s : jstring) : res value :=
  match parse_value (S (List.length s)) s with
  | Some (v, rest) =>
      match skip_ws rest with
      | [] => Val v
      | _ :: _ => Throw SyntaxError
      end
  | None => Throw SyntaxError
  end.

(** ** The values that survive a round trip as they are *)

Fixpoint mem (k : jstring) (l : list jstring) : bool :=
  match l with
  | [] => false
  | k' :: r => streq k k' || mem k r
  end.

Fixpoint distinct (l : list jstring) : bool :=
  match l with
  | [] => true
  | k :: r => negb (mem k r) && distinct r
  end.

(** No number inside, and no object lists a key twice. *)
Fixpoint storable (v : value) : bool :=
  match v with
  | VNum _ => false
  | VArr l => forallb storable l
  | VObj ps =>
      distinct (map fst ps) && forallb (fun kv => storable (snd kv)) ps
  | _ => true
  end.

(** Nesting of arrays and objects. *)
Fixpoint depth (v : value) : nat :=
  match v with
  | VArr l => S (list_max (map depth l))
  | VObj ps => S (list_max (map (fun kv => depth (snd kv)) ps))
  | _ => O
  end.

(** Induction on values, through the lists inside them. *)
Section ValueInd.
Variable P : value -> Prop.
Hypothesis HNull : P VNull.
Hypothesis HBool : forall b, P (VBool b).
Hypothesis HNum : forall lit, P (VNum lit).
Hypothesis HStr : forall s, P (VStr s).
Hypothesis HArr : forall l, Forall P l -> P (VArr l).
Hypothesis HObj : forall ps, Forall (fun kv => P (snd kv)) ps -> P (VObj ps).

Fixpoint value_induction (v : value) : P v :=
  match v with
  | VNull => HNull
  | VBool b => HBool b
  | VNum lit => HNum lit
  | VStr s => HStr s
  | VArr l =>
      HArr l ((fix all (l : list value) : Forall P l :=
               match l with
               | [] => Forall_nil _
               | x :: r => Forall_cons x (value_induction x) (all r)
               end) l)
  | VObj ps =>
      HObj ps ((fix all (ps : list (jstring * value))
              : Forall (fun kv => P (snd kv)) ps :=
               match ps with
               | [] => Forall_nil _
               | kv :: r => Forall_cons kv (value_induction (snd kv)) (all r)
               end) ps)
  end.
End ValueInd.

End Json.


(* ================================================================== *)
(** * The script *)
(* ================================================================== *)

Module Hub.
Import Js Json.

(** What the script does to the page, the console and the network. *)
Inductive event : Type :=
| Alert (msg : string)
| Toast (msg : string)
| ConsoleError
| SetText (sel : string) (n : measure)
| Show (sel : string)
| Hide (sel : string)
| Render (view : string)
| FillForm (editor : string) (record : option value)
| Post (endpoint body : jstring)
| ResetForm
| InitApp.

(** The mutable state: the storage slot under [DB_KEY], the three
    "currently editing" variables, whether the admin panel is visible, and
    the effects so far, oldest first. *)
Record state : Type := mkState {
  storage : option jstring;
  editingThoughtId : option jstring;
  editingWorkId : option jstring;
  editingProjectId : option jstring;
  adminVisible : bool;
  effects : list event
}.

Definition initial : state := mkState None None None None false [].

(** State and exceptions: a raised exception keeps the state reached. *)
Definition M (A : Type) : Type := state -> res A * state.

Definition ret {A} (a : A) : M A := fun s => (Val a, s).
Definition throw {A} (e : exn) : M A := fun s => (Throw e, s).
Definition bind {A B} (m : M A) (k : A -> M B) : M B :=
  fun s => match m s with
           | (Val a, s') => k a s'
           | (Throw e, s') => (Throw e, s')
           end.
Definition try_catch {A} (m : M A) (h : exn -> M A) : M A :=
  fun s => match m s with
           | (Val a, s') => (Val a, s')
           | (Throw e, s') => h e s'
           end.
Definition lift {A} (r : res A) : M A := fun s => (r, s).

Notation "x <- m ;; k" := (bind m (fun x => k))
  (at level 61, m at next level, right associativity).
Notation "m ;;; k" := (bind m (fun _ => k))
  (at level 61, right associativity).

(** The state after more effects. *)
Definition logged (s : state) (l : list event) : state :=
  mkState (storage s) (editingThoughtId s) (editingWorkId s)
          (editingProjectId s) (adminVisible s) (effects s ++ l).

Definition emit (e : event) : M unit := fun s => (Val tt, logged s [e]).
Definition getItem : M (option jstring) := fun s => (Val (storage s), s).
Definition setItem (v : jstring) : M unit :=
  fun s => (Val tt, mkState (Some v) (editingThoughtId s) (editingWorkId s)
                            (editingProjectId s) (adminVisible s) (effects s)).
Definition removeItem : M unit :=
  fun s => (Val tt, mkState None (editingThoughtId s) (editingWorkId s)
                            (editingProjectId s) (adminVisible s) (effects s)).
Definition setEditingThought (id : option jstring) : M unit :=
  fun s => (Val tt, mkState (storage s) id (editingWorkId s)
                            (editingProjectId s) (adminVisible s) (effects s)).
Definition setEditingWork (id : option jstring) : M unit :=
  fun s => (Val tt, mkState (storage s) (editingThoughtId s) id
                            (editingProjectId s) (adminVisible s) (effects s)).
Definition setEditingProject (id : option jstring) : M unit :=
  fun s => (Val tt, mkState (storage s) (editingThoughtId s) (editingWorkId s)
                            id (adminVisible s) (effects s)).
Definition setAdminVisible (b : bool) : M unit :=
  fun s => (Val tt, mkState (storage s) (editingThoughtId s) (editingWorkId s)
                            (editingProjectId s) b (effects s)).
Definition read {A} (f : state -> A) : M A := fun s => (Val (f s), s).

(** ** The store *)

Definition DEFAULT_DB : value :=
  VObj [(str "thoughts", VArr []); (str "work", VArr []);
        (str "projects", VArr []); (str "messages", VArr []);
        (str "admin", VNull)].

(** [JSON.parse(JSON.stringify(DEFAULT_DB))] *)
Definition fresh_default : M value := lift (parse (stringify DEFAULT_DB)).

Definition loadDB : M value :=
  try_catch
    (raw <- getItem ;;
     match raw with
     | Some r => if nonempty r then lift (parse r) else fresh_default
     | None => fresh_default
     end)
    (fun _ => emit ConsoleError ;;; fresh_default).

Definition stat (sel : string) (k : string) (db : value) : M unit :=
  c <- lift (get (Some db) (str k)) ;;
  n <- lift (length_of c) ;;
  emit (SetText sel n).

Definition updateStats : M unit :=
  db <- loadDB ;;
  stat "#statThoughts" "thoughts" db ;;;
  stat "#statProjects" "projects" db ;;;
  stat "#statContacts" "messages" db.

Definition saveDB (db : value) : M unit :=
  setItem (stringify db) ;;; updateStats.

Definition showToast (msg : string) : M unit := emit (Toast msg).
Definition alert (msg : string) : M unit := emit (Alert msg).

Definition resetDB : M unit :=
  removeItem ;;; showToast "DB cleared" ;;; emit InitApp.

(** ** Inputs from the host *)

(** The file chosen in an image input, as [fileToBase64] sees it. *)
Inductive upload : Type :=
| NoFile
| FileData (url : jstring)
| FileFails.

Definition fileToBase64 (f : upload) : M (option jstring) :=
  match f with
  | NoFile => ret None
  | FileData url => ret (Some url)
  | FileFails => throw ReadError
  end.

(** [img||null] and [if(img) x.image = img] on the result of
    [fileToBase64]. *)
Definition or_null (img : option jstring) : value :=
  match img with
  | Some url => if nonempty url then VStr url else VNull
  | None => VNull
  end.
Definition set_image (img : option jstring) (x : value) : value :=
  match img with
  | Some url => if nonempty url then set (str "image") (VStr url) x else x
  | None => x
  end.

(** [if(id)] on a variable that is [null] or a string. *)
Definition is_set (id : option jstring) : bool :=
  match id with Some i => nonempty i | None => false end.
Definition id_of (id : option jstring) : jstring :=
  match id with Some i => i | None => [] end.

(** The array under [db.k], for [find], [filter] and [push]. *)
Definition collection (k : string) (db : value) : M (list value) :=
  c <- lift (get (Some db) (str k)) ;; lift (as_array c).

(** ** Thoughts *)

(** An operation takes what it reads from the page and from the host: the
    values of the form fields, the chosen file, and what [uid()] and
    [nowISO()] return when it calls them. *)

Definition openThoughtEditorFor (id : option jstring) : M unit :=
  setEditingThought id ;;;
  if is_set id then
    db <- loadDB ;;
    ts <- collection "thoughts" db ;;
    it <- lift (find_by_id (id_of id) ts) ;;
    match it with
    | None => showToast "Not found"
    | Some _ => emit (FillForm "#thoughtEditor" it) ;;;
                emit (Show "#thoughtEditor")
    end
  else emit (FillForm "#thoughtEditor" None) ;;; emit (Show "#thoughtEditor").

(** The document once the array under [db.k] has become [l]: by [push] or
    by assignments to an element of it, both in place. *)
Definition with_collection (k : string) (l : list value) (db : value) : value :=
  set (str k) (VArr l) db.

(** The object literal [saveThought] pushes, and its assignments to the
    element it edits. *)
Definition new_thought (uid title category content : jstring)
  (img : option jstring) (nowISO : jstring) : value :=
  VObj [(str "id", VStr uid); (str "title", VStr title);
        (str "category", VStr category); (str "content", VStr content);
        (str "image", or_null img); (str "created", VStr nowISO)].

Definition edit_thought (title category content : jstring)
  (img : option jstring) (nowISO : jstring) (t : value) : value :=
  set (str "updated") (VStr nowISO)
    (set_image img
       (set (str "content") (VStr content)
          (set (str "category") (VStr category)
             (set (str "title") (VStr title) t)))).

(** [v.trim() || 'Uncategorized'] *)
Definition category_of (categoryV : jstring) : jstring :=
  if nonempty (trim categoryV) then trim categoryV else str "Uncategorized".

Definition saveThought (titleV categoryV contentV : jstring) (file : upload)
  (uid nowISO : jstring) : M unit :=
  let title := trim titleV in
  if negb (nonempty title) then alert "Title required"
  else
    let category := category_of categoryV in
    let content := trim contentV in
    img <- fileToBase64 file ;;
    db <- loadDB ;;
    editing <- read editingThoughtId ;;
    let finish d :=
      saveDB d ;;;
      emit (Hide "#thoughtEditor") ;;;
      emit (Render "categories") ;;; emit (Render "thoughts") in
    if is_set editing then
      ts <- collection "thoughts" db ;;
      t <- lift (find_by_id (id_of editing) ts) ;;
      match t with
      | None => showToast "Not found"
      | Some _ =>
          showToast "Thought updated" ;;;
          finish (with_collection "thoughts"
                    (update_first (id_of editing)
                       (edit_thought title category content img nowISO) ts)
                    db)
      end
    else
      ts <- collection "thoughts" db ;;
      showToast "Thought saved" ;;;
      finish (with_collection "thoughts"
                (ts ++ [new_thought uid title category content img nowISO])
                db).

Definition cancelThought : M unit := emit (Hide "#thoughtEditor").

Definition deleteThought (id : jstring) : M unit :=
  db <- loadDB ;;
  ts <- collection "thoughts" db ;;
  kept <- lift (reject_id id ts) ;;
  db' <- lift (put (str "thoughts") (VArr kept) db) ;;
  saveDB db' ;;;
  emit (Render "categories") ;;; emit (Render "thoughts") ;;;
  showToast "Thought deleted".

(** ** Work updates *)

(** Reading or writing a property of what [find] returned, with no check
    that it returned an element. *)
Definition found (x : option value) : M value :=
  match x with
  | Some v => ret v
  | None => throw TypeError
  end.

(** The tags field is filled with [(w.tags||[]).join(',')], which raises
    when the tags are not an array or cannot be printed. *)
Definition openWorkEditorFor (id : option jstring) : M unit :=
  setEditingWork id ;;;
  (if is_set id then
     db <- loadDB ;;
     ws <- collection "work" db ;;
     w <- lift (find_by_id (id_of id) ws) ;;
     x <- found w ;;
     tags <- lift (get (Some x) (str "tags")) ;;
     lift (joins tags) ;;;
     emit (FillForm "#workEditor" (Some x))
   else emit (FillForm "#workEditor" None)) ;;;
  emit (Show "#workEditor").

(** [v.split(',').map(s=>s.trim()).filter(Boolean)] *)
Definition tags_of (v : jstring) : list jstring :=
  filter nonempty (map trim (split 44 v)).

Definition new_work (uid title : jstring) (tags : list jstring)
  (content : jstring) (img : option jstring) (nowISO : jstring) : value :=
  VObj [(str "id", VStr uid); (str "title", VStr title);
        (str "tags", VArr (map VStr tags)); (str "content", VStr content);
        (str "image", or_null img); (str "created", VStr nowISO)].

Definition edit_work (title : jstring) (tags : list jstring)
  (content : jstring) (img : option jstring) (nowISO : jstring) (w : value)
  : value :=
  set (str "updated") (VStr nowISO)
    (set_image img
       (set (str "content") (VStr content)
          (set (str "tags") (VArr (map VStr tags))
             (set (str "title") (VStr title) w)))).

Definition saveWork (titleV tagsV contentV : jstring) (file : upload)
  (uid nowISO : jstring) : M unit :=
  let title := trim titleV in
  if negb (nonempty title) then alert "Title required"
  else
    let tags := tags_of tagsV in
    let content := trim contentV in
    img <- fileToBase64 file ;;
    db <- loadDB ;;
    editing <- read editingWorkId ;;
    let finish d :=
      saveDB d ;;; emit (Hide "#workEditor") ;;; emit (Render "work") in
    if is_set editing then
      ws <- collection "work" db ;;
      w <- lift (find_by_id (id_of editing) ws) ;;
      _ <- found w ;;
      showToast "Work updated" ;;;
      finish (with_collection "work"
                (update_first (id_of editing)
                   (edit_work title tags content img nowISO) ws)
                db)
    else
      ws <- collection "work" db ;;
      showToast "Work saved" ;;;
      finish (with_collection "work"
                (ws ++ [new_work uid title tags content img nowISO]) db).

Definition cancelWork : M unit := emit (Hide "#workEditor").

Definition deleteWork (id : jstring) : M unit :=
  db <- loadDB ;;
  ws <- collection "work" db ;;
  kept <- lift (reject_id id ws) ;;
  db' <- lift (put (str "work") (VArr kept) db) ;;
  saveDB db' ;;; emit (Render "work") ;;; showToast "Work deleted".

(** ** Projects *)

Definition openProjectEditorFor (id : option jstring) : M unit :=
  setEditingProject id ;;;
  (if is_set id then
     db <- loadDB ;;
     ps <- collection "projects" db ;;
     p <- lift (find_by_id (id_of id) ps) ;;
     x <- found p ;;
     emit (FillForm "#projectEditor" (Some x))
   else emit (FillForm "#projectEditor" None)) ;;;
  emit (Show "#projectEditor").

Definition new_project (uid title link desc : jstring)
  (img : option jstring) (nowISO : jstring) : value :=
  VObj [(str "id", VStr uid); (str "title", VStr title);
        (str "link", VStr link); (str "desc", VStr desc);
        (str "image", or_null img); (str "created", VStr nowISO)].

Definition edit_project (title link desc : jstring) (img : option jstring)
  (nowISO : jstring) (p : value) : value :=
  set (str "updated") (VStr nowISO)
    (set_image img
       (set (str "desc") (VStr desc)
          (set (str "link") (VStr link)
             (set (str "title") (VStr title) p)))).

Definition saveProject (titleV linkV descV : jstring) (file : upload)
  (uid nowISO : jstring) : M unit :=
  let title := trim titleV in
  if negb (nonempty title) then alert "Title required"
  else
    let link := trim linkV in
    let desc := trim descV in
    img <- fileToBase64 file ;;
    db <- loadDB ;;
    editing <- read editingProjectId ;;
    let finish d :=
      saveDB d ;;; emit (Hide "#projectEditor") ;;; emit (Render "projects") in
    if is_set editing then
      ps <- collection "projects" db ;;
      p <- lift (find_by_id (id_of editing) ps) ;;
      _ <- found p ;;
      showToast "Project updated" ;;;
      finish (with_collection "projects"
                (update_first (id_of editing)
                   (edit_project title link desc img nowISO) ps)
                db)
    else
      ps <- collection "projects" db ;;
      showToast "Project saved" ;;;
      finish (with_collection "projects"
                (ps ++ [new_project uid title link desc img nowISO]) db).

Definition cancelProject : M unit := emit (Hide "#projectEditor").

Definition deleteProject (id : jstring) : M unit :=
  db <- loadDB ;;
  ps <- collection "projects" db ;;
  kept <- lift (reject_id id ps) ;;
  db' <- lift (put (str "projects") (VArr kept) db) ;;
  saveDB db' ;;; emit (Render "projects") ;;; showToast "Project deleted".

(** ** Contact form *)

(** What [fetch] does: a response with a status, or a rejection. *)
Inductive reply : Type :=
| Response (status : N)
| NoResponse.

(** [res.ok] *)
Definition ok (status : N) : bool := (200 <=? status)%N && (status <=? 299)%N.

Definition fetch (endpoint body : jstring) (net : reply) : M N :=
  emit (Post endpoint body) ;;;
  match net with
  | Response status => ret status
  | NoResponse => throw NetworkError
  end.

(** [{ name, email, subject, message, created: nowISO() }] *)
Definition payload_of (name email subject message nowISO : jstring)
  : list (jstring * value) :=
  [(str "name", VStr name); (str "email", VStr email);
   (str "subject", VStr subject); (str "message", VStr message);
   (str "created", VStr nowISO)].

(** [{ id: uid(), ...payload }] *)
Definition new_message (uid : jstring) (payload : list (jstring * value))
  : value :=
  VObj ((str "id", VStr uid) :: payload).

Definition saveLocalMessage (payload : list (jstring * value)) (uid : jstring)
  : M unit :=
  db <- loadDB ;;
  ms <- collection "messages" db ;;
  saveDB (with_collection "messages" (ms ++ [new_message uid payload]) db).

Definition submitContact (nameV emailV subjectV messageV endpointV : jstring)
  (net : reply) (uid nowISO : jstring) : M unit :=
  let name := trim nameV in
  let email := trim emailV in
  let subject := trim subjectV in
  let message := trim messageV in
  let endpoint := trim endpointV in
  if negb (nonempty name) || negb (nonempty email) || negb (nonempty message)
  then alert "Fill required fields"
  else
    let payload := payload_of name email subject message nowISO in
    (if nonempty endpoint then
       try_catch
         (status <- fetch endpoint (stringify (VObj payload)) net ;;
          if ok status then showToast "Message sent via Formspree"
          else showToast "Formspree returned error; saved locally" ;;;
               saveLocalMessage payload uid)
         (fun _ =>
            emit ConsoleError ;;;
            saveLocalMessage payload uid ;;;
            showToast "Network error; saved locally")
     else
       saveLocalMessage payload uid ;;; showToast "Message saved locally") ;;;
    emit ResetForm ;;; emit (Render "messages").

(** ** Admin *)

(** [{ email, passHash }] *)
Definition new_admin (email passHash : jstring) : value :=
  VObj [(str "email", VStr email); (str "passHash", VStr passHash)].

Section Digest.

(** [hashText]: the hexadecimal SHA-256 digest of a text, a function of
    the host. *)
Variable hashText : jstring -> jstring.

Definition setupAdmin (emailV pass : jstring) : M unit :=
  let email := trim emailV in
  if negb (nonempty email) || negb (nonempty pass)
  then alert "Email + password required"
  else
    let passHash := hashText pass in
    db <- loadDB ;;
    db' <- lift (put (str "admin") (new_admin email passHash) db) ;;
    saveDB db' ;;;
    showToast "Admin created (local)".

Definition loginAdmin (emailV pass : jstring) : M unit :=
  let email := trim emailV in
  if negb (nonempty email) || negb (nonempty pass)
  then alert "Email + password required"
  else
    db <- loadDB ;;
    admin <- lift (get (Some db) (str "admin")) ;;
    if negb (truthy admin) then alert "No admin set. Use Create Admin."
    else
      let passHash := hashText pass in
      e <- lift (get admin (str "email")) ;;
      if same_str e email then
        h <- lift (get admin (str "passHash")) ;;
        if same_str h passHash then
          emit (Hide "#loginBox") ;;;
          setAdminVisible true ;;; emit (Show "#adminPanel") ;;;
          emit (Show "#logoutBtn") ;;;
          showToast "Logged in"
        else alert "Invalid credentials"
      else alert "Invalid credentials".

End Digest.

Definition logout : M unit :=
  emit (Show "#loginBox") ;;;
  setAdminVisible false ;;; emit (Hide "#adminPanel") ;;;
  emit (Hide "#logoutBtn") ;;;
  showToast "Logged out".

(** Running an operation. *)
Definition outcome {A} (m : M A) (s : state) : res A := fst (m s).
Definition after {A} (m : M A) (s : state) : state := snd (m s).

(** The document a state holds: what [loadDB] returns in it. *)
Definition document (s : state) : res value := outcome loadDB s.

End Hub.


(* ================================================================== *)
(** * The shape of a document *)
(* ================================================================== *)

Module Shape.
Import Js Json Hub.

(** Property [k] of a value that is not [null]; [None] is [undefined]. *)
Definition field (k : string) (v : value) : option value :=
  match v with
  | VObj ps => lookup (str k) ps
  | _ => None
  end.

Definition is_object (v : value) : bool :=
  match v with VObj _ => true | _ => false end.
Definition is_string (x : option value) : bool :=
  match x with Some (VStr _) => true | _ => false end.
Definition string_or_absent (x : option value) : bool :=
  match x with None | Some (VStr _) => true | _ => false end.
Definition string_or_null (x : option value) : bool :=
  match x with Some VNull | Some (VStr _) => true | _ => false end.
Definition strings (x : option value) : bool :=
  match x with
  | Some (VArr l) => forallb (fun v => is_string (Some v)) l
  | _ => false
  end.

(** The common record shape: [id], [created], optional [updated]. *)
Definition record (v : value) : bool :=
  is_object v && is_string (field "id" v) && is_string (field "created" v)
  && string_or_absent (field "updated" v).

Definition thought (v : value) : bool :=
  record v && is_string (field "title" v) && is_string (field "category" v)
  && is_string (field "content" v) && string_or_null (field "image" v).

Definition work_item (v : value) : bool :=
  record v && is_string (field "title" v) && strings (field "tags" v)
  && is_string (field "content" v) && string_or_null (field "image" v).

Definition project (v : value) : bool :=
  record v && is_string (field "title" v) && is_string (field "link" v)
  && is_string (field "desc" v) && string_or_null (field "image" v).

Definition message (v : value) : bool :=
  record v && is_string (field "name" v) && is_string (field "email" v)
  && is_string (field "subject" v) && is_string (field "message" v).

Definition credential (v : value) : bool :=
  is_object v && is_string (field "email" v)
  && is_string (field "passHash" v).

Definition optional_credential (x : option value) : bool :=
  match x with
  | None | Some VNull => true
  | Some c => credential c
  end.

(** An ordered sequence of records of one kind. *)
Definition sequence_of (kind : value -> bool) (x : option value) : bool :=
  match x with
  | Some (VArr l) => forallb kind l
  | _ => false
  end.

(** The persisted document of the specification. *)
Definition valid_document (d : value) : bool :=
  storable d
  && sequence_of thought (field "thoughts" d)
  && sequence_of work_item (field "work" d)
  && sequence_of project (field "projects" d)
  && sequence_of message (field "messages" d)
  && optional_credential (field "admin" d).

(** What the operations need of a document: it survives the round trip
    and its four collections are arrays of objects. *)
Definition usable (d : value) : bool :=
  storable d
  && sequence_of is_object (field "thoughts" d)
  && sequence_of is_object (field "work" d)
  && sequence_of is_object (field "projects" d)
  && sequence_of is_object (field "messages" d).

(** The records under [d.k]. *)
Definition records (k : string) (d : value) : list value :=
  match field k d with
  | Some (VArr l) => l
  | _ => []
  end.

(** [x.id === id] *)
Definition has_id (id : jstring) (x : value) : bool :=
  same_str (field "id" x) id.

(** The ids of a collection, and whether they are pairwise distinct. *)
Definition id_of_record (x : value) : jstring :=
  match field "id" x with
  | Some (VStr i) => i
  | _ => []
  end.
Definition ids (l : list value) : list jstring := map id_of_record l.
Definition distinct_ids (l : list value) : bool := distinct (ids l).

(** The document of a state, when loading it succeeds. *)
Definition holds (s : state) (d : value) : Prop := document s = Val d.

(** A storage slot [loadDB] cannot read: absent, or not JSON text. *)
Definition unreadable (s : state) : bool :=
  match storage s with
  | None => true
  | Some raw => match parse raw with
                | Throw _ => true
                | Val _ => false
                end
  end.

(** The other variables of the state are as they were. *)
Definition same_vars (s s' : state) : Prop :=
  editingThoughtId s' = editingThoughtId s
  /\ editingWorkId s' = editingWorkId s
  /\ editingProjectId s' = editingProjectId s
  /\ adminVisible s' = adminVisible s.

(** An operation that ran to its end and left the usable document [d] in
    the slot. *)
Definition commits (m : M unit) (s : state) (d : value) : Prop :=
  (exists s', m s = (Val tt, s') /\ storage s' = Some (stringify d)
              /\ same_vars s s')
  /\ usable d = true.

(** The states [loadDB] and [saveDB] lead to. *)
Definition loaded (s : state) : state := after loadDB s.
Definition saved (d : value) (s : state) : state := after (saveDB d) s.

(** What [fileToBase64] resolves to. *)
Definition image_of (file : upload) : option jstring :=
  match file with
  | FileData url => Some url
  | _ => None
  end.

(** ** What the operations do to a collection *)

(** [d'] is [d] with one more record at the end of [d.k]; the record has
    the id and the creation time it was given, and no [updated]. *)
Definition appended (k : string) (uid nowISO : jstring) (d d' : value)
  : Prop :=
  exists t,
    records k d' = records k d ++ [t]
    /\ field "id" t = Some (VStr uid)
    /\ field "created" t = Some (VStr nowISO)
    /\ field "updated" t = None.

(** The id of the new record is unique in [d'.k] when the ids of [d.k]
    were distinct and it was not one of them. *)
Definition unique_when_fresh (k : string) (uid : jstring) (d d' : value)
  : Prop :=
  distinct_ids (records k d) = true ->
  mem uid (ids (records k d)) = false ->
  distinct_ids (records k d') = true.

(** [d'] is [d] with the first record of [d.k] whose id is [id] edited:
    every record keeps its [id] and [created], and the edited one has
    [updated] set. *)
Definition edited (k : string) (id nowISO : jstring) (d d' : value) : Prop :=
  map (field "id") (records k d') = map (field "id") (records k d)
  /\ map (field "created") (records k d') = map (field "created") (records k d)
  /\ exists l1 t t' l2,
       records k d = l1 ++ t :: l2
       /\ records k d' = l1 ++ t' :: l2
       /\ has_id id t = true
       /\ field "updated" t' = Some (VStr nowISO).

(** [d'] is [d] without the record of [d.k] whose id is [id]: the others
    stay, in their order. *)
Definition removed (k : string) (id : jstring) (d d' : value) : Prop :=
  (forall l1 t l2,
     records k d = l1 ++ t :: l2 -> has_id id t = true ->
     records k d' = l1 ++ l2)
  /\ (forallb (fun x => negb (has_id id x)) (records k d) = true ->
      records k d' = records k d).

(** ** What an operation does, from a state that holds [d] *)

(** It runs to its end and appends a record with that id and time. *)
Definition creates (m : M unit) (k : string) (uid nowISO : jstring)
  (s : state) (d : value) : Prop :=
  outcome m s = Val tt
  /\ exists d', holds (after m s) d'
                /\ appended k uid nowISO d d'
                /\ unique_when_fresh k uid d d'.

(** It runs to its end and edits the record that has the id. *)
Definition edits (m : M unit) (k : string) (id nowISO : jstring)
  (s : state) (d : value) : Prop :=
  outcome m s = Val tt
  /\ exists d', holds (after m s) d' /\ edited k id nowISO d d'.

(** It runs to its end and removes the record that has the id. *)
Definition deletes (m : M unit) (k : string) (id : jstring)
  (s : state) (d : value) : Prop :=
  outcome m s = Val tt
  /\ exists d', holds (after m s) d' /\ removed k id d d'.

(** A login that opens the admin panel, and one that is turned away with
    an alert and leaves the panel as it was. *)
Definition login_opens (m : M unit) (s : state) : Prop :=
  outcome m s = Val tt
  /\ adminVisible (after m s) = true
  /\ last (effects (after m s)) InitApp = Toast "Logged in".

Definition login_refused (m : M unit) (s : state) : Prop :=
  outcome m s = Val tt
  /\ adminVisible (after m s) = adminVisible s
  /\ exists msg, last (effects (after m s)) InitApp = Alert msg.

(** The image fields of a collection, in order. *)
Definition images (k : string) (d : value) : list (option value) :=
  map (field "image") (records k d).

(** The tags of the work items of a document, in order. *)
Definition work_tags (d : value) : list (option value) :=
  map (field "tags") (records "work" d).

(** Whether a submission that passed the required-field check ends in the
    local store. *)
Definition kept_locally (endpointV : jstring) (net : reply) : bool :=
  if nonempty (trim endpointV) then
    match net with
    | Response status => negb (ok status)
    | NoResponse => true
    end
  else true.

End Shape.

(* ================================================================== *)
(** * Sample data *)
(* ================================================================== *)

Module Sample.
Import Js Json Hub Shape.

Definition uid0 : jstring := str "k3x9q0z".
Definition uid1 : jstring := str "p07ab4m".
Definition gone : jstring := str "zz00000".
Definition now0 : jstring := str "2024-05-01T10:00:00.000Z".
Definition now1 : jstring := str "2024-05-02T11:30:00.000Z".
Definition png : jstring := str "data:image/png;base64,iVBORw0KGgo=".

(** One thought, as [saveThought] stores it. *)
Definition thought0 : value :=
  new_thought uid0 (str "A") (str "Tech") (str "hi") None now0.
Definition doc1 : value := with_collection "thoughts" [thought0] DEFAULT_DB.
Definition one_thought : state :=
  mkState (Some (stringify doc1)) None None None false [].

(** The editor is open on that thought. *)
Definition editing_thought : state :=
  mkState (Some (stringify doc1)) (Some uid0) None None false [].

(** The three editors are open on an id that no collection has. *)
Definition editing_gone : state :=
  mkState (Some (stringify doc1)) (Some gone) (Some gone) (Some gone) false [].

(** The collection after a second draw of the same id. *)
Definition thought0' : value :=
  new_thought uid0 (str "B") (str "Uncategorized") (str "") None now1.
Definition doc2 : value :=
  with_collection "thoughts" [thought0; thought0'] DEFAULT_DB.

(** A thought with a picture, its editor open. *)
Definition pictured : value :=
  with_collection "thoughts"
    [new_thought uid0 (str "A") (str "Tech") (str "hi") (Some png) now0]
    DEFAULT_DB.
Definition editing_pictured : state :=
  mkState (Some (stringify pictured)) (Some uid0) None None false [].

(** A work item whose tag input repeats a tag. *)
Definition doc_tags : value :=
  with_collection "work"
    [new_work uid0 (str "T") [str "a"; str "b"; str "a"] [] None now0]
    DEFAULT_DB.

(** A slot that holds no JSON text. *)
Definition corrupt : state :=
  mkState (Some (str "{oops")) None None None false [].

(** A stand-in for the digest of the host; the theorems hold for any
    function. *)
Definition digest (p : jstring) : jstring := str "sha256:" ++ p.

End Sample.

(* ================================================================== *)
(** * More vocabulary *)
(* ================================================================== *)

Module Terms.
Import Js Json Hub Shape.

(** [x.length] can be read: [x] is neither [undefined] nor [null]. *)
Definition has_length (x : option value) : bool :=
  match x with
  | None | Some VNull => false
  | Some _ => true
  end.

(** [updateStats] can count the three collections it shows. *)
Definition counted (d : value) : bool :=
  has_length (field "thoughts" d) && has_length (field "projects" d)
  && has_length (field "messages" d).

(** The slot holds text that is not empty and is not JSON. *)
Definition garbled (s : state) : bool :=
  match storage s with
  | Some raw => nonempty raw && match parse raw with
                                | Throw _ => true
                                | Val _ => false
                                end
  | None => false
  end.

(** An operation that never writes the slot, whatever it returns. *)
Definition reads_only {A} (m : M A) : Prop :=
  forall s, storage (after m s) = storage s.

(** Every property of [d'] but [k] is the one of [d]. *)
Definition only_changes (k : string) (d d' : value) : Prop :=
  forall k', streq k' (str k) = false ->
             get (Some d') k' = get (Some d) k'.

(** Whatever the operation returns, the state it leaves holds a document
    that differs from [d] under [k] at most. *)
Definition touches_only (m : M unit) (k : string) (s : state) (d : value)
  : Prop :=
  exists d', holds (after m s) d' /\ only_changes k d d'.

(** Whatever the operation returns, the state it leaves holds a valid
    document. *)
Definition keeps_valid (m : M unit) (s : state) : Prop :=
  exists d', holds (after m s) d' /\ valid_document d' = true.

(** Both at once. *)
Definition within (m : M unit) (k : string) (s : state) (d : value) : Prop :=
  exists d', holds (after m s) d' /\ only_changes k d d'
             /\ valid_document d' = true.

(** The check of [loginAdmin] on the fields of the form, against the
    credential of [d]. *)
Definition accepts (hashText : jstring -> jstring) (d : value)
  (emailV pass : jstring) : bool :=
  nonempty (trim emailV) && nonempty pass
  && truthy (field "admin" d)
  && match field "admin" d with
     | Some c => same_str (field "email" c) (trim emailV)
                 && same_str (field "passHash" c) (hashText pass)
     | None => false
     end.

(** An operation that leaves the three "currently editing" variables as
    they were, whatever it returns. *)
Definition keeps_editing {A} (m : M A) : Prop :=
  forall s, editingThoughtId (after m s) = editingThoughtId s
            /\ editingWorkId (after m s) = editingWorkId s
            /\ editingProjectId (after m s) = editingProjectId s.

End Terms.

(* ================================================================== *)
(** * [hashText] *)
(* ================================================================== *)

Module Crypto.
Import Js Json Hub Shape.

Local Open Scope N_scope.

(** Every element is a UTF-16 code unit. *)
Definition code_units (s : jstring) : bool := forallb (fun c => c <? 65536) s.

(** The code points of a string as [TextEncoder] reads it: a lead
    surrogate followed by a trail surrogate is one code point, and a
    surrogate without its partner is replaced by U+FFFD. *)
Fixpoint code_points (s : jstring) : list N :=
  match s with
  | [] => []
  | c :: r =>
      if is_lead c then
        match r with
        | d :: r' =>
            if is_trail d
            then (65536 + (c - 55296) * 1024 + (d - 56320)) :: code_points r'
            else 65533 :: code_points r
        | [] => [65533]
        end
      else if is_trail c then 65533 :: code_points r
      else c :: code_points r
  end.

(** UTF-8 of one code point. *)
Definition utf8 (p : N) : list N :=
  if p <? 128 then [p]
  else if p <? 2048 then [192 + p / 64; 128 + p mod 64]
  else if p <? 65536 then
    [224 + p / 4096; 128 + p / 64 mod 64; 128 + p mod 64]
  else [240 + p / 262144; 128 + p / 4096 mod 64; 128 + p / 64 mod 64;
        128 + p mod 64].

(** [new TextEncoder().encode(text)] *)
Definition encode (text : jstring) : list N := flat_map utf8 (code_points text).

(** [n.toString(16)]: the digits of [n] in base 16, the most significant
    first; [fuel] bounds their number. *)
Fixpoint radix16 (fuel : nat) (n : N) : jstring :=
  match fuel with
  | O => []
  | S f => if n <? 16 then [hex_digit n]
           else radix16 f (n / 16) ++ [hex_digit (n mod 16)]
  end.
Definition toString16 (n : N) : jstring := radix16 (S (N.to_nat (N.log2 n))) n.

(** [s.padStart(len, c)] with a filler of one code unit. *)
Definition padStart (len : nat) (c : N) (s : jstring) : jstring :=
  repeat c (len - List.length s) ++ s.

(** [bytes.map(b => b.toString(16).padStart(2,'0')).join('')] *)
Definition hex (bytes : list N) : jstring :=
  List.concat (map (fun b => padStart 2 48 (toString16 b)) bytes).

(** The elements of a [Uint8Array]. *)
Definition octets (bytes : list N) : bool := forallb (fun b => b <? 256) bytes.

(** A string without a surrogate that lacks its partner. *)
Fixpoint well_formed (s : jstring) : bool :=
  match s with
  | [] => true
  | c :: r =>
      if is_lead c then
        match r with
        | d :: r' => is_trail d && well_formed r'
        | [] => false
        end
      else negb (is_trail c) && well_formed r
  end.

(** A lower-case hexadecimal digit. *)
Definition is_hex (c : N) : bool :=
  (48 <=? c) && (c <=? 57) || (97 <=? c) && (c <=? 102).

Section Digest.

(** [crypto.subtle.digest('SHA-256', data)] as the bytes of the buffer it
    resolves to, a function of the host. *)
Variable sha256 : list N -> list N.

Definition hashText (text : jstring) : jstring := hex (sha256 (encode text)).

End Digest.

(** A stand-in for the digest of the host: 32 bytes that depend on the
    data.  The theorems hold for any function. *)
Definition sum32 (data : list N) : list N :=
  repeat (fold_right N.add 0 data mod 256) 32.

End Crypto.

(* ================================================================== *)
(** * Form fields *)
(* ================================================================== *)

Module Forms.
Import Js Json Hub Shape.

Section Print.

(** [String(n)] for the number a literal denotes, a function of the
    host. *)
Variable number_text : jstring -> jstring.

(** [String(v)].  An array prints as its elements joined by commas, where
    [null] prints as nothing; an object prints as [[object Object]],
    unless it has a [toString] property of its own: no value of a parsed
    document can be called, and the conversion raises. *)
Fixpoint to_text (v : value) : res jstring :=
  match v with
  | VNull => Val (str "null")
  | VBool true => Val (str "true")
  | VBool false => Val (str "false")
  | VNum lit => Val (number_text lit)
  | VStr s => Val s
  | VArr l =>
      (fix items (l : list value) : res jstring :=
         match l with
         | [] => Val []
         | x :: r =>
             match (match x with VNull => Val [] | _ => to_text x end) with
             | Throw e => Throw e
             | Val t =>
                 match r with
                 | [] => Val t
                 | _ :: _ => match items r with
                             | Throw e => Throw e
                             | Val ts => Val (t ++ 44%N :: ts)
                             end
                 end
             end
         end) l
  | VObj ps =>
      match lookup (str "toString") ps with
      | Some _ => Throw TypeError
      | None => Val (str "[object Object]")
      end
  end.

(** [l.join(',')] *)
Definition array_join (l : list value) : res jstring := to_text (VArr l).

(** [(w.tags||[]).join(',')], what [openWorkEditorFor] puts in the tags
    field: only an array has [join]. *)
Definition tags_text (w : value) : res jstring :=
  match get (Some w) (str "tags") with
  | Throw e => Throw e
  | Val t =>
      if truthy t then
        match t with
        | Some (VArr l) => array_join l
        | _ => Throw TypeError
        end
      else Val []
  end.

End Print.

(** No comma inside. *)
Definition comma_free (t : jstring) : bool := forallb (fun c => negb (c =? 44)%N) t.

End Forms.

(* ================================================================== *)
(** * The export *)
(* ================================================================== *)

Module Download.
Import Js Json Hub Shape.

Local Open Scope N_scope.

(** The indentation unit of [JSON.stringify(v, null, 2)]. *)
Definition gap : jstring := [32; 32].

(** [l.join(sep)] on strings. *)
Fixpoint join_with (sep : jstring) (l : list jstring) : jstring :=
  match l with
  | [] => []
  | [x] => x
  | x :: r => x ++ sep ++ join_with sep r
  end.

(** One member of an indented object. *)
Definition pretty_member (p : value -> jstring) (kv : jstring * value)
  : jstring :=
  quote (fst kv) ++ 58 :: 32 :: p (snd kv).

(** [JSON.stringify(v, null, 2)] at the indentation [indent]: an empty
    array or object is written closed; otherwise every element or member
    is on a line of its own, one unit deeper, and the closing bracket is
    on a line at [indent]. *)
Fixpoint pretty (indent : jstring) (v : value) : jstring :=
  match v with
  | VArr l =>
      match l with
      | [] => [91; 93]
      | _ :: _ =>
          91 :: 10 :: (indent ++ gap)
          ++ join_with (44 :: 10 :: indent ++ gap)
               (map (pretty (indent ++ gap)) l)
          ++ 10 :: indent ++ [93]
      end
  | VObj ps =>
      match ps with
      | [] => [123; 125]
      | _ :: _ =>
          123 :: 10 :: (indent ++ gap)
          ++ join_with (44 :: 10 :: indent ++ gap)
               (map (fun kv => quote (fst kv) ++ 58 :: 32
                               :: pretty (indent ++ gap) (snd kv)) ps)
          ++ 10 :: indent ++ [125]
      end
  | _ => stringify v
  end.

(** The text the export button puts in the file it offers:
    [JSON.stringify(loadDB(), null, 2)]. *)
Definition export_text : M jstring :=
  db <- loadDB ;; ret (pretty [] db).

(** White space only. *)
Definition blank (s : jstring) : bool := forallb is_ws s.

End Download.

(* ================================================================== *)
(** * The category filter *)
(* ================================================================== *)

Module Views.
Import Js Json Hub Shape.

Section Numbers.

(** Whether two number literals denote the same number, a function of the
    host. *)
Variable same_number : jstring -> jstring -> bool.

(** Equality of the members of a [Set].  Two arrays or two objects of a
    parsed document are never the same object. *)
Definition same_value_zero (a b : value) : bool :=
  match a, b with
  | VNull, VNull => true
  | VBool x, VBool y => Bool.eqb x y
  | VNum l, VNum m => same_number l m
  | VStr s, VStr t => streq s t
  | _, _ => false
  end.

(** [t.category || 'Uncategorized'] *)
Definition category_shown (t : value) : res value :=
  match get (Some t) (str "category") with
  | Throw e => Throw e
  | Val c =>
      Val (match c with
           | Some v => if truthy c then v else VStr (str "Uncategorized")
           | None => VStr (str "Uncategorized")
           end)
  end.

(** [arr.map(f)] for a callback that can raise. *)
Fixpoint map_res (f : value -> res value) (l : list value)
  : res (list value) :=
  match l with
  | [] => Val []
  | x :: r =>
      match f x with
      | Throw e => Throw e
      | Val y => match map_res f r with
                 | Throw e => Throw e
                 | Val ys => Val (y :: ys)
                 end
      end
  end.

(** [Array.from(new Set(l))]: the members in the order of their first
    occurrence. *)
Definition add_member (seen : list value) (v : value) : list value :=
  if existsb (same_value_zero v) seen then seen else seen ++ [v].
Definition members (l : list value) : list value := fold_left add_member l [].

(** The categories [renderCategoryOptions] lists after "All categories". *)
Definition categories : M (list value) :=
  db <- loadDB ;;
  ts <- collection "thoughts" db ;;
  cs <- lift (map_res category_shown ts) ;;
  ret (members cs).

End Numbers.

(** The category of a thought that has one, as a string. *)
Definition category_text (t : value) : jstring :=
  match field "category" t with
  | Some (VStr c) => if nonempty c then c else str "Uncategorized"
  | _ => str "Uncategorized"
  end.

End Views.

(* ================================================================== *)
(** * The contact form without counters *)
(* ================================================================== *)

Module Relay.
Import Js Json Hub Shape.

(** The relay answered, with a status outside 200..299. *)
Definition answered_badly (endpointV : jstring) (net : reply) : bool :=
  nonempty (trim endpointV)
  && match net with
     | Response status => negb (ok status)
     | NoResponse => false
     end.

(** A message record built from the payload, whatever [uid()] gave it. *)
Definition copy_of (payload : list (jstring * value)) (x : value) : Prop :=
  exists id, x = new_message id payload.

End Relay.


(* ================================================================== *)
(** * Facts about strings *)
(* ================================================================== *)

Module JsFacts.
Import Js.

Lemma streq_refl (a : jstring) : streq a a = true.
Proof.
  induction a as [|x a IH]; simpl; [reflexivity|].
  now rewrite N.eqb_refl, IH.
Qed.

Lemma streq_eq (a b : jstring) : streq a b = true <-> a = b.
Proof.
  split; [|intros ->; apply streq_refl].
  revert b; induction a as [|x a IH]; intros [|y b]; simpl;
    try discriminate; [reflexivity|].
  intros H; apply andb_prop in H as [Hx Hr].
  apply N.eqb_eq in Hx; subst; f_equal; auto.
Qed.

Lemma streq_neq (a b : jstring) : streq a b = false <-> a <> b.
Proof.
  split.
  - intros H E; apply streq_eq in E; congruence.
  - intros H; destruct (streq a b) eqn:E; [|reflexivity].
    apply streq_eq in E; contradiction.
Qed.

Lemma streq_sym (a b : jstring) : streq a b = streq b a.
Proof.
  destruct (streq b a) eqn:E.
  - apply streq_eq in E; subst; apply streq_refl.
  - apply streq_neq; apply streq_neq in E; congruence.
Qed.

End JsFacts.

(* ================================================================== *)
(** * The round trip through JSON text *)
(* ================================================================== *)

Module JsonFacts.
Import Js Json JsFacts.

Local Open Scope N_scope.
Local Arguments N.eqb : simpl never.
Local Arguments N.ltb : simpl never.
Local Arguments N.leb : simpl never.

(** ** String literals *)

Lemma unhex_hex_digit (d : N) : d < 16 -> unhex (hex_digit d) = Some d.
Proof.
  intros H; unfold hex_digit, unhex.
  destruct (d <? 10) eqn:E.
  - apply N.ltb_lt in E.
    replace ((48 <=? 48 + d) && (48 + d <=? 57)) with true.
    + f_equal; lia.
    + symmetry; apply andb_true_intro; split; apply N.leb_le; lia.
  - apply N.ltb_ge in E.
    replace ((48 <=? 87 + d) && (87 + d <=? 57)) with false.
    + replace ((97 <=? 87 + d) && (87 + d <=? 102)) with true.
      * f_equal; lia.
      * symmetry; apply andb_true_intro; split; apply N.leb_le; lia.
    + symmetry; apply andb_false_intro2; apply N.leb_gt; lia.
Qed.

Lemma hex_split (c : N) :
  c < 65536 ->
  4096 * (c / 4096 mod 16) + 256 * (c / 256 mod 16)
  + 16 * (c / 16 mod 16) + c mod 16 = c.
Proof.
  intros H.
  assert (H1 := N.div_mod c 16 ltac:(lia)).
  assert (H2 := N.div_mod (c / 16) 16 ltac:(lia)).
  assert (H3 := N.div_mod (c / 256) 16 ltac:(lia)).
  replace (c / 16 / 16) with (c / 256) in H2
    by (rewrite N.Div0.div_div; reflexivity).
  replace (c / 256 / 16) with (c / 4096) in H3
    by (rewrite N.Div0.div_div; reflexivity).
  assert (H4 : c / 4096 < 16) by (apply N.Div0.div_lt_upper_bound; lia).
  rewrite (N.mod_small (c / 4096) 16) by assumption.
  lia.
Qed.

Lemma unhex4_uescape (c : N) :
  c < 65536 ->
  unhex4 (hex_digit (c / 4096 mod 16)) (hex_digit (c / 256 mod 16))
         (hex_digit (c / 16 mod 16)) (hex_digit (c mod 16)) = Some c.
Proof.
  intros H; unfold unhex4.
  rewrite !unhex_hex_digit by (apply N.mod_lt; lia).
  f_equal; apply hex_split; assumption.
Qed.

Lemma parse_chars_raw c r :
  c <> 34 -> c <> 92 -> 32 <= c ->
  parse_chars (c :: r) = more c (parse_chars r).
Proof.
  intros H1 H2 H3; simpl.
  apply N.eqb_neq in H1, H2. rewrite H1, H2.
  replace (c <? 32) with false by (symmetry; apply N.ltb_ge; lia).
  reflexivity.
Qed.

Lemma parse_chars_uescape c r :
  c < 65536 -> parse_chars (uescape c ++ r) = more c (parse_chars r).
Proof.
  intros H. unfold uescape. cbn [app parse_chars].
  change (92 =? 34) with false. change (92 =? 92) with true.
  change (117 =? 117) with true. cbv iota.
  rewrite unhex4_uescape by assumption. reflexivity.
Qed.

Lemma parse_chars_escape1 c r :
  is_lead c = false -> is_trail c = false ->
  parse_chars (escape1 c ++ r) = more c (parse_chars r).
Proof.
  intros L T. unfold escape1.
  repeat match goal with
  | |- context [if ?x =? ?k then _ else _] =>
      destruct (N.eqb_spec x k); [subst; reflexivity|]
  end.
  destruct (N.ltb_spec c 32).
  - apply parse_chars_uescape; lia.
  - apply parse_chars_raw; assumption.
Qed.

Lemma surrogate_raw c : is_lead c = true \/ is_trail c = true -> c <> 34 /\ c <> 92 /\ 32 <= c /\ c < 65536.
Proof.
  unfold is_lead, is_trail. intros [H|H]; apply andb_prop in H as [H1 H2];
  apply N.leb_le in H1, H2; lia.
Qed.

Lemma parse_quote_body_aux n : forall s rest, (List.length s <= n)%nat ->
  parse_chars (quote_body s ++ 34 :: rest) = Some (s, rest).
Proof.
  induction n as [|n IH]; intros s rest Hn.
  - destruct s; [reflexivity | simpl in Hn; lia].
  - destruct s as [|c r]; [reflexivity|].
    simpl in Hn. cbn [quote_body].
    destruct (is_lead c) eqn:L.
    + destruct (surrogate_raw c (or_introl L)) as (A & B & C & D).
      destruct r as [|d r'].
      * rewrite parse_chars_uescape by assumption. reflexivity.
      * destruct (is_trail d) eqn:T.
        -- destruct (surrogate_raw d (or_intror T)) as (A' & B' & C' & D').
           cbn [app]. rewrite parse_chars_raw by assumption.
           rewrite parse_chars_raw by assumption.
           rewrite IH by (simpl in Hn; lia). reflexivity.
        -- rewrite <- app_assoc, parse_chars_uescape by assumption.
           rewrite IH by lia. reflexivity.
    + destruct (is_trail c) eqn:T.
      * destruct (surrogate_raw c (or_intror T)) as (A & B & C & D).
        rewrite <- app_assoc, parse_chars_uescape by assumption.
        rewrite IH by lia. reflexivity.
      * rewrite <- app_assoc, parse_chars_escape1 by assumption.
        rewrite IH by lia. reflexivity.
Qed.

Lemma parse_quote s rest :
  parse_chars (quote_body s ++ 34 :: rest) = Some (s, rest).
Proof. apply parse_quote_body_aux with (n := List.length s); lia. Qed.

(** ** Values *)

Lemma skip_ws_cons c r : is_ws c = false -> skip_ws (c :: r) = c :: r.
Proof. intros H; simpl; now rewrite H. Qed.

Lemma stringify_opens v :
  storable v = true -> exists c r, stringify v = c :: r /\ opens c.
Proof.
  unfold opens; destruct v as [|[]| | | |]; simpl; try discriminate; intros _;
    eexists; eexists; (split; [reflexivity|]); tauto.
Qed.

Lemma opens_not_ws c : opens c -> is_ws c = false.
Proof. unfold opens; intros H; decompose [or] H; subst; reflexivity. Qed.

Lemma join_cons2 x y l : join (x :: y :: l) = x ++ 44 :: join (y :: l).
Proof. reflexivity. Qed.

Lemma parse_elems_join pv l : forall rest n,
  l <> [] ->
  Forall (fun x => forall rest, pv (stringify x ++ rest) = Some (x, rest)) l ->
  (List.length l <= n)%nat ->
  parse_elems pv n (join (map stringify l) ++ 93 :: rest) = Some (l, rest).
Proof.
  induction l as [|x l IH]; intros rest n Hne HF Hn; [congruence|].
  destruct n as [|n]; [simpl in Hn; lia|].
  inversion HF as [|? ? Hx HF']; subst.
  destruct l as [|y l].
  - cbn [map join parse_elems]. rewrite Hx.
    rewrite skip_ws_cons by reflexivity. reflexivity.
  - cbn [map]. rewrite join_cons2. rewrite <- app_assoc. cbn [parse_elems].
    rewrite Hx. cbn [app]. rewrite skip_ws_cons by reflexivity.
    change (44 =? 44) with true. cbv iota.
    change (stringify y :: map stringify l) with (map stringify (y :: l)).
    rewrite IH; [reflexivity|discriminate|assumption|simpl in *; lia].
Qed.

Lemma parse_members_join pv ps : forall rest n,
  ps <> [] ->
  Forall (fun kv => forall rest,
            pv (stringify (snd kv) ++ rest) = Some (snd kv, rest)) ps ->
  (List.length ps <= n)%nat ->
  parse_members pv n (join (map member ps) ++ 125 :: rest) = Some (ps, rest).
Proof.
  induction ps as [|[k x] ps IH]; intros rest n Hne HF Hn; [congruence|].
  destruct n as [|n]; [simpl in Hn; lia|].
  inversion HF as [|? ? Hx HF']; subst. simpl in Hx.
  assert (Hstep : forall tail,
    parse_members pv (S n) (member (k, x) ++ tail) =
    match skip_ws tail with
    | c :: r4 =>
        if c =? 44 then
          match parse_members pv n r4 with
          | Some (ms, rest) => Some ((k, x) :: ms, rest)
          | None => None
          end
        else if c =? 125 then Some ([(k, x)], r4)
        else None
    | [] => None
    end).
  { intros tail. unfold member, quote. cbn [fst snd app parse_members].
    rewrite skip_ws_cons by reflexivity.
    change (34 =? 34) with true. cbv iota.
    repeat rewrite <- app_assoc. cbn [app].
    rewrite parse_quote. rewrite skip_ws_cons by reflexivity.
    change (58 =? 58) with true. cbv iota.
    rewrite Hx. reflexivity. }
  destruct ps as [|kv ps].
  - cbn [map join]. rewrite Hstep.
    rewrite skip_ws_cons by reflexivity. reflexivity.
  - cbn [map]. rewrite join_cons2. rewrite <- app_assoc. rewrite Hstep.
    cbn [app]. rewrite skip_ws_cons by reflexivity.
    change (44 =? 44) with true. cbv iota.
    change (member kv :: map member ps) with (map member (kv :: ps)).
    rewrite IH; [reflexivity|discriminate|assumption|simpl in *; lia].
Qed.

Lemma assign_fresh k v acc :
  mem k (map fst acc) = false -> assign k v acc = acc ++ [(k, v)].
Proof.
  induction acc as [|[k' v'] acc IH]; simpl; [reflexivity|].
  intros H; apply orb_false_elim in H as [H1 H2].
  rewrite H1, IH by assumption. reflexivity.
Qed.

Lemma mem_app k a b : mem k (a ++ b) = mem k a || mem k b.
Proof.
  induction a as [|x a IH]; simpl; [reflexivity|].
  now rewrite IH, orb_assoc.
Qed.

Lemma build_from ps : forall acc,
  distinct (map fst acc ++ map fst ps) = true ->
  fold_left (fun acc kv => assign (fst kv) (snd kv) acc) ps acc = acc ++ ps.
Proof.
  induction ps as [|[k v] ps IH]; intros acc H; simpl.
  - now rewrite app_nil_r.
  - assert (Hk : mem k (map fst acc) = false).
    { clear IH. induction acc as [|[k' v'] acc IHa]; simpl in *; [reflexivity|].
      apply andb_prop in H as [H1 H2]. apply negb_true_iff in H1.
      rewrite mem_app in H1. apply orb_false_elim in H1 as [_ H1].
      simpl in H1. apply orb_false_elim in H1 as [H1 _].
      rewrite streq_sym, H1. simpl. auto. }
    rewrite assign_fresh by assumption.
    rewrite IH.
    + now rewrite <- app_assoc.
    + rewrite map_app. simpl. now rewrite <- app_assoc.
Qed.

Lemma build_distinct ps : distinct (map fst ps) = true -> build ps = ps.
Proof. intros H; unfold build; now rewrite build_from. Qed.

Lemma stringify_length v : storable v = true -> (1 <= List.length (stringify v))%nat.
Proof.
  intros H. destruct (stringify_opens v H) as (c & r & E & _).
  rewrite E; simpl; lia.
Qed.

Lemma join_length (A : Type) (f : A -> jstring) (l : list A) :
  Forall (fun x => 1 <= List.length (f x))%nat l ->
  (List.length l <= List.length (join (map f l)))%nat.
Proof.
  induction l as [|x l IH]; intros H; [simpl; lia|].
  inversion H as [|? ? Hx Hl]; subst.
  destruct l as [|y l]; [simpl in *; lia|].
  specialize (IH Hl). cbn [map] in *.
  rewrite join_cons2, length_app. cbn [List.length] in *. lia.
Qed.

Lemma member_nonempty kv : (1 <= List.length (member kv))%nat.
Proof. unfold member, quote. cbn [app List.length]. lia. Qed.

Ltac lits :=
  repeat match goal with
  | |- context [N.eqb ?a ?b] =>
      let r := eval vm_compute in (N.eqb a b) in
      match r with
      | true => change (N.eqb a b) with true
      | false => change (N.eqb a b) with false
      end
  end; cbv iota.

Lemma forallb_Forall (A : Type) (f : A -> bool) l :
  forallb f l = true -> Forall (fun x => f x = true) l.
Proof. intros H; apply Forall_forall; apply forallb_forall; assumption. Qed.

Lemma list_max_le_each l n : (list_max l < n)%nat -> Forall (fun d => (d < n)%nat) l.
Proof.
  intros H. apply Forall_forall. intros d Hd.
  assert (Forall (fun k => (k <= list_max l)%nat) l) as F by (apply list_max_le; lia).
  rewrite Forall_forall in F. specialize (F d Hd). lia.
Qed.

Lemma parse_value_stringify v :
  storable v = true ->
  forall fuel rest, (depth v < fuel)%nat ->
  parse_value fuel (stringify v ++ rest) = Some (v, rest).
Proof.
  induction v as [|b|lit|s|l IH|ps IH] using value_induction;
    intros St fuel rest Hd; (destruct fuel as [|f]; [lia|]).
  - reflexivity.
  - destruct b; reflexivity.
  - discriminate.
  - cbn [stringify]. unfold quote. cbn [app parse_value].
    rewrite skip_ws_cons by reflexivity. lits.
    rewrite <- app_assoc. cbn [app]. rewrite parse_quote. reflexivity.
  - cbn [stringify storable depth] in *. cbn [app parse_value].
    rewrite skip_ws_cons by reflexivity. lits.
    rewrite <- app_assoc. cbn [app].
    assert (Hall : Forall (fun x => forall rest,
               parse_value f (stringify x ++ rest) = Some (x, rest)) l).
    { apply forallb_Forall in St.
      assert (Hd' : Forall (fun d => (d < f)%nat) (map depth l))
        by (apply list_max_le_each; lia).
      rewrite Forall_map in Hd'.
      rewrite Forall_forall in *. intros x Hx rest'.
      apply IH; auto. }
    destruct l as [|x l]; [reflexivity|].
    assert (Hx : storable x = true) by (simpl in St; now apply andb_prop in St).
    destruct (stringify_opens x Hx) as (c & r & E & Ho).
    assert (Hskip : exists r', skip_ws (join (map stringify (x :: l)) ++ 93 :: rest)
                     = c :: r').
    { destruct l; cbn [map join]; rewrite E; [|rewrite <- app_assoc];
        cbn [app]; rewrite skip_ws_cons by (now apply opens_not_ws); eauto. }
    destruct Hskip as (r' & ->).
    replace (c =? 93) with false
      by (symmetry; apply N.eqb_neq; unfold opens in Ho; lia).
    rewrite parse_elems_join; [reflexivity|discriminate|assumption|].
    rewrite length_app.
    apply forallb_Forall in St.
    assert (L := join_length _ stringify (x :: l)
                   (Forall_impl _ stringify_length St)).
    lia.
  - cbn [stringify storable depth] in *. cbn [app parse_value].
    rewrite skip_ws_cons by reflexivity. lits.
    rewrite <- app_assoc. cbn [app].
    apply andb_prop in St as [Hk St].
    assert (Hall : Forall (fun kv => forall rest,
               parse_value f (stringify (snd kv) ++ rest) = Some (snd kv, rest)) ps).
    { apply forallb_Forall in St.
      assert (Hd' : Forall (fun d => (d < f)%nat)
                           (map (fun kv => depth (snd kv)) ps))
        by (apply list_max_le_each; lia).
      rewrite Forall_map in Hd'.
      rewrite Forall_forall in *. intros x Hx rest'.
      apply IH; auto. }
    change (map (fun kv => quote (fst kv) ++ 58 :: stringify (snd kv)) ps)
      with (map member ps).
    destruct ps as [|[k x] ps]; [reflexivity|].
    assert (Hskip : exists r', skip_ws (join (map member ((k, x) :: ps)) ++ 125 :: rest)
                     = 34 :: r').
    { destruct ps; cbn [map join]; unfold member at 1, quote; cbn [fst app];
        [|rewrite <- app_assoc; cbn [app]];
        rewrite skip_ws_cons by reflexivity; eauto. }
    destruct Hskip as (r' & ->). lits.
    rewrite parse_members_join; [|discriminate|assumption|].
    + now rewrite build_distinct.
    + rewrite length_app.
      assert (J := join_length _ member ((k, x) :: ps)
                     (proj2 (Forall_forall _ _) (fun kv _ => member_nonempty kv))).
      lia.
Qed.

Lemma join_covers (A : Type) (f : A -> jstring) l x :
  In x l -> (List.length (f x) <= List.length (join (map f l)))%nat.
Proof.
  induction l as [|y l IH]; [intros []|].
  intros [->|H].
  - destruct l; [cbn [map join]; lia|].
    cbn [map]. rewrite join_cons2, length_app. lia.
  - destruct l as [|z l]; [destruct H|]. cbn [map] in *.
    rewrite join_cons2, length_app. specialize (IH H). cbn [List.length]. lia.
Qed.

Lemma member_length kv :
  (List.length (stringify (snd kv)) <= List.length (member kv))%nat.
Proof. unfold member. rewrite length_app. cbn [List.length]. lia. Qed.

Lemma depth_stringify v : (depth v <= List.length (stringify v))%nat.
Proof.
  induction v as [|b|lit|s|l IH|ps IH] using value_induction;
    try (simpl; lia).
  - cbn [depth stringify List.length]. rewrite length_app.
    assert (list_max (map depth l) <= List.length (join (map stringify l)))%nat.
    { apply list_max_le. rewrite Forall_map.
      rewrite Forall_forall in *. intros x Hx.
      specialize (IH x Hx). assert (J := join_covers _ stringify l x Hx). lia. }
    lia.
  - cbn [depth stringify List.length]. rewrite length_app.
    change (map (fun kv => quote (fst kv) ++ 58 :: stringify (snd kv)) ps)
      with (map member ps).
    assert (list_max (map (fun kv => depth (snd kv)) ps)
            <= List.length (join (map member ps)))%nat.
    { apply list_max_le. rewrite Forall_map.
      rewrite Forall_forall in *. intros x Hx.
      specialize (IH x Hx).
      assert (J := join_covers _ member ps x Hx).
      assert (K := member_length x). lia. }
    lia.
Qed.

Theorem parse_stringify v : storable v = true -> parse (stringify v) = Val v.
Proof.
  intros H. unfold parse.
  rewrite <- (app_nil_r (stringify v)) at 2.
  rewrite parse_value_stringify; [reflexivity|assumption|].
  assert (D := depth_stringify v). lia.
Qed.

End JsonFacts.

(* ================================================================== *)
(** * Running the operations *)
(* ================================================================== *)

Module HubFacts.
Import Js Json Hub Shape JsFacts JsonFacts.

Local Arguments str : simpl never.
Local Arguments get : simpl never.
Local Arguments same_str : simpl never.

(** ** The store *)

Lemma default_parses : parse (stringify DEFAULT_DB) = Val DEFAULT_DB.
Proof. vm_compute. reflexivity. Qed.

Lemma fresh_default_run s : fresh_default s = (Val DEFAULT_DB, s).
Proof. unfold fresh_default, lift. now rewrite default_parses. Qed.

Lemma loadDB_cases s :
  loadDB s =
  match storage s with
  | None => (Val DEFAULT_DB, s)
  | Some r =>
      if nonempty r then
        match parse r with
        | Val v => (Val v, s)
        | Throw _ => (Val DEFAULT_DB, logged s [ConsoleError])
        end
      else (Val DEFAULT_DB, s)
  end.
Proof.
  unfold loadDB, try_catch, bind, getItem.
  destruct (storage s) as [r|]; [|now rewrite fresh_default_run].
  destruct (nonempty r); [|now rewrite fresh_default_run].
  unfold lift. destruct (parse r); [reflexivity|].
  unfold emit. now rewrite fresh_default_run.
Qed.

Lemma same_vars_refl s : same_vars s s.
Proof. repeat split. Qed.

Lemma same_vars_trans s1 s2 s3 : same_vars s1 s2 -> same_vars s2 s3 -> same_vars s1 s3.
Proof. unfold same_vars. intuition congruence. Qed.

Lemma same_vars_logged s l : same_vars s (logged s l).
Proof. repeat split. Qed.

Lemma loadDB_run s :
  exists d s1, loadDB s = (Val d, s1) /\ storage s1 = storage s /\ same_vars s s1.
Proof.
  rewrite loadDB_cases.
  destruct (storage s) as [r|] eqn:E.
  - destruct (nonempty r); [destruct (parse r)|];
      eexists; eexists; (split; [reflexivity|]);
      (split; [auto using same_vars_refl | auto using same_vars_refl, same_vars_logged]).
  - eexists; eexists; split; [reflexivity|]. auto using same_vars_refl.
Qed.

Lemma holds_load s d : holds s d -> loadDB s = (Val d, loaded s).
Proof.
  unfold holds, document, loaded, outcome, after. intros H.
  destruct (loadDB s) as [r s1]. simpl in *. now subst.
Qed.

Lemma loaded_storage s : storage (loaded s) = storage s.
Proof.
  unfold loaded, after. destruct (loadDB_run s) as (d & s1 & E & A & B).
  now rewrite E.
Qed.

Lemma loaded_vars s : same_vars s (loaded s).
Proof.
  unfold loaded, after. destruct (loadDB_run s) as (d & s1 & E & A & B).
  now rewrite E.
Qed.

Lemma stringify_nonempty d : storable d = true -> nonempty (stringify d) = true.
Proof.
  intros H. destruct (stringify_opens d H) as (c & r & -> & _). reflexivity.
Qed.

Lemma loadDB_stored s d :
  storage s = Some (stringify d) -> storable d = true -> loadDB s = (Val d, s).
Proof.
  intros E H. rewrite loadDB_cases, E, stringify_nonempty, parse_stringify by assumption.
  reflexivity.
Qed.

Lemma holds_stored s d :
  storage s = Some (stringify d) -> storable d = true -> holds s d.
Proof.
  intros E H. unfold holds, document, outcome. now rewrite (loadDB_stored s d E H).
Qed.

Lemma holds_same_storage s s' d : storage s' = storage s -> holds s d -> holds s' d.
Proof.
  unfold holds, document, outcome. rewrite !loadDB_cases. intros ->.
  destruct (storage s) as [r|]; [|auto].
  destruct (nonempty r); [|auto]. destruct (parse r); auto.
Qed.

Lemma usable_storable d : usable d = true -> storable d = true.
Proof. unfold usable. intros H. repeat (apply andb_prop in H as [H _]). exact H. Qed.

Lemma sequence_records kind k d :
  sequence_of kind (field k d) = true -> field k d = Some (VArr (records k d)).
Proof.
  unfold sequence_of, records. destruct (field k d) as [[]|]; try discriminate.
  reflexivity.
Qed.

Lemma field_get k d x : field k d = Some x -> get (Some d) (str k) = Val (Some x).
Proof.
  destruct d; cbn [field]; try discriminate.
  intros H. unfold get. now rewrite H.
Qed.

Lemma stat_run sel k d s kind :
  sequence_of kind (field k d) = true ->
  stat sel k d s = (Val tt, logged s [SetText sel (Count (List.length (records k d)))]).
Proof.
  intros H. apply sequence_records in H.
  unfold stat, bind, lift. rewrite (field_get _ _ _ H). reflexivity.
Qed.

Lemma saveDB_run d s :
  usable d = true ->
  saveDB d s = (Val tt, saved d s) /\ storage (saved d s) = Some (stringify d)
  /\ same_vars s (saved d s).
Proof.
  intros U. assert (St := usable_storable _ U).
  unfold usable in U. repeat (apply andb_prop in U as [U ?]).
  unfold saved, after, saveDB, updateStats, bind, setItem.
  erewrite loadDB_stored; [|reflexivity|assumption].
  erewrite !stat_run by eassumption.
  split; [reflexivity|]. split; [reflexivity|]. repeat split.
Qed.

Lemma saveDB_usable d s : usable d = true -> saveDB d s = (Val tt, saved d s).
Proof. intros U. apply saveDB_run, U. Qed.

Lemma saved_storage d s : usable d = true -> storage (saved d s) = Some (stringify d).
Proof. intros U. apply saveDB_run, U. Qed.

Lemma saved_vars d s : usable d = true -> same_vars s (saved d s).
Proof. intros U. apply saveDB_run, U. Qed.

(** ** Objects *)

Lemma lookup_assign_same k v ps : lookup k (assign k v ps) = Some v.
Proof.
  induction ps as [|[k' v'] ps IH]; simpl.
  - now rewrite streq_refl.
  - destruct (streq k k') eqn:E; simpl; rewrite ?streq_refl, ?E; auto.
Qed.

Lemma lookup_assign_other k k' v ps :
  streq k' k = false -> lookup k' (assign k v ps) = lookup k' ps.
Proof.
  intros N. induction ps as [|[k0 v0] ps IH]; simpl.
  - now rewrite N.
  - destruct (streq k k0) eqn:E; simpl.
    + apply streq_eq in E; subst. now rewrite N.
    + now rewrite IH.
Qed.

Lemma mem_assign k' k v ps :
  mem k' (map fst (assign k v ps)) = mem k' (map fst ps) || streq k' k.
Proof.
  induction ps as [|[k0 v0] ps IH]; simpl.
  - now rewrite orb_false_r.
  - destruct (streq k k0) eqn:E; simpl.
    + apply streq_eq in E; subst.
      destruct (streq k' k0), (mem k' (map fst ps)); reflexivity.
    + rewrite IH. now rewrite orb_assoc.
Qed.

Lemma distinct_assign k v ps :
  distinct (map fst ps) = true -> distinct (map fst (assign k v ps)) = true.
Proof.
  induction ps as [|[k0 v0] ps IH]; simpl; [reflexivity|].
  intros H. apply andb_prop in H as [H1 H2].
  destruct (streq k k0) eqn:E; simpl.
  - apply streq_eq in E; subst. now rewrite H1, H2.
  - rewrite mem_assign, IH by assumption.
    apply negb_true_iff in H1. rewrite H1, streq_sym, E. reflexivity.
Qed.

Lemma forallb_assign (p : value -> bool) k v ps :
  p v = true ->
  forallb (fun kv => p (snd kv)) ps = true ->
  forallb (fun kv => p (snd kv)) (assign k v ps) = true.
Proof.
  intros Hv. induction ps as [|[k0 v0] ps IH]; simpl.
  - now rewrite Hv.
  - intros H. apply andb_prop in H as [H1 H2].
    destruct (streq k k0); simpl; rewrite ?Hv, ?H1, ?H2, ?IH; auto.
Qed.

Lemma storable_set k v x :
  storable x = true -> storable v = true -> storable (set k v x) = true.
Proof.
  destruct x; simpl; auto. intros H Hv. apply andb_prop in H as [H1 H2].
  rewrite distinct_assign by assumption.
  now rewrite (forallb_assign storable).
Qed.

Lemma is_object_set k v x : is_object (set k v x) = is_object x.
Proof. destruct x; reflexivity. Qed.

Lemma field_set_same k v x :
  is_object x = true -> field k (set (str k) v x) = Some v.
Proof. destruct x; try discriminate. intros _. apply lookup_assign_same. Qed.

Lemma field_set_other k k' v x :
  streq (str k') (str k) = false -> field k' (set (str k) v x) = field k' x.
Proof. intros N. destruct x; try reflexivity. now apply lookup_assign_other. Qed.

Lemma get_field k x : is_object x = true -> get (Some x) (str k) = Val (field k x).
Proof. destruct x; try discriminate. reflexivity. Qed.

(** ** Collections *)

Lemma find_by_id_objects id l :
  forallb is_object l = true -> find_by_id id l = Val (find (has_id id) l).
Proof.
  induction l as [|x l IH]; simpl; [reflexivity|].
  intros H. apply andb_prop in H as [Hx Hl].
  rewrite (get_field "id" _ Hx). unfold has_id.
  destruct (same_str (field "id" x) id); auto.
Qed.

Lemma reject_id_objects id l :
  forallb is_object l = true ->
  reject_id id l = Val (filter (fun x => negb (has_id id x)) l).
Proof.
  induction l as [|x l IH]; simpl; [reflexivity|].
  intros H. apply andb_prop in H as [Hx Hl].
  rewrite (get_field "id" _ Hx), IH by assumption. unfold has_id.
  destruct (same_str (field "id" x) id); reflexivity.
Qed.

Lemma update_first_map (A : Type) (g : value -> A) id f l :
  (forall x, g (f x) = g x) -> map g (update_first id f l) = map g l.
Proof.
  intros H. induction l as [|x l IH]; simpl; [reflexivity|].
  destruct (get (Some x) (str "id")); [|reflexivity].
  destruct (same_str a id); simpl; now rewrite ?H, ?IH.
Qed.

Lemma update_first_forallb (p : value -> bool) id f l :
  (forall x, p x = true -> p (f x) = true) ->
  forallb p l = true -> forallb p (update_first id f l) = true.
Proof.
  intros H. induction l as [|x l IH]; simpl; [reflexivity|].
  intros Hl. apply andb_prop in Hl as [Hx Hl].
  destruct (get (Some x) (str "id")); [|simpl; now rewrite Hx, Hl].
  destruct (same_str a id); simpl; rewrite ?H, ?Hx, ?Hl, ?IH; auto.
Qed.

Lemma update_first_found id f l t :
  forallb is_object l = true ->
  find (has_id id) l = Some t ->
  exists l1 l2, l = l1 ++ t :: l2 /\ forallb (fun x => negb (has_id id x)) l1 = true
                /\ update_first id f l = l1 ++ f t :: l2.
Proof.
  induction l as [|x l IH]; simpl; [discriminate|].
  intros H F. apply andb_prop in H as [Hx Hl].
  rewrite (get_field "id" _ Hx). fold (has_id id x).
  destruct (has_id id x) eqn:E.
  - injection F as ->. exists [], l. auto.
  - destruct (IH Hl F) as (l1 & l2 & -> & A & B).
    exists (x :: l1), l2. simpl. rewrite E, A, B. auto.
Qed.

(** ** Documents *)

Lemma usable_object d : usable d = true -> is_object d = true.
Proof.
  unfold usable. intros H. repeat (apply andb_prop in H as [H ?]).
  destruct d; try discriminate; reflexivity.
Qed.

Lemma field_with_collection_same k l d :
  is_object d = true -> field k (with_collection k l d) = Some (VArr l).
Proof. apply field_set_same. Qed.

Lemma field_with_collection_other k k' l d :
  streq (str k') (str k) = false ->
  field k' (with_collection k l d) = field k' d.
Proof. apply field_set_other. Qed.

Lemma records_with_collection k l d :
  is_object d = true -> records k (with_collection k l d) = l.
Proof. intros H. unfold records. now rewrite field_with_collection_same. Qed.

Lemma sequence_with_collection kind k k' l d :
  is_object d = true ->
  forallb kind l = true ->
  sequence_of kind (field k' d) = true ->
  sequence_of kind (field k' (with_collection k l d)) = true.
Proof.
  intros O L H. destruct (streq (str k') (str k)) eqn:E.
  - apply streq_eq in E. unfold with_collection. rewrite <- E.
    rewrite field_set_same by assumption. exact L.
  - now rewrite field_with_collection_other.
Qed.

Lemma usable_with_collection k l d :
  usable d = true -> forallb storable l = true -> forallb is_object l = true ->
  usable (with_collection k l d) = true.
Proof.
  intros U S O. assert (Ob := usable_object _ U).
  unfold usable in *. repeat (apply andb_prop in U as [U ?]).
  rewrite !sequence_with_collection by assumption.
  unfold with_collection. rewrite storable_set; auto.
Qed.

Lemma put_object k v d : is_object d = true -> put k v d = Val (set k v d).
Proof. destruct d; try discriminate. reflexivity. Qed.

Lemma valid_usable d : valid_document d = true -> usable d = true.
Proof.
  unfold valid_document, usable. intros H.
  repeat (apply andb_prop in H as [H ?]).
  assert (W : forall kind x, (forall v, kind v = true -> is_object v = true) ->
              sequence_of kind x = true -> sequence_of is_object x = true).
  { intros kind [[]|] K; simpl; try discriminate. intros F.
    apply forallb_forall. intros v Hv. apply K.
    rewrite forallb_forall in F. auto. }
  rewrite H.
  rewrite (W thought), (W work_item), (W project), (W message); auto;
    intros v Hv;
    [unfold message in Hv|unfold project in Hv|unfold work_item in Hv
    |unfold thought in Hv];
    unfold record in Hv; repeat (apply andb_prop in Hv as [Hv ?]); exact Hv.
Qed.

Lemma usable_collection k d :
  sequence_of is_object (field k d) = true ->
  forall s, collection k d s = (Val (records k d), s).
Proof.
  intros H s. unfold collection, bind, lift.
  assert (E := sequence_records _ _ _ H).
  rewrite (field_get _ _ _ E). reflexivity.
Qed.

Lemma fileToBase64_run file s :
  file <> FileFails -> fileToBase64 file s = (Val (image_of file), s).
Proof. destruct file; try reflexivity. congruence. Qed.

Lemma usable_seq d : usable d = true ->
  sequence_of is_object (field "thoughts" d) = true /\
  sequence_of is_object (field "work" d) = true /\
  sequence_of is_object (field "projects" d) = true /\
  sequence_of is_object (field "messages" d) = true.
Proof. unfold usable. intros H. repeat (apply andb_prop in H as [H ?]). auto. Qed.

Lemma records_objects k d :
  sequence_of is_object (field k d) = true -> forallb is_object (records k d) = true.
Proof.
  unfold sequence_of, records. destruct (field k d) as [[]|]; try discriminate. auto.
Qed.

Lemma records_storable k d :
  storable d = true -> forallb storable (records k d) = true.
Proof.
  unfold records, field. destruct d as [| | | | |ps]; try reflexivity.
  simpl. intros H. apply andb_prop in H as [_ H].
  induction ps as [|[k0 v0] ps IH]; simpl in *; [reflexivity|].
  apply andb_prop in H as [H1 H2].
  destruct (streq (str k) k0).
  - destruct v0; try reflexivity. exact H1.
  - auto.
Qed.

Lemma forallb_snoc (A : Type) (p : A -> bool) l x :
  forallb p l = true -> p x = true -> forallb p (l ++ [x]) = true.
Proof. intros H Hx. rewrite forallb_app, H. simpl. now rewrite Hx. Qed.

Lemma or_null_storable img : storable (or_null img) = true.
Proof. destruct img as [u|]; simpl; [destruct (nonempty u)|]; reflexivity. Qed.

Lemma set_image_storable img x :
  storable x = true -> storable (set_image img x) = true.
Proof.
  intros H. destruct img as [u|]; simpl; [|assumption].
  destruct (nonempty u); [|assumption]. now apply storable_set.
Qed.

Lemma set_image_object img x : is_object (set_image img x) = is_object x.
Proof.
  destruct img as [u|]; simpl; [|reflexivity].
  destruct (nonempty u); [apply is_object_set|reflexivity].
Qed.

Lemma strings_storable l : storable (VArr (map VStr l)) = true.
Proof. simpl. induction l; simpl; auto. Qed.

Lemma edit_thought_storable title category content img now x :
  storable x = true ->
  storable (edit_thought title category content img now x) = true.
Proof.
  intros H. unfold edit_thought.
  repeat first [apply storable_set | apply set_image_storable
               | assumption | reflexivity].
Qed.

Lemma edit_work_storable title tags content img now x :
  storable x = true -> storable (edit_work title tags content img now x) = true.
Proof.
  intros H. unfold edit_work.
  repeat first [apply storable_set | apply set_image_storable
               | apply strings_storable | assumption | reflexivity].
Qed.

Lemma edit_project_storable title link desc img now x :
  storable x = true ->
  storable (edit_project title link desc img now x) = true.
Proof.
  intros H. unfold edit_project.
  repeat first [apply storable_set | apply set_image_storable
               | assumption | reflexivity].
Qed.

Lemma edit_thought_object title category content img now x :
  is_object x = true ->
  is_object (edit_thought title category content img now x) = true.
Proof.
  intros H. unfold edit_thought.
  now rewrite is_object_set, set_image_object, !is_object_set.
Qed.

Lemma edit_work_object title tags content img now x :
  is_object x = true -> is_object (edit_work title tags content img now x) = true.
Proof.
  intros H. unfold edit_work.
  now rewrite is_object_set, set_image_object, !is_object_set.
Qed.

Lemma edit_project_object title link desc img now x :
  is_object x = true ->
  is_object (edit_project title link desc img now x) = true.
Proof.
  intros H. unfold edit_project.
  now rewrite is_object_set, set_image_object, !is_object_set.
Qed.

Lemma new_thought_storable uid title category content img now :
  storable (new_thought uid title category content img now) = true.
Proof. cbn. now rewrite or_null_storable. Qed.

Lemma new_work_storable uid title tags content img now :
  storable (new_work uid title tags content img now) = true.
Proof.
  unfold new_work.
  change (storable (VArr (map VStr tags)) && (storable (or_null img) && true) = true).
  now rewrite strings_storable, or_null_storable.
Qed.

Lemma new_project_storable uid title link desc img now :
  storable (new_project uid title link desc img now) = true.
Proof. cbn. now rewrite or_null_storable. Qed.

Lemma filter_forallb (A : Type) (p q : A -> bool) l :
  forallb p l = true -> forallb p (filter q l) = true.
Proof.
  induction l as [|x l IH]; simpl; [reflexivity|].
  intros H. apply andb_prop in H as [Hx Hl].
  destruct (q x); simpl; rewrite ?Hx; auto.
Qed.

Lemma same_vars_is (s s' : state) :
  same_vars s s' ->
  editingThoughtId s' = editingThoughtId s
  /\ editingWorkId s' = editingWorkId s
  /\ editingProjectId s' = editingProjectId s.
Proof. unfold same_vars. tauto. Qed.

Lemma same_vars_saved_logged s d l l' :
  usable d = true ->
  same_vars s (logged (saved d (logged (loaded s) l)) l').
Proof.
  intros U.
  eapply same_vars_trans; [apply loaded_vars|].
  eapply same_vars_trans; [apply (same_vars_logged _ l)|].
  eapply same_vars_trans; [apply saved_vars, U|].
  apply same_vars_logged.
Qed.

Lemma logged_logged s l l' : logged (logged s l) l' = logged s (l ++ l').
Proof. unfold logged. cbn. now rewrite app_assoc. Qed.

Ltac vars_of s :=
  let V1 := fresh "V" in let V2 := fresh "V" in let V3 := fresh "V" in
  destruct (same_vars_is _ _ (loaded_vars s)) as (V1 & V2 & V3).

Ltac step := unfold bind at 1.

Lemma saveThought_create s d titleV categoryV contentV file uid now :
  holds s d -> usable d = true ->
  is_set (editingThoughtId s) = false ->
  nonempty (trim titleV) = true ->
  file <> FileFails ->
  commits (saveThought titleV categoryV contentV file uid now) s
    (with_collection "thoughts"
       (records "thoughts" d ++
        [new_thought uid (trim titleV) (category_of categoryV) (trim contentV)
           (image_of file) now]) d).
Proof.
  intros Hl U Hed Ht Hf.
  destruct (usable_seq _ U) as (S1 & S2 & S3 & S4).
  vars_of s.
  match goal with |- commits _ _ ?d' => assert (U' : usable d' = true) end.
  { apply usable_with_collection; [assumption| |]; apply forallb_snoc;
      auto using records_storable, usable_storable, records_objects,
                 new_thought_storable. }
  unfold commits, saveThought. rewrite Ht. cbn [negb].
  split; [|exact U']. eexists. split.
  - step. rewrite fileToBase64_run by assumption.
    step. rewrite (holds_load _ _ Hl).
    step. unfold read at 1. rewrite V, Hed.
    step. rewrite (usable_collection _ _ S1).
    step. unfold showToast at 1, emit at 1.
    step. rewrite saveDB_usable by assumption.
    cbn [bind emit]. rewrite ?logged_logged. reflexivity.
  - split; [cbn [storage logged]; now rewrite saved_storage|].
    now apply same_vars_saved_logged.
Qed.

Lemma sv_logged s x l : same_vars s x -> same_vars s (logged x l).
Proof. intros H. eapply same_vars_trans; [exact H|apply same_vars_logged]. Qed.

Lemma sv_loaded s x : same_vars s x -> same_vars s (loaded x).
Proof. intros H. eapply same_vars_trans; [exact H|apply loaded_vars]. Qed.

Lemma sv_saved s x d : usable d = true -> same_vars s x -> same_vars s (saved d x).
Proof. intros U H. eapply same_vars_trans; [exact H|now apply saved_vars]. Qed.

Lemma storage_logged s l : storage (logged s l) = storage s.
Proof. reflexivity. Qed.

Ltac vars :=
  repeat first [ apply same_vars_refl | apply sv_logged | apply sv_loaded
               | apply sv_saved; [assumption|] ].

Ltac stored :=
  repeat first [ rewrite storage_logged | rewrite loaded_storage
               | rewrite saved_storage by assumption ];
  try reflexivity.

Ltac run_load Hl := step; rewrite (holds_load _ _ Hl).
Ltac run_toast := step; unfold showToast at 1, emit at 1.
Ltac run_save := first [step; rewrite saveDB_usable by assumption
                       | rewrite saveDB_usable by assumption].
Ltac done_commit :=
  cbn [bind emit showToast]; reflexivity.

Lemma find_object id l t :
  forallb is_object l = true -> find (has_id id) l = Some t -> is_object t = true.
Proof.
  intros H F. apply find_some in F as [I _].
  rewrite forallb_forall in H. auto.
Qed.

Lemma saveThought_edit s d id t titleV categoryV contentV file uid now :
  holds s d -> usable d = true ->
  editingThoughtId s = Some id -> nonempty id = true ->
  find (has_id id) (records "thoughts" d) = Some t ->
  nonempty (trim titleV) = true ->
  file <> FileFails ->
  commits (saveThought titleV categoryV contentV file uid now) s
    (with_collection "thoughts"
       (update_first id
          (edit_thought (trim titleV) (category_of categoryV) (trim contentV)
             (image_of file) now)
          (records "thoughts" d)) d).
Proof.
  intros Hl U Hed Hid Hfind Ht Hf.
  destruct (usable_seq _ U) as (S1 & S2 & S3 & S4).
  vars_of s.
  match goal with |- commits _ _ ?d' => assert (U' : usable d' = true) end.
  { apply usable_with_collection; [assumption| |]; apply update_first_forallb;
      auto using records_storable, usable_storable, records_objects,
                 edit_thought_storable, edit_thought_object. }
  unfold commits, saveThought. rewrite Ht. cbn [negb].
  split; [|exact U']. eexists. split; [|split; [|shelve]].
  - step. rewrite fileToBase64_run by assumption.
    run_load Hl.
    step. unfold read at 1. rewrite V, Hed. cbn [is_set id_of]. rewrite Hid.
    step. rewrite (usable_collection _ _ S1).
    step. unfold lift at 1.
    rewrite find_by_id_objects by (now apply records_objects). rewrite Hfind.
    run_toast. run_save. done_commit.
  - stored.
  Unshelve. vars.
Qed.

Lemma saveThought_missing s d id titleV categoryV contentV file uid now :
  holds s d -> usable d = true ->
  editingThoughtId s = Some id -> nonempty id = true ->
  find (has_id id) (records "thoughts" d) = None ->
  nonempty (trim titleV) = true ->
  file <> FileFails ->
  saveThought titleV categoryV contentV file uid now s
  = (Val tt, logged (loaded s) [Toast "Not found"]).
Proof.
  intros Hl U Hed Hid Hfind Ht Hf.
  destruct (usable_seq _ U) as (S1 & S2 & S3 & S4).
  vars_of s.
  unfold saveThought. rewrite Ht. cbn [negb].
  step. rewrite fileToBase64_run by assumption.
  run_load Hl.
  step. unfold read at 1. rewrite V, Hed. cbn [is_set id_of]. rewrite Hid.
  step. rewrite (usable_collection _ _ S1).
  step. unfold lift at 1.
  rewrite find_by_id_objects by (now apply records_objects). rewrite Hfind.
  reflexivity.
Qed.

Lemma deleteThought_run s d id :
  holds s d -> usable d = true ->
  commits (deleteThought id) s
    (with_collection "thoughts"
       (filter (fun x => negb (has_id id x)) (records "thoughts" d)) d).
Proof.
  intros Hl U.
  destruct (usable_seq _ U) as (S1 & S2 & S3 & S4).
  match goal with |- commits _ _ ?d' => assert (U' : usable d' = true) end.
  { apply usable_with_collection; [assumption| |]; apply filter_forallb;
      auto using records_storable, usable_storable, records_objects. }
  unfold commits, deleteThought.
  split; [|exact U']. eexists. split; [|split; [|shelve]].
  - run_load Hl.
    step. rewrite (usable_collection _ _ S1).
    step. unfold lift at 1.
    rewrite reject_id_objects by (now apply records_objects).
    step. unfold lift at 1. rewrite put_object by (now apply usable_object).
    fold (with_collection "thoughts"
            (filter (fun x => negb (has_id id x)) (records "thoughts" d)) d).
    run_save. done_commit.
  - stored.
  Unshelve. vars.
Qed.

(** ** Work updates *)

Lemma saveWork_create s d titleV tagsV contentV file uid now :
  holds s d -> usable d = true ->
  is_set (editingWorkId s) = false ->
  nonempty (trim titleV) = true ->
  file <> FileFails ->
  commits (saveWork titleV tagsV contentV file uid now) s
    (with_collection "work"
       (records "work" d ++
        [new_work uid (trim titleV) (tags_of tagsV) (trim contentV)
           (image_of file) now]) d).
Proof.
  intros Hl U Hed Ht Hf.
  destruct (usable_seq _ U) as (S1 & S2 & S3 & S4).
  vars_of s.
  match goal with |- commits _ _ ?d' => assert (U' : usable d' = true) end.
  { apply usable_with_collection; [assumption| |]; apply forallb_snoc;
      auto using records_storable, usable_storable, records_objects,
                 new_work_storable. }
  unfold commits, saveWork. rewrite Ht. cbn [negb].
  split; [|exact U']. eexists. split; [|split; [|shelve]].
  - step. rewrite fileToBase64_run by assumption.
    run_load Hl.
    step. unfold read at 1. rewrite V0, Hed.
    step. rewrite (usable_collection _ _ S2).
    run_toast. run_save. done_commit.
  - stored.
  Unshelve. vars.
Qed.

Lemma saveWork_edit s d id t titleV tagsV contentV file uid now :
  holds s d -> usable d = true ->
  editingWorkId s = Some id -> nonempty id = true ->
  find (has_id id) (records "work" d) = Some t ->
  nonempty (trim titleV) = true ->
  file <> FileFails ->
  commits (saveWork titleV tagsV contentV file uid now) s
    (with_collection "work"
       (update_first id
          (edit_work (trim titleV) (tags_of tagsV) (trim contentV)
             (image_of file) now)
          (records "work" d)) d).
Proof.
  intros Hl U Hed Hid Hfind Ht Hf.
  destruct (usable_seq _ U) as (S1 & S2 & S3 & S4).
  vars_of s.
  match goal with |- commits _ _ ?d' => assert (U' : usable d' = true) end.
  { apply usable_with_collection; [assumption| |]; apply update_first_forallb;
      auto using records_storable, usable_storable, records_objects,
                 edit_work_storable, edit_work_object. }
  unfold commits, saveWork. rewrite Ht. cbn [negb].
  split; [|exact U']. eexists. split; [|split; [|shelve]].
  - step. rewrite fileToBase64_run by assumption.
    run_load Hl.
    step. unfold read at 1. rewrite V0, Hed. cbn [is_set id_of]. rewrite Hid.
    step. rewrite (usable_collection _ _ S2).
    step. unfold lift at 1.
    rewrite find_by_id_objects by (now apply records_objects). rewrite Hfind.
    step. unfold found at 1, ret at 1.
    run_toast. run_save. done_commit.
  - stored.
  Unshelve. vars.
Qed.

Lemma saveWork_missing s d id titleV tagsV contentV file uid now :
  holds s d -> usable d = true ->
  editingWorkId s = Some id -> nonempty id = true ->
  find (has_id id) (records "work" d) = None ->
  nonempty (trim titleV) = true ->
  file <> FileFails ->
  saveWork titleV tagsV contentV file uid now s = (Throw TypeError, loaded s).
Proof.
  intros Hl U Hed Hid Hfind Ht Hf.
  destruct (usable_seq _ U) as (S1 & S2 & S3 & S4).
  vars_of s.
  unfold saveWork. rewrite Ht. cbn [negb].
  step. rewrite fileToBase64_run by assumption.
  run_load Hl.
  step. unfold read at 1. rewrite V0, Hed. cbn [is_set id_of]. rewrite Hid.
  step. rewrite (usable_collection _ _ S2).
  step. unfold lift at 1.
  rewrite find_by_id_objects by (now apply records_objects). rewrite Hfind.
  reflexivity.
Qed.

Lemma deleteWork_run s d id :
  holds s d -> usable d = true ->
  commits (deleteWork id) s
    (with_collection "work"
       (filter (fun x => negb (has_id id x)) (records "work" d)) d).
Proof.
  intros Hl U.
  destruct (usable_seq _ U) as (S1 & S2 & S3 & S4).
  match goal with |- commits _ _ ?d' => assert (U' : usable d' = true) end.
  { apply usable_with_collection; [assumption| |]; apply filter_forallb;
      auto using records_storable, usable_storable, records_objects. }
  unfold commits, deleteWork.
  split; [|exact U']. eexists. split; [|split; [|shelve]].
  - run_load Hl.
    step. rewrite (usable_collection _ _ S2).
    step. unfold lift at 1.
    rewrite reject_id_objects by (now apply records_objects).
    step. unfold lift at 1. rewrite put_object by (now apply usable_object).
    fold (with_collection "work"
            (filter (fun x => negb (has_id id x)) (records "work" d)) d).
    run_save. done_commit.
  - stored.
  Unshelve. vars.
Qed.

(** ** Projects *)

Lemma saveProject_create s d titleV linkV descV file uid now :
  holds s d -> usable d = true ->
  is_set (editingProjectId s) = false ->
  nonempty (trim titleV) = true ->
  file <> FileFails ->
  commits (saveProject titleV linkV descV file uid now) s
    (with_collection "projects"
       (records "projects" d ++
        [new_project uid (trim titleV) (trim linkV) (trim descV)
           (image_of file) now]) d).
Proof.
  intros Hl U Hed Ht Hf.
  destruct (usable_seq _ U) as (S1 & S2 & S3 & S4).
  vars_of s.
  match goal with |- commits _ _ ?d' => assert (U' : usable d' = true) end.
  { apply usable_with_collection; [assumption| |]; apply forallb_snoc;
      auto using records_storable, usable_storable, records_objects,
                 new_project_storable. }
  unfold commits, saveProject. rewrite Ht. cbn [negb].
  split; [|exact U']. eexists. split; [|split; [|shelve]].
  - step. rewrite fileToBase64_run by assumption.
    run_load Hl.
    step. unfold read at 1. rewrite V1, Hed.
    step. rewrite (usable_collection _ _ S3).
    run_toast. run_save. done_commit.
  - stored.
  Unshelve. vars.
Qed.

Lemma saveProject_edit s d id t titleV linkV descV file uid now :
  holds s d -> usable d = true ->
  editingProjectId s = Some id -> nonempty id = true ->
  find (has_id id) (records "projects" d) = Some t ->
  nonempty (trim titleV) = true ->
  file <> FileFails ->
  commits (saveProject titleV linkV descV file uid now) s
    (with_collection "projects"
       (update_first id
          (edit_project (trim titleV) (trim linkV) (trim descV)
             (image_of file) now)
          (records "projects" d)) d).
Proof.
  intros Hl U Hed Hid Hfind Ht Hf.
  destruct (usable_seq _ U) as (S1 & S2 & S3 & S4).
  vars_of s.
  match goal with |- commits _ _ ?d' => assert (U' : usable d' = true) end.
  { apply usable_with_collection; [assumption| |]; apply update_first_forallb;
      auto using records_storable, usable_storable, records_objects,
                 edit_project_storable, edit_project_object. }
  unfold commits, saveProject. rewrite Ht. cbn [negb].
  split; [|exact U']. eexists. split; [|split; [|shelve]].
  - step. rewrite fileToBase64_run by assumption.
    run_load Hl.
    step. unfold read at 1. rewrite V1, Hed. cbn [is_set id_of]. rewrite Hid.
    step. rewrite (usable_collection _ _ S3).
    step. unfold lift at 1.
    rewrite find_by_id_objects by (now apply records_objects). rewrite Hfind.
    step. unfold found at 1, ret at 1.
    run_toast. run_save. done_commit.
  - stored.
  Unshelve. vars.
Qed.

Lemma saveProject_missing s d id titleV linkV descV file uid now :
  holds s d -> usable d = true ->
  editingProjectId s = Some id -> nonempty id = true ->
  find (has_id id) (records "projects" d) = None ->
  nonempty (trim titleV) = true ->
  file <> FileFails ->
  saveProject titleV linkV descV file uid now s = (Throw TypeError, loaded s).
Proof.
  intros Hl U Hed Hid Hfind Ht Hf.
  destruct (usable_seq _ U) as (S1 & S2 & S3 & S4).
  vars_of s.
  unfold saveProject. rewrite Ht. cbn [negb].
  step. rewrite fileToBase64_run by assumption.
  run_load Hl.
  step. unfold read at 1. rewrite V1, Hed. cbn [is_set id_of]. rewrite Hid.
  step. rewrite (usable_collection _ _ S3).
  step. unfold lift at 1.
  rewrite find_by_id_objects by (now apply records_objects). rewrite Hfind.
  reflexivity.
Qed.

Lemma deleteProject_run s d id :
  holds s d -> usable d = true ->
  commits (deleteProject id) s
    (with_collection "projects"
       (filter (fun x => negb (has_id id x)) (records "projects" d)) d).
Proof.
  intros Hl U.
  destruct (usable_seq _ U) as (S1 & S2 & S3 & S4).
  match goal with |- commits _ _ ?d' => assert (U' : usable d' = true) end.
  { apply usable_with_collection; [assumption| |]; apply filter_forallb;
      auto using records_storable, usable_storable, records_objects. }
  unfold commits, deleteProject.
  split; [|exact U']. eexists. split; [|split; [|shelve]].
  - run_load Hl.
    step. rewrite (usable_collection _ _ S3).
    step. unfold lift at 1.
    rewrite reject_id_objects by (now apply records_objects).
    step. unfold lift at 1. rewrite put_object by (now apply usable_object).
    fold (with_collection "projects"
            (filter (fun x => negb (has_id id x)) (records "projects" d)) d).
    run_save. done_commit.
  - stored.
  Unshelve. vars.
Qed.

(** ** Contact form *)

Lemma usable_message d uid name email subject message now :
  usable d = true ->
  usable (with_collection "messages"
            (records "messages" d ++
             [new_message uid (payload_of name email subject message now)]) d)
  = true.
Proof.
  intros U. destruct (usable_seq _ U) as (S1 & S2 & S3 & S4).
  apply usable_with_collection; [assumption| |]; apply forallb_snoc;
    auto using records_storable, usable_storable, records_objects.
Qed.

Lemma saveLocalMessage_run s d uid name email subject message now :
  holds s d -> usable d = true ->
  saveLocalMessage (payload_of name email subject message now) uid s
  = (Val tt,
     saved (with_collection "messages"
              (records "messages" d ++
               [new_message uid (payload_of name email subject message now)])
              d) (loaded s)).
Proof.
  intros Hl U. destruct (usable_seq _ U) as (S1 & S2 & S3 & S4).
  assert (U' := usable_message d uid name email subject message now U).
  unfold saveLocalMessage.
  run_load Hl.
  step. rewrite (usable_collection _ _ S4).
  now rewrite saveDB_usable.
Qed.

Lemma holds_logged s d l : holds s d -> holds (logged s l) d.
Proof. apply holds_same_storage. reflexivity. Qed.

Ltac held := first [assumption | repeat apply holds_logged; assumption].

Lemma submitContact_kept s d nameV emailV subjectV messageV endpointV net uid now :
  holds s d -> usable d = true ->
  nonempty (trim nameV) = true -> nonempty (trim emailV) = true ->
  nonempty (trim messageV) = true ->
  kept_locally endpointV net = true ->
  commits (submitContact nameV emailV subjectV messageV endpointV net uid now) s
    (with_collection "messages"
       (records "messages" d ++
        [new_message uid
           (payload_of (trim nameV) (trim emailV) (trim subjectV)
              (trim messageV) now)]) d).
Proof.
  intros Hl U Hn He Hm K.
  assert (U' := usable_message d uid (trim nameV) (trim emailV) (trim subjectV)
                  (trim messageV) now U).
  unfold commits, submitContact. rewrite Hn, He, Hm. cbn [negb orb].
  unfold kept_locally in K. split; [|exact U'].
  destruct (nonempty (trim endpointV)).
  - destruct net as [status|].
    + apply negb_true_iff in K.
      eexists. split; [|split; [|shelve]].
      * step. unfold try_catch. step. unfold fetch at 1. step.
        unfold emit at 1. unfold ret at 1. rewrite K.
        run_toast.
        rewrite (saveLocalMessage_run _ d) by held.
        done_commit.
      * stored.
    + eexists. split; [|split; [|shelve]].
      * step. unfold try_catch. step. unfold fetch at 1. step.
        unfold emit at 1. unfold throw at 1.
        step. unfold emit at 1.
        step. rewrite (saveLocalMessage_run _ d) by held.
        done_commit.
      * stored.
  - eexists. split; [|split; [|shelve]].
    + step. step. rewrite (saveLocalMessage_run _ d) by held.
      done_commit.
    + stored.
  Unshelve. all: vars.
Qed.

Lemma submitContact_sent s nameV emailV subjectV messageV endpointV status uid now :
  nonempty (trim nameV) = true -> nonempty (trim emailV) = true ->
  nonempty (trim messageV) = true ->
  nonempty (trim endpointV) = true -> ok status = true ->
  submitContact nameV emailV subjectV messageV endpointV (Response status)
    uid now s
  = (Val tt,
     logged s [Post (trim endpointV)
                 (stringify
                    (VObj (payload_of (trim nameV) (trim emailV)
                             (trim subjectV) (trim messageV) now)));
               Toast "Message sent via Formspree"; ResetForm;
               Render "messages"]).
Proof.
  intros Hn He Hm Hp Hok.
  unfold submitContact. rewrite Hn, He, Hm, Hp. cbn [negb orb].
  step. unfold try_catch. step. unfold fetch at 1. step.
  unfold emit at 1. unfold ret at 1. rewrite Hok.
  unfold showToast, emit, bind, logged.
  cbn [storage editingThoughtId editingWorkId editingProjectId adminVisible
       effects].
  now rewrite <- !app_assoc.
Qed.

(** ** Admin *)

Lemma usable_set_admin v d :
  usable d = true -> storable v = true ->
  usable (set (str "admin") v d) = true.
Proof.
  intros U S. assert (St := usable_storable _ U).
  unfold usable in *. repeat (apply andb_prop in U as [U ?]).
  rewrite !field_set_other by reflexivity.
  rewrite storable_set by assumption.
  repeat (apply andb_true_intro; split); auto.
Qed.

Section Digest.
Variable hashText : jstring -> jstring.

Lemma setupAdmin_run s d emailV pass :
  holds s d -> usable d = true ->
  nonempty (trim emailV) = true -> nonempty pass = true ->
  commits (setupAdmin hashText emailV pass) s
    (set (str "admin") (new_admin (trim emailV) (hashText pass)) d).
Proof.
  intros Hl U He Hp.
  match goal with |- commits _ _ ?d' => assert (U' : usable d' = true) end.
  { now apply usable_set_admin. }
  unfold commits, setupAdmin. rewrite He, Hp. cbn [negb orb].
  split; [|exact U']. eexists. split; [|split; [|shelve]].
  - run_load Hl.
    step. unfold lift at 1. rewrite put_object by (now apply usable_object).
    run_save. done_commit.
  - stored.
  Unshelve. vars.
Qed.

Lemma setupAdmin_blank s emailV pass :
  nonempty (trim emailV) = false \/ nonempty pass = false ->
  setupAdmin hashText emailV pass s
  = (Val tt, logged s [Alert "Email + password required"]).
Proof.
  intros H. unfold setupAdmin.
  replace (negb (nonempty (trim emailV)) || negb (nonempty pass)) with true;
    [reflexivity|].
  destruct H as [-> | ->]; [reflexivity|].
  now rewrite orb_true_r.
Qed.

Lemma loginAdmin_blank s emailV pass :
  nonempty (trim emailV) = false \/ nonempty pass = false ->
  loginAdmin hashText emailV pass s
  = (Val tt, logged s [Alert "Email + password required"]).
Proof.
  intros H. unfold loginAdmin.
  replace (negb (nonempty (trim emailV)) || negb (nonempty pass)) with true;
    [reflexivity|].
  destruct H as [-> | ->]; [reflexivity|].
  now rewrite orb_true_r.
Qed.

(** With a stored credential, the outcome of a login is decided by the two
    equalities of the script. *)
Lemma loginAdmin_run s d c e h emailV pass :
  holds s d -> is_object d = true ->
  field "admin" d = Some c -> is_object c = true ->
  field "email" c = Some (VStr e) -> field "passHash" c = Some (VStr h) ->
  nonempty (trim emailV) = true -> nonempty pass = true ->
  loginAdmin hashText emailV pass s =
  if streq e (trim emailV) && streq h (hashText pass) then
    (Val tt,
     logged
       (mkState (storage (loaded s)) (editingThoughtId (loaded s))
          (editingWorkId (loaded s)) (editingProjectId (loaded s)) true
          (effects (loaded s) ++ [Hide "#loginBox"]))
       [Show "#adminPanel"; Show "#logoutBtn"; Toast "Logged in"])
  else (Val tt, logged (loaded s) [Alert "Invalid credentials"]).
Proof.
  intros Hl Od Ha Oc Ee Eh He Hp.
  unfold loginAdmin. rewrite He, Hp. cbn [negb orb].
  run_load Hl.
  step. unfold lift at 1. rewrite (get_field "admin" d Od), Ha.
  replace (truthy (Some c)) with true by (destruct c; try discriminate; reflexivity).
  cbn [negb].
  step. unfold lift at 1. rewrite (get_field "email" c Oc), Ee.
  change (same_str (Some (VStr e)) (trim emailV)) with (streq e (trim emailV)).
  destruct (streq e (trim emailV)); [|reflexivity].
  step. unfold lift at 1. rewrite (get_field "passHash" c Oc), Eh.
  change (same_str (Some (VStr h)) (hashText pass)) with (streq h (hashText pass)).
  destruct (streq h (hashText pass)); [|reflexivity].
  unfold showToast, bind, emit, setAdminVisible, logged.
  cbn [storage editingThoughtId editingWorkId editingProjectId adminVisible
       effects andb].
  now rewrite <- !app_assoc.
Qed.

End Digest.

End HubFacts.

(* ================================================================== *)
(** * Documents before and after an operation *)
(* ================================================================== *)

Module DocFacts.
Import Js Json Hub Shape JsFacts JsonFacts HubFacts.

Local Arguments str : simpl never.
Local Arguments get : simpl never.
Local Arguments same_str : simpl never.

(** ** Fields of created and edited records *)

Lemma field_set_image_other k img x :
  streq (str k) (str "image") = false -> field k (set_image img x) = field k x.
Proof.
  intros N. destruct img as [u|]; simpl; [|reflexivity].
  destruct (nonempty u); [now apply field_set_other|reflexivity].
Qed.

Ltac fields :=
  repeat first [ rewrite field_set_other by reflexivity
               | rewrite field_set_image_other by reflexivity ].

Lemma edit_thought_keeps k title category content img now x :
  streq (str k) (str "updated") = false ->
  streq (str k) (str "image") = false ->
  streq (str k) (str "content") = false ->
  streq (str k) (str "category") = false ->
  streq (str k) (str "title") = false ->
  field k (edit_thought title category content img now x) = field k x.
Proof.
  intros. unfold edit_thought.
  now rewrite field_set_other, field_set_image_other, !field_set_other.
Qed.

Lemma edit_work_keeps k title tags content img now x :
  streq (str k) (str "updated") = false ->
  streq (str k) (str "image") = false ->
  streq (str k) (str "content") = false ->
  streq (str k) (str "tags") = false ->
  streq (str k) (str "title") = false ->
  field k (edit_work title tags content img now x) = field k x.
Proof.
  intros. unfold edit_work.
  now rewrite field_set_other, field_set_image_other, !field_set_other.
Qed.

Lemma edit_project_keeps k title link desc img now x :
  streq (str k) (str "updated") = false ->
  streq (str k) (str "image") = false ->
  streq (str k) (str "desc") = false ->
  streq (str k) (str "link") = false ->
  streq (str k) (str "title") = false ->
  field k (edit_project title link desc img now x) = field k x.
Proof.
  intros. unfold edit_project.
  now rewrite field_set_other, field_set_image_other, !field_set_other.
Qed.

Lemma edit_thought_updated title category content img now x :
  is_object x = true ->
  field "updated" (edit_thought title category content img now x)
  = Some (VStr now).
Proof.
  intros O. unfold edit_thought. apply field_set_same.
  now rewrite set_image_object, !is_object_set.
Qed.

Lemma edit_work_updated title tags content img now x :
  is_object x = true ->
  field "updated" (edit_work title tags content img now x) = Some (VStr now).
Proof.
  intros O. unfold edit_work. apply field_set_same.
  now rewrite set_image_object, !is_object_set.
Qed.

Lemma edit_project_updated title link desc img now x :
  is_object x = true ->
  field "updated" (edit_project title link desc img now x) = Some (VStr now).
Proof.
  intros O. unfold edit_project. apply field_set_same.
  now rewrite set_image_object, !is_object_set.
Qed.

Lemma edit_work_tags title tags content img now x :
  is_object x = true ->
  field "tags" (edit_work title tags content img now x)
  = Some (VArr (map VStr tags)).
Proof.
  intros O. unfold edit_work. fields.
  apply field_set_same. now rewrite is_object_set.
Qed.

Lemma edit_thought_image title category content now x :
  field "image" (edit_thought title category content None now x)
  = field "image" x.
Proof. unfold edit_thought, set_image. now rewrite !field_set_other. Qed.

Lemma edit_work_image title tags content now x :
  field "image" (edit_work title tags content None now x) = field "image" x.
Proof. unfold edit_work, set_image. now rewrite !field_set_other. Qed.

Lemma edit_project_image title link desc now x :
  field "image" (edit_project title link desc None now x) = field "image" x.
Proof. unfold edit_project, set_image. now rewrite !field_set_other. Qed.

(** ** Ids *)

Lemma has_id_record id x : has_id id x = true -> id_of_record x = id.
Proof.
  unfold has_id, id_of_record, same_str.
  destruct (field "id" x) as [[]|]; try discriminate.
  apply streq_eq.
Qed.

Lemma mem_In k l : mem k l = true <-> In k l.
Proof.
  induction l as [|x l IH]; simpl; [split; [discriminate|tauto]|].
  rewrite orb_true_iff, IH, streq_eq. split; intros [H|H]; auto.
Qed.

Lemma distinct_app l1 l2 :
  distinct (l1 ++ l2) = true ->
  distinct l1 = true /\ distinct l2 = true
  /\ forall k, In k l1 -> In k l2 -> False.
Proof.
  induction l1 as [|x l1 IH]; simpl; [tauto|].
  intros H. apply andb_prop in H as [H1 H2].
  destruct (IH H2) as (A & B & C).
  apply negb_true_iff in H1. rewrite mem_app in H1.
  apply orb_false_elim in H1 as [M1 M2].
  rewrite M1, A. repeat split; auto.
  intros k [->|I1] I2.
  - apply mem_In in I2. congruence.
  - eauto.
Qed.

Lemma distinct_snoc l k :
  distinct l = true -> mem k l = false -> distinct (l ++ [k]) = true.
Proof.
  induction l as [|x l IH]; simpl; [reflexivity|].
  intros H M. apply andb_prop in H as [H1 H2].
  apply orb_false_elim in M as [M1 M2].
  rewrite mem_app, IH by assumption. simpl.
  apply negb_true_iff in H1. rewrite H1, streq_sym, M1. reflexivity.
Qed.

Lemma filter_all (A : Type) (p : A -> bool) l :
  forallb p l = true -> filter p l = l.
Proof.
  induction l as [|x l IH]; simpl; [reflexivity|].
  intros H. apply andb_prop in H as [Hx Hl]. now rewrite Hx, IH.
Qed.

(** With distinct ids, dropping the records whose id is [id] drops the one
    record that has it. *)
Lemma filter_only id l1 t l2 :
  distinct_ids (l1 ++ t :: l2) = true -> has_id id t = true ->
  filter (fun x => negb (has_id id x)) (l1 ++ t :: l2) = l1 ++ l2.
Proof.
  intros D H. unfold distinct_ids, ids in D. rewrite map_app in D. simpl in D.
  apply distinct_app in D as (D1 & D2 & D3). simpl in D2.
  apply andb_prop in D2 as [D2 D4]. apply negb_true_iff in D2.
  assert (Ht := has_id_record _ _ H).
  assert (K : forall l, ~ In id (map id_of_record l) ->
              forallb (fun x => negb (has_id id x)) l = true).
  { intros l N. apply forallb_forall. intros x Hx.
    destruct (has_id id x) eqn:E; [|reflexivity].
    exfalso. apply N. apply has_id_record in E. rewrite <- E. now apply in_map. }
  rewrite filter_app. simpl. rewrite H. simpl.
  rewrite !filter_all; [reflexivity| |].
  - apply K. intros I. apply mem_In in I. rewrite <- Ht in I. congruence.
  - apply K. intros I. apply (D3 id); [assumption|]. left. assumption.
Qed.

Lemma commits_holds m s d :
  commits m s d -> outcome m s = Val tt /\ holds (after m s) d.
Proof.
  intros [(s' & E & St & _) U]. unfold outcome, after. rewrite E. cbn [fst snd].
  split; [reflexivity|]. apply holds_stored; auto using usable_storable.
Qed.

(** ** Appending *)

Lemma ids_snoc l t uid :
  field "id" t = Some (VStr uid) -> ids (l ++ [t]) = ids l ++ [uid].
Proof.
  intros H. unfold ids. rewrite map_app. simpl.
  unfold id_of_record. now rewrite H.
Qed.

Lemma appended_push k d t uid now :
  usable d = true ->
  field "id" t = Some (VStr uid) ->
  field "created" t = Some (VStr now) ->
  field "updated" t = None ->
  appended k uid now d (with_collection k (records k d ++ [t]) d)
  /\ unique_when_fresh k uid d (with_collection k (records k d ++ [t]) d).
Proof.
  intros U I C N. assert (O := usable_object _ U). split.
  - exists t. rewrite records_with_collection by assumption. auto.
  - intros D F. rewrite records_with_collection by assumption.
    unfold distinct_ids in *. rewrite (ids_snoc _ _ _ I).
    now apply distinct_snoc.
Qed.

(** ** Editing *)

Lemma edited_update k d id now f t :
  usable d = true ->
  forallb is_object (records k d) = true ->
  find (has_id id) (records k d) = Some t ->
  (forall x, field "id" (f x) = field "id" x) ->
  (forall x, field "created" (f x) = field "created" x) ->
  (forall x, is_object x = true -> field "updated" (f x) = Some (VStr now)) ->
  edited k id now d (with_collection k (update_first id f (records k d)) d).
Proof.
  intros U Ob F Hi Hc Hu. assert (O := usable_object _ U).
  unfold edited. rewrite records_with_collection by assumption.
  rewrite !update_first_map by assumption.
  split; [reflexivity|]. split; [reflexivity|].
  destruct (update_first_found id f _ t Ob F) as (l1 & l2 & E & A & B).
  exists l1, t, (f t), l2. rewrite B. split; [assumption|].
  split; [reflexivity|]. split.
  - apply find_some in F. tauto.
  - apply Hu. eapply find_object; eassumption.
Qed.

(** ** Removing *)

Lemma removed_filter k d id :
  usable d = true ->
  distinct_ids (records k d) = true ->
  removed k id d
    (with_collection k (filter (fun x => negb (has_id id x)) (records k d)) d).
Proof.
  intros U D. assert (O := usable_object _ U).
  unfold removed. rewrite records_with_collection by assumption. split.
  - intros l1 t l2 E H. rewrite E in *. now apply filter_only.
  - apply filter_all.
Qed.

(** ** Trimming *)

Lemma trim_start_fix c s : is_space c = false -> trim_start (c :: s) = c :: s.
Proof. intros H. simpl. now rewrite H. Qed.

Lemma trim_start_head s c r : trim_start s = c :: r -> is_space c = false.
Proof.
  induction s as [|x s IH]; simpl; [discriminate|].
  destruct (is_space x) eqn:E; [exact IH|].
  intros H. injection H as -> _. exact E.
Qed.

Lemma trim_start_idem s : trim_start (trim_start s) = trim_start s.
Proof.
  destruct (trim_start s) as [|c r] eqn:E; [reflexivity|].
  apply trim_start_fix. eapply trim_start_head; eassumption.
Qed.

Lemma trim_start_suffix s : exists pre, s = pre ++ trim_start s.
Proof.
  induction s as [|x s [pre IH]]; simpl; [now exists []|].
  destruct (is_space x); [|now exists []].
  exists (x :: pre). simpl. now rewrite <- IH.
Qed.

Lemma trim_idem s : trim (trim s) = trim s.
Proof.
  unfold trim, trim_end.
  set (u := trim_start s).
  set (v := trim_start (rev u)).
  assert (Hv : trim_start v = v) by apply trim_start_idem.
  destruct (trim_start_suffix (rev u)) as [pre Hpre]. fold v in Hpre.
  assert (Hu : u = rev v ++ rev pre).
  { rewrite <- (rev_involutive u), Hpre, rev_app_distr. reflexivity. }
  assert (Hr : trim_start (rev v) = rev v).
  { destruct (rev v) as [|c r] eqn:E; [reflexivity|].
    apply trim_start_fix. rewrite Hu in *. simpl in *.
    unfold u in Hu. eapply trim_start_head. exact Hu. }
  rewrite Hr, rev_involutive, Hv. reflexivity.
Qed.

Lemma tags_of_trimmed tagsV :
  Forall (fun t => nonempty t = true /\ trim t = t) (tags_of tagsV).
Proof.
  unfold tags_of. apply Forall_forall. intros t H.
  apply filter_In in H as [H N]. split; [exact N|].
  apply in_map_iff in H as (x & <- & _). apply trim_idem.
Qed.

(** ** Effects only grow *)

Lemma in_logged e x l : In e (effects x) -> In e (effects (logged x l)).
Proof. intros H. cbn. apply in_or_app. now left. Qed.

Lemma in_logged_new e x l : In e l -> In e (effects (logged x l)).
Proof. intros H. cbn. apply in_or_app. now right. Qed.

Lemma in_loaded e x : In e (effects x) -> In e (effects (loaded x)).
Proof.
  intros H. unfold loaded, after. rewrite loadDB_cases.
  destruct (storage x) as [r|]; [|exact H].
  destruct (nonempty r); [|exact H].
  destruct (parse r); [exact H|]. now apply in_logged.
Qed.

Lemma saved_effects d s :
  usable d = true ->
  effects (saved d s) =
  effects s ++ [SetText "#statThoughts" (Count (List.length (records "thoughts" d)));
                SetText "#statProjects" (Count (List.length (records "projects" d)));
                SetText "#statContacts" (Count (List.length (records "messages" d)))].
Proof.
  intros U. assert (St := usable_storable _ U).
  unfold usable in U. repeat (apply andb_prop in U as [U ?]).
  unfold saved, after, saveDB, updateStats, bind, setItem.
  erewrite loadDB_stored; [|reflexivity|assumption].
  erewrite !stat_run by eassumption.
  cbn. now rewrite <- !app_assoc.
Qed.

Lemma in_saved e d x :
  usable d = true -> In e (effects x) -> In e (effects (saved d x)).
Proof. intros U H. rewrite saved_effects by assumption. apply in_or_app. now left. Qed.

Ltac grown :=
  repeat first [ apply in_logged_new; simpl; tauto
               | apply in_logged | apply in_loaded
               | apply in_saved; [assumption|] ].

Lemma submitContact_posted s d nameV emailV subjectV messageV endpointV net uid now :
  holds s d -> usable d = true ->
  nonempty (trim nameV) = true -> nonempty (trim emailV) = true ->
  nonempty (trim messageV) = true ->
  nonempty (trim endpointV) = true ->
  In (Post (trim endpointV)
        (stringify (VObj (payload_of (trim nameV) (trim emailV) (trim subjectV)
                            (trim messageV) now))))
     (effects (after (submitContact nameV emailV subjectV messageV endpointV
                        net uid now) s)).
Proof.
  intros Hl U Hn He Hm Hp.
  assert (U' := usable_message d uid (trim nameV) (trim emailV) (trim subjectV)
                  (trim messageV) now U).
  destruct net as [status|]; [destruct (ok status) eqn:K|].
  - unfold after. rewrite submitContact_sent by assumption.
    cbn. apply in_or_app. right. now left.
  - unfold after, submitContact. rewrite Hn, He, Hm, Hp. cbn [negb orb].
    step. unfold try_catch. step. unfold fetch at 1. step.
    unfold emit at 1. unfold ret at 1. rewrite K.
    run_toast. rewrite (saveLocalMessage_run _ d) by held.
    unfold bind, emit. cbn [snd]. grown.
  - unfold after, submitContact. rewrite Hn, He, Hm, Hp. cbn [negb orb].
    step. unfold try_catch. step. unfold fetch at 1. step.
    unfold emit at 1. unfold throw at 1.
    step. unfold emit at 1.
    step. rewrite (saveLocalMessage_run _ d) by held.
    unfold showToast, bind, emit. cbn [snd]. grown.
Qed.

(** ** Small facts *)

Lemma existsb_find (A : Type) (p : A -> bool) l :
  existsb p l = true -> exists t, find p l = Some t.
Proof.
  induction l as [|x l IH]; simpl; [discriminate|].
  destruct (p x); [eauto|]. exact IH.
Qed.

Lemma last_logged s e : last (effects (logged s [e])) InitApp = e.
Proof. cbn. apply last_last. Qed.

Lemma is_set_some id : is_set id = true -> exists i, id = Some i /\ nonempty i = true.
Proof. destruct id as [i|]; simpl; [eauto|discriminate]. Qed.

Lemma images_update k d id f :
  usable d = true ->
  (forall x, field "image" (f x) = field "image" x) ->
  images k (with_collection k (update_first id f (records k d)) d) = images k d.
Proof.
  intros U H. unfold images.
  rewrite records_with_collection by (now apply usable_object).
  now apply update_first_map.
Qed.

End DocFacts.

(* ================================================================== *)
(** * The tags field *)
(* ================================================================== *)

Module FormFacts.
Import Js Json Hub Shape JsFacts JsonFacts HubFacts DocFacts Forms.

Local Arguments str : simpl never.
Local Arguments get : simpl never.
Local Arguments same_str : simpl never.
Local Arguments N.eqb : simpl never.

Lemma array_join_strings number_text l :
  array_join number_text (map VStr l) = Val (join l).
Proof.
  unfold array_join. induction l as [|x r IH]; [reflexivity|].
  destruct r as [|y r]; [reflexivity|].
  cbn [map to_text] in *. rewrite IH. reflexivity.
Qed.

Lemma split_free s : comma_free s = true -> split 44 s = [s].
Proof.
  induction s as [|c r IH]; [reflexivity|]. unfold comma_free. cbn [forallb split].
  intros H. apply andb_prop in H as [H1 H2]. apply negb_true_iff in H1.
  rewrite H1, (IH H2). reflexivity.
Qed.

Lemma split_app x rest :
  comma_free x = true -> split 44 (x ++ 44%N :: rest) = x :: split 44 rest.
Proof.
  induction x as [|c r IH]; [reflexivity|]. unfold comma_free. cbn [forallb].
  intros H. apply andb_prop in H as [H1 H2]. apply negb_true_iff in H1.
  cbn [app split]. rewrite H1, (IH H2). reflexivity.
Qed.

Lemma split_join l :
  l <> [] -> forallb comma_free l = true -> split 44 (join l) = l.
Proof.
  induction l as [|x r IH]; [congruence|]. intros _ H. cbn [forallb] in H.
  apply andb_prop in H as [Hx Hr].
  destruct r as [|y r]; [now apply split_free|].
  rewrite join_cons2, split_app by exact Hx. f_equal. apply IH; [discriminate|exact Hr].
Qed.

Lemma split_pieces s : forallb comma_free (split 44 s) = true.
Proof.
  induction s as [|c r IH]; [reflexivity|]. cbn [split].
  destruct (N.eqb c 44) eqn:E; [exact IH|].
  destruct (split 44 r) as [|h t]; cbn [forallb] in *.
  - unfold comma_free. cbn [forallb]. now rewrite E.
  - apply andb_prop in IH as [H1 H2]. rewrite H2, andb_true_r.
    unfold comma_free in *. cbn [forallb]. now rewrite E, H1.
Qed.

Lemma trim_start_keeps (p : N -> bool) s :
  forallb p s = true -> forallb p (trim_start s) = true.
Proof.
  induction s as [|c r IH]; [reflexivity|]. cbn [trim_start forallb].
  intros H. destruct (is_space c); [|exact H].
  apply andb_prop in H as [_ H]. auto.
Qed.

Lemma forallb_rev (A : Type) (p : A -> bool) l :
  forallb p l = true -> forallb p (rev l) = true.
Proof.
  rewrite !forallb_forall. intros H x Hx. apply H. now apply in_rev.
Qed.

Lemma trim_keeps (p : N -> bool) s :
  forallb p s = true -> forallb p (trim s) = true.
Proof.
  intros H. unfold trim, trim_end.
  now apply forallb_rev, trim_start_keeps, forallb_rev, trim_start_keeps.
Qed.

Lemma tags_of_comma_free v : forallb comma_free (tags_of v) = true.
Proof.
  unfold tags_of. apply forallb_forall. intros t H.
  apply filter_In in H as [H _]. apply in_map_iff in H as (x & <- & Hx).
  apply trim_keeps. pose proof (split_pieces v) as P.
  rewrite forallb_forall in P. now apply P.
Qed.

Lemma tags_of_fixed l :
  Forall (fun t => nonempty t = true /\ trim t = t) l ->
  filter nonempty (map trim l) = l.
Proof.
  induction 1 as [|t l [N T] _ IH]; [reflexivity|].
  cbn [map filter]. now rewrite T, N, IH.
Qed.

Lemma tags_of_join v : tags_of (join (tags_of v)) = tags_of v.
Proof.
  destruct (tags_of v) as [|t l] eqn:E; [reflexivity|].
  rewrite <- E. unfold tags_of at 1.
  rewrite split_join.
  - apply tags_of_fixed, tags_of_trimmed.
  - rewrite E. discriminate.
  - apply tags_of_comma_free.
Qed.

Lemma split_nonempty s : split 44 s <> [].
Proof.
  destruct s as [|c r]; [discriminate|]. cbn [split].
  destruct (N.eqb c 44); [discriminate|]. destruct (split 44 r); discriminate.
Qed.

Lemma join_split s : join (split 44 s) = s.
Proof.
  induction s as [|c r IH]; [reflexivity|]. cbn [split].
  pose proof (split_nonempty r) as Hne.
  destruct (N.eqb c 44) eqn:E.
  - apply N.eqb_eq in E. subst c.
    destruct (split 44 r) as [|h t]; [congruence|].
    rewrite join_cons2, IH. reflexivity.
  - destruct (split 44 r) as [|h t]; [congruence|].
    destruct t as [|h' t].
    + cbn [join] in *. now rewrite IH.
    + rewrite join_cons2 in *. cbn [app]. now rewrite IH.
Qed.

(** The tags [saveWork] reads from pieces written between commas. *)
Lemma tags_of_pieces pieces :
  pieces <> [] -> forallb comma_free pieces = true ->
  tags_of (join pieces) = filter nonempty (map trim pieces).
Proof. intros Hne F. unfold tags_of. now rewrite split_join. Qed.

(** [String(v)] returns exactly on the values that can be printed. *)
Lemma to_text_printable number_text v :
  if printable v then exists t, to_text number_text v = Val t
  else to_text number_text v = Throw TypeError.
Proof.
  induction v as [|b|lit|s|l IH|ps IH] using value_induction;
    try (cbn; eauto; fail).
  - destruct b; cbn; eauto.
  - cbn [printable to_text].
    induction IH as [|x r Hx _ IHr]; [cbn; eauto|].
    cbn [forallb].
    assert (Hx' : if printable x
                  then exists t,
                         match x with
                         | VNull => Val []
                         | _ => to_text number_text x
                         end = Val t
                  else match x with
                       | VNull => Val []
                       | _ => to_text number_text x
                       end = Throw TypeError).
    { destruct x; try exact Hx. cbn. eauto. }
    destruct (printable x).
    + destruct Hx' as (t & ->). cbn [andb].
      destruct r as [|y r]; [cbn; eauto|].
      destruct (forallb printable (y :: r)).
      * destruct IHr as (ts & ->). eauto.
      * rewrite IHr. reflexivity.
    + cbn [andb]. rewrite Hx'. reflexivity.
  - cbn [printable to_text].
    destruct (lookup (str "toString") ps); eauto.
Qed.

(** The editor raises on the tags exactly when their text cannot be
    built. *)
Lemma tags_text_joins number_text w t :
  get (Some w) (str "tags") = Val t ->
  (joins t = Val tt <-> exists text, tags_text number_text w = Val text).
Proof.
  intros G. unfold tags_text, joins. rewrite G.
  destruct (truthy t); [|split; eauto].
  destruct t as [[| | | |l|]|];
    try (split; [discriminate|intros (text & E); discriminate]).
  unfold array_join.
  pose proof (to_text_printable number_text (VArr l)) as P.
  cbn [printable] in P. destruct (forallb printable l).
  - split; [intros _; exact P|reflexivity].
  - rewrite P. split; [discriminate|intros (text & E); discriminate].
Qed.

End FormFacts.


(* ================================================================== *)
(** * The claims of the specification *)
(* ================================================================== *)

Import Js Json Hub Shape JsFacts JsonFacts HubFacts DocFacts.
Import Forms FormFacts.

(** C1.  Round trip of the store.  For every valid document [d] and every
    state, [saveDB d] runs to its end and a [loadDB] after it returns [d]
    itself. *)
Theorem C1_save_then_load (d : value) (s : state) :
  valid_document d = true ->
  outcome (saveDB d) s = Val tt /\ document (after (saveDB d) s) = Val d.
Proof.
  intros V. assert (U := valid_usable d V).
  destruct (saveDB_run d s U) as (E & St & _).
  unfold outcome. rewrite E. split; [reflexivity|].
  apply holds_stored; auto using usable_storable.
Qed.

(** C1 on a document with one thought. *)
Lemma C1_save_then_load_witness :
  valid_document Sample.doc1 = true
  /\ document (after (saveDB Sample.doc1) initial) = Val Sample.doc1.
Proof.
  split; [reflexivity|].
  apply (C1_save_then_load Sample.doc1 initial). reflexivity.
Defined.

(** C2.  [loadDB] never raises: every state of the storage slot gives a
    document.  When the slot is absent or its text is not JSON, the document
    is the default one: its [thoughts], [work], [projects] and [messages]
    are empty arrays, its [admin] is [null], it has no other property, and
    it is a valid document. *)
Theorem C2_load_never_raises (s : state) :
  exists d,
    document s = Val d
    /\ (unreadable s = true ->
        d = DEFAULT_DB
        /\ d = VObj [(str "thoughts", VArr []); (str "work", VArr []);
                     (str "projects", VArr []); (str "messages", VArr []);
                     (str "admin", VNull)]
        /\ field "thoughts" d = Some (VArr [])
        /\ field "work" d = Some (VArr [])
        /\ field "projects" d = Some (VArr [])
        /\ field "messages" d = Some (VArr [])
        /\ field "admin" d = Some VNull
        /\ truthy (field "admin" d) = false
        /\ valid_document d = true).
Proof.
  assert (D : forall d, d = DEFAULT_DB ->
                d = DEFAULT_DB
                /\ d = VObj [(str "thoughts", VArr []); (str "work", VArr []);
                             (str "projects", VArr []);
                             (str "messages", VArr []); (str "admin", VNull)]
                /\ field "thoughts" d = Some (VArr [])
                /\ field "work" d = Some (VArr [])
                /\ field "projects" d = Some (VArr [])
                /\ field "messages" d = Some (VArr [])
                /\ field "admin" d = Some VNull
                /\ truthy (field "admin" d) = false
                /\ valid_document d = true).
  { intros d ->. repeat split. }
  unfold document, outcome, unreadable. rewrite loadDB_cases.
  destruct (storage s) as [raw|].
  - destruct (nonempty raw).
    + destruct (parse raw); eexists; (split; [reflexivity|]).
      * discriminate.
      * intros _. now apply D.
    + eexists. split; [reflexivity|]. intros _. now apply D.
  - eexists. split; [reflexivity|]. intros _. now apply D.
Qed.

(** C2 on a slot that holds the text [{oops]. *)
Lemma C2_load_never_raises_witness :
  unreadable Sample.corrupt = true
  /\ document Sample.corrupt = Val DEFAULT_DB
  /\ exists d, document Sample.corrupt = Val d
               /\ field "thoughts" d = Some (VArr [])
               /\ field "admin" d = Some VNull.
Proof.
  split; [reflexivity|].
  destruct (C2_load_never_raises Sample.corrupt) as (d & E & D).
  destruct (D eq_refl) as (D1 & _ & T & _ & _ & _ & A & _).
  split; [rewrite E; f_equal; exact D1|].
  exists d. split; [exact E|]. split; [exact T|exact A].
Defined.

(** C3 as stated fails: the id comes from the random source and nothing
    compares it with the ids already stored.  From a valid document with
    one thought, a second [saveThought] that draws the id of the first
    stores two thoughts with that id. *)
Lemma C3_same_id_twice :
  holds Sample.one_thought Sample.doc1
  /\ valid_document Sample.doc1 = true
  /\ distinct_ids (records "thoughts" Sample.doc1) = true
  /\ holds (after (saveThought (str "B") [] [] NoFile Sample.uid0 Sample.now1)
              Sample.one_thought) Sample.doc2
  /\ ids (records "thoughts" Sample.doc2) = [Sample.uid0; Sample.uid0]
  /\ distinct_ids (records "thoughts" Sample.doc2) = false.
Proof. repeat split; vm_compute; reflexivity. Qed.

(** C3, amended.  Each of the four create operations, when it reaches the
    store, appends one record that has the id it drew, the creation time
    and no [updated] field; that id is unique in the collection when the
    ids there were distinct and the draw is not one of them.  Each edit of
    an existing record leaves the [id] and [created] of every record of the
    collection as they were and sets [updated] on the record it edits. *)
Theorem C3_create_then_edit (s : state) (d : value) :
  holds s d -> valid_document d = true ->
  (forall titleV categoryV contentV file uid now,
     is_set (editingThoughtId s) = false ->
     nonempty (trim titleV) = true -> file <> FileFails ->
     creates (saveThought titleV categoryV contentV file uid now)
       "thoughts" uid now s d)
  /\ (forall titleV tagsV contentV file uid now,
        is_set (editingWorkId s) = false ->
        nonempty (trim titleV) = true -> file <> FileFails ->
        creates (saveWork titleV tagsV contentV file uid now)
          "work" uid now s d)
  /\ (forall titleV linkV descV file uid now,
        is_set (editingProjectId s) = false ->
        nonempty (trim titleV) = true -> file <> FileFails ->
        creates (saveProject titleV linkV descV file uid now)
          "projects" uid now s d)
  /\ (forall name email subject message uid now,
        creates (saveLocalMessage
                   (payload_of name email subject message now) uid)
          "messages" uid now s d)
  /\ (forall id titleV categoryV contentV file uid now,
        editingThoughtId s = Some id -> nonempty id = true ->
        existsb (has_id id) (records "thoughts" d) = true ->
        nonempty (trim titleV) = true -> file <> FileFails ->
        edits (saveThought titleV categoryV contentV file uid now)
          "thoughts" id now s d)
  /\ (forall id titleV tagsV contentV file uid now,
        editingWorkId s = Some id -> nonempty id = true ->
        existsb (has_id id) (records "work" d) = true ->
        nonempty (trim titleV) = true -> file <> FileFails ->
        edits (saveWork titleV tagsV contentV file uid now)
          "work" id now s d)
  /\ (forall id titleV linkV descV file uid now,
        editingProjectId s = Some id -> nonempty id = true ->
        existsb (has_id id) (records "projects" d) = true ->
        nonempty (trim titleV) = true -> file <> FileFails ->
        edits (saveProject titleV linkV descV file uid now)
          "projects" id now s d).
Proof.
  intros Hl V. assert (U := valid_usable d V).
  destruct (usable_seq d U) as (S1 & S2 & S3 & S4).
  split; [|split; [|split; [|split; [|split; [|split]]]]].
  - intros titleV categoryV contentV file uid now Hed Ht Hf.
    destruct (commits_holds _ _ _
                (saveThought_create s d titleV categoryV contentV file uid now
                   Hl U Hed Ht Hf)) as [O H].
    split; [exact O|]. eexists. split; [exact H|].
    apply appended_push; [assumption|reflexivity..].
  - intros titleV tagsV contentV file uid now Hed Ht Hf.
    destruct (commits_holds _ _ _
                (saveWork_create s d titleV tagsV contentV file uid now
                   Hl U Hed Ht Hf)) as [O H].
    split; [exact O|]. eexists. split; [exact H|].
    apply appended_push; [assumption|reflexivity..].
  - intros titleV linkV descV file uid now Hed Ht Hf.
    destruct (commits_holds _ _ _
                (saveProject_create s d titleV linkV descV file uid now
                   Hl U Hed Ht Hf)) as [O H].
    split; [exact O|]. eexists. split; [exact H|].
    apply appended_push; [assumption|reflexivity..].
  - intros name email subject message uid now.
    assert (U' := usable_message d uid name email subject message now U).
    assert (R := saveLocalMessage_run s d uid name email subject message now
                   Hl U).
    unfold creates, outcome, after. rewrite R. cbn [fst snd].
    split; [reflexivity|]. eexists. split.
    + apply holds_stored.
      * rewrite saved_storage by exact U'. reflexivity.
      * apply usable_storable, U'.
    + apply appended_push; [assumption|reflexivity..].
  - intros id titleV categoryV contentV file uid now Hed Hid Hex Ht Hf.
    destruct (existsb_find _ _ _ Hex) as (t & Hfind).
    destruct (commits_holds _ _ _
                (saveThought_edit s d id t titleV categoryV contentV file uid
                   now Hl U Hed Hid Hfind Ht Hf)) as [O H].
    split; [exact O|]. eexists. split; [exact H|].
    eapply edited_update; eauto using records_objects;
      intros; first [now apply edit_thought_keeps
                    | now apply edit_thought_updated].
  - intros id titleV tagsV contentV file uid now Hed Hid Hex Ht Hf.
    destruct (existsb_find _ _ _ Hex) as (t & Hfind).
    destruct (commits_holds _ _ _
                (saveWork_edit s d id t titleV tagsV contentV file uid
                   now Hl U Hed Hid Hfind Ht Hf)) as [O H].
    split; [exact O|]. eexists. split; [exact H|].
    eapply edited_update; eauto using records_objects;
      intros; first [now apply edit_work_keeps
                    | now apply edit_work_updated].
  - intros id titleV linkV descV file uid now Hed Hid Hex Ht Hf.
    destruct (existsb_find _ _ _ Hex) as (t & Hfind).
    destruct (commits_holds _ _ _
                (saveProject_edit s d id t titleV linkV descV file uid
                   now Hl U Hed Hid Hfind Ht Hf)) as [O H].
    split; [exact O|]. eexists. split; [exact H|].
    eapply edited_update; eauto using records_objects;
      intros; first [now apply edit_project_keeps
                    | now apply edit_project_updated].
Qed.

(** C3 on the sample document: one creation with a fresh id, one edit. *)
Lemma C3_create_then_edit_witness :
  holds Sample.one_thought Sample.doc1
  /\ valid_document Sample.doc1 = true
  /\ creates (saveThought (str "B") [] [] NoFile Sample.uid1 Sample.now1)
       "thoughts" Sample.uid1 Sample.now1 Sample.one_thought Sample.doc1
  /\ holds Sample.editing_thought Sample.doc1
  /\ edits (saveThought (str "A2") [] [] NoFile Sample.uid1 Sample.now1)
       "thoughts" Sample.uid0 Sample.now1 Sample.editing_thought Sample.doc1.
Proof.
  assert (H1 : holds Sample.one_thought Sample.doc1) by (vm_compute; reflexivity).
  assert (H2 : holds Sample.editing_thought Sample.doc1) by (vm_compute; reflexivity).
  assert (V : valid_document Sample.doc1 = true) by (vm_compute; reflexivity).
  split; [exact H1|]. split; [exact V|]. split; [|split; [exact H2|]].
  - apply (proj1 (C3_create_then_edit Sample.one_thought Sample.doc1 H1 V));
      [reflexivity|reflexivity|discriminate].
  - apply (proj1 (proj2 (proj2 (proj2 (proj2
             (C3_create_then_edit Sample.editing_thought Sample.doc1 H2 V))))));
      [reflexivity|reflexivity|reflexivity|reflexivity|discriminate].
Defined.

(** C4.  In a valid document whose ids are pairwise distinct within a
    collection, deleting by id runs to its end and removes exactly the
    record that has the id: the records before it and after it stay, in
    order, and nothing is removed when no record has the id.  Thoughts,
    work items and projects alike. *)
Theorem C4_delete_removes_exactly (s : state) (d : value) (id : jstring) :
  holds s d -> valid_document d = true ->
  (distinct_ids (records "thoughts" d) = true ->
   deletes (deleteThought id) "thoughts" id s d)
  /\ (distinct_ids (records "work" d) = true ->
      deletes (deleteWork id) "work" id s d)
  /\ (distinct_ids (records "projects" d) = true ->
      deletes (deleteProject id) "projects" id s d).
Proof.
  intros Hl V. assert (U := valid_usable d V).
  split; [|split]; intros D.
  - destruct (commits_holds _ _ _ (deleteThought_run s d id Hl U)) as [O H].
    split; [exact O|]. eexists. split; [exact H|]. now apply removed_filter.
  - destruct (commits_holds _ _ _ (deleteWork_run s d id Hl U)) as [O H].
    split; [exact O|]. eexists. split; [exact H|]. now apply removed_filter.
  - destruct (commits_holds _ _ _ (deleteProject_run s d id Hl U)) as [O H].
    split; [exact O|]. eexists. split; [exact H|]. now apply removed_filter.
Qed.

(** C4 on the sample document: deleting its one thought. *)
Lemma C4_delete_removes_exactly_witness :
  holds Sample.one_thought Sample.doc1
  /\ valid_document Sample.doc1 = true
  /\ distinct_ids (records "thoughts" Sample.doc1) = true
  /\ deletes (deleteThought Sample.uid0) "thoughts" Sample.uid0
       Sample.one_thought Sample.doc1.
Proof.
  assert (H1 : holds Sample.one_thought Sample.doc1) by (vm_compute; reflexivity).
  assert (V : valid_document Sample.doc1 = true) by (vm_compute; reflexivity).
  assert (D : distinct_ids (records "thoughts" Sample.doc1) = true)
    by (vm_compute; reflexivity).
  split; [exact H1|]. split; [exact V|]. split; [exact D|].
  exact (proj1 (C4_delete_removes_exactly Sample.one_thought Sample.doc1
                  Sample.uid0 H1 V) D).
Defined.

(** C5 as stated fails: an email made of white space is not empty, yet
    [setupAdmin] trims it, asks for email and password, and stores
    nothing; the login that follows does not open the admin panel. *)
Lemma C5_blank_email_is_refused :
  nonempty (str " ") = true /\ nonempty (str "pw") = true
  /\ setupAdmin Sample.digest (str " ") (str "pw") initial
     = (Val tt, logged initial [Alert "Email + password required"])
  /\ holds (after (setupAdmin Sample.digest (str " ") (str "pw")) initial)
       DEFAULT_DB
  /\ adminVisible
       (after (loginAdmin Sample.digest (str " ") (str "pw"))
          (after (setupAdmin Sample.digest (str " ") (str "pw")) initial))
     = false.
Proof. repeat split; vm_compute; reflexivity. Qed.

(** C5, amended.  With an email that is not empty once trimmed and a
    password that is not empty, [setupAdmin] stores the trimmed email with
    the digest of the password, and [loginAdmin] with the same email and
    password opens the admin panel, as does any login whose trimmed email
    and password digest equal the stored ones.  A login whose trimmed
    email differs from the stored one, or whose password has another
    digest, leaves the panel as it was and ends in an alert.  For any
    digest function. *)
Theorem C5_setup_then_login (hashText : jstring -> jstring) (s : state)
  (d : value) (emailV pass : jstring) :
  holds s d -> valid_document d = true ->
  nonempty (trim emailV) = true -> nonempty pass = true ->
  outcome (setupAdmin hashText emailV pass) s = Val tt
  /\ (exists d1,
        holds (after (setupAdmin hashText emailV pass) s) d1
        /\ field "admin" d1
           = Some (new_admin (trim emailV) (hashText pass)))
  /\ (forall emailV' pass',
        nonempty pass' = true ->
        trim emailV' = trim emailV -> hashText pass' = hashText pass ->
        login_opens (loginAdmin hashText emailV' pass')
          (after (setupAdmin hashText emailV pass) s))
  /\ (forall emailV' pass',
        trim emailV' <> trim emailV \/ hashText pass' <> hashText pass ->
        login_refused (loginAdmin hashText emailV' pass')
          (after (setupAdmin hashText emailV pass) s)).
Proof.
  intros Hl V He Hp. assert (U := valid_usable d V).
  assert (C := setupAdmin_run hashText s d emailV pass Hl U He Hp).
  destruct (commits_holds _ _ _ C) as [O H1].
  destruct C as [(s1 & E1 & St1 & Vars1) U1].
  assert (A1 : after (setupAdmin hashText emailV pass) s = s1)
    by (unfold after; now rewrite E1).
  rewrite A1 in *.
  set (d1 := set (str "admin") (new_admin (trim emailV) (hashText pass)) d) in *.
  assert (Od : is_object d = true) by now apply usable_object.
  assert (Od1 : is_object d1 = true) by now apply usable_object.
  assert (F1 : field "admin" d1 = Some (new_admin (trim emailV) (hashText pass)))
    by (apply field_set_same; exact Od).
  assert (L : forall emailV' pass',
            nonempty (trim emailV') = true -> nonempty pass' = true ->
            loginAdmin hashText emailV' pass' s1 =
            if streq (trim emailV) (trim emailV')
               && streq (hashText pass) (hashText pass')
            then
              (Val tt,
               logged
                 (mkState (storage (loaded s1)) (editingThoughtId (loaded s1))
                    (editingWorkId (loaded s1)) (editingProjectId (loaded s1))
                    true (effects (loaded s1) ++ [Hide "#loginBox"]))
                 [Show "#adminPanel"; Show "#logoutBtn"; Toast "Logged in"])
            else (Val tt, logged (loaded s1) [Alert "Invalid credentials"])).
  { intros emailV' pass' He' Hp'.
    apply (loginAdmin_run hashText s1 d1 _ _ _ emailV' pass' H1 Od1 F1);
      auto. }
  split; [exact O|]. split; [exists d1; auto|]. split.
  - intros emailV' pass' Hp' Ee Eh. unfold login_opens, outcome, after.
    assert (He' : nonempty (trim emailV') = true) by now rewrite Ee.
    rewrite (L emailV' pass' He' Hp'), Ee, Eh, !streq_refl.
    cbn [andb fst snd].
    split; [reflexivity|]. split; [reflexivity|].
    cbn [effects logged].
    change [Show "#adminPanel"; Show "#logoutBtn"; Toast "Logged in"]
      with ([Show "#adminPanel"; Show "#logoutBtn"] ++ [Toast "Logged in"]).
    rewrite app_assoc. apply last_last.
  - intros emailV' pass' Hdiff. unfold login_refused, outcome, after.
    destruct (nonempty (trim emailV')) eqn:He';
      [destruct (nonempty pass') eqn:Hp'|].
    + rewrite (L emailV' pass' He' Hp').
      replace (streq (trim emailV) (trim emailV')
               && streq (hashText pass) (hashText pass')) with false.
      * cbn [fst snd]. split; [reflexivity|]. split.
        -- cbn [adminVisible logged]. apply (loaded_vars s1).
        -- eexists. apply last_logged.
      * symmetry. apply andb_false_iff.
        destruct Hdiff as [N|N]; [left|right]; apply streq_neq; congruence.
    + rewrite loginAdmin_blank by (now right).
      cbn [fst snd]. split; [reflexivity|]. split; [reflexivity|].
      eexists. apply last_logged.
    + rewrite loginAdmin_blank by (now left).
      cbn [fst snd]. split; [reflexivity|]. split; [reflexivity|].
      eexists. apply last_logged.
Qed.

(** C5 on an email typed with spaces around it, then a wrong password. *)
Lemma C5_setup_then_login_witness :
  holds initial DEFAULT_DB /\ valid_document DEFAULT_DB = true
  /\ nonempty (trim (str " ann@example.org ")) = true
  /\ nonempty (str "s3cret") = true
  /\ login_opens
       (loginAdmin Sample.digest (str " ann@example.org ") (str "s3cret"))
       (after (setupAdmin Sample.digest (str " ann@example.org ")
                 (str "s3cret")) initial)
  /\ login_refused
       (loginAdmin Sample.digest (str "ann@example.org") (str "secret"))
       (after (setupAdmin Sample.digest (str " ann@example.org ")
                 (str "s3cret")) initial).
Proof.
  assert (H : holds initial DEFAULT_DB) by (vm_compute; reflexivity).
  assert (V : valid_document DEFAULT_DB = true) by reflexivity.
  assert (E : nonempty (trim (str " ann@example.org ")) = true) by reflexivity.
  assert (P : nonempty (str "s3cret") = true) by reflexivity.
  assert (T := C5_setup_then_login Sample.digest initial DEFAULT_DB
                 (str " ann@example.org ") (str "s3cret") H V E P).
  repeat (split; [assumption|]).
  destruct T as (_ & _ & T1 & T2).
  split; [apply T1; reflexivity|].
  apply T2. right. vm_compute. discriminate.
Defined.

(** C6.  What the code does when the id being edited is in no collection:
    [saveThought] only shows its notification, whereas [saveWork] and
    [saveProject] assign to a property of what [find] returned without
    looking at it and raise a TypeError, and so do the two functions that
    open their editors.  The three delete functions run to their end. *)
Theorem C6_edit_of_missing_id :
  holds Sample.editing_gone Sample.doc1
  /\ valid_document Sample.doc1 = true
  /\ existsb (has_id Sample.gone) (records "work" Sample.doc1) = false
  /\ existsb (has_id Sample.gone) (records "projects" Sample.doc1) = false
  /\ saveThought (str "T") [] [] NoFile Sample.uid1 Sample.now1
       Sample.editing_gone
     = (Val tt, logged Sample.editing_gone [Toast "Not found"])
  /\ saveWork (str "T") [] [] NoFile Sample.uid1 Sample.now1
       Sample.editing_gone
     = (Throw TypeError, Sample.editing_gone)
  /\ saveProject (str "T") [] [] NoFile Sample.uid1 Sample.now1
       Sample.editing_gone
     = (Throw TypeError, Sample.editing_gone)
  /\ outcome (openWorkEditorFor (Some Sample.gone)) Sample.one_thought
     = Throw TypeError
  /\ outcome (openProjectEditorFor (Some Sample.gone)) Sample.one_thought
     = Throw TypeError
  /\ outcome (deleteThought Sample.gone) Sample.one_thought = Val tt
  /\ outcome (deleteWork Sample.gone) Sample.one_thought = Val tt
  /\ outcome (deleteProject Sample.gone) Sample.one_thought = Val tt.
Proof. repeat split; vm_compute; reflexivity. Qed.

(** C7.  A save with a required field that is empty, or white space only,
    does nothing but show a blocking alert: the state after it is the state
    before it with that one alert more, so the storage slot and the
    document in it are unchanged.  Title of a thought, a work item or a
    project; name, email or message of the contact form. *)
Theorem C7_missing_field_alert (s : state) :
  (forall titleV categoryV contentV file uid now,
     nonempty (trim titleV) = false ->
     saveThought titleV categoryV contentV file uid now s
     = (Val tt, logged s [Alert "Title required"]))
  /\ (forall titleV tagsV contentV file uid now,
        nonempty (trim titleV) = false ->
        saveWork titleV tagsV contentV file uid now s
        = (Val tt, logged s [Alert "Title required"]))
  /\ (forall titleV linkV descV file uid now,
        nonempty (trim titleV) = false ->
        saveProject titleV linkV descV file uid now s
        = (Val tt, logged s [Alert "Title required"]))
  /\ (forall nameV emailV subjectV messageV endpointV net uid now,
        nonempty (trim nameV) = false \/ nonempty (trim emailV) = false
        \/ nonempty (trim messageV) = false ->
        submitContact nameV emailV subjectV messageV endpointV net uid now s
        = (Val tt, logged s [Alert "Fill required fields"]))
  /\ (forall l, storage (logged s l) = storage s
                /\ document (logged s l) = document s).
Proof.
  repeat split.
  - intros * H. unfold saveThought. rewrite H. reflexivity.
  - intros * H. unfold saveWork. rewrite H. reflexivity.
  - intros * H. unfold saveProject. rewrite H. reflexivity.
  - intros * H. unfold submitContact.
    replace (negb (nonempty (trim nameV)) || negb (nonempty (trim emailV))
             || negb (nonempty (trim messageV))) with true; [reflexivity|].
    destruct H as [-> | [-> | ->]]; cbn [negb orb];
      rewrite ?orb_true_r; reflexivity.
  - unfold document, outcome. rewrite !loadDB_cases. cbn [storage logged].
    destruct (storage s) as [r|]; [|reflexivity].
    destruct (nonempty r); [|reflexivity]. destruct (parse r); reflexivity.
Qed.

(** C7 on a thought whose title is two spaces. *)
Lemma C7_missing_field_alert_witness :
  nonempty (trim (str "  ")) = false
  /\ saveThought (str "  ") (str "Tech") (str "hi") NoFile Sample.uid1
       Sample.now1 Sample.one_thought
     = (Val tt, logged Sample.one_thought [Alert "Title required"]).
Proof.
  split; [reflexivity|].
  apply (proj1 (C7_missing_field_alert Sample.one_thought)). reflexivity.
Defined.

(** C8.  A contact submission that passes the required-field check of C7
    (name, email and message not empty once trimmed), on a valid document.
    The message is the object with the trimmed [name], [email], [subject]
    and [message] and with [created]; the record kept locally is that
    object with its [id] in front.  With an endpoint, the JSON text of the
    message is posted to it, and that text parses back to the message.  On
    a status below 200 or above 299, or when the request itself fails, the
    record is appended to the stored messages; on a status from 200 to 299
    the storage slot is left as it was.  Without an endpoint the record is
    appended to the stored messages. *)
Theorem C8_relay_fallback (s : state) (d : value)
  (nameV emailV subjectV messageV endpointV : jstring) (net : reply)
  (uid now : jstring) :
  holds s d -> valid_document d = true ->
  nonempty (trim nameV) = true -> nonempty (trim emailV) = true ->
  nonempty (trim messageV) = true ->
  let message :=
    VObj [(str "name", VStr (trim nameV)); (str "email", VStr (trim emailV));
          (str "subject", VStr (trim subjectV));
          (str "message", VStr (trim messageV)); (str "created", VStr now)] in
  let record :=
    VObj [(str "id", VStr uid);
          (str "name", VStr (trim nameV)); (str "email", VStr (trim emailV));
          (str "subject", VStr (trim subjectV));
          (str "message", VStr (trim messageV)); (str "created", VStr now)] in
  let run := submitContact nameV emailV subjectV messageV endpointV net uid now in
  let d' :=
    with_collection "messages" (records "messages" d ++ [record]) d in
  outcome run s = Val tt
  /\ records "messages" d' = records "messages" d ++ [record]
  /\ parse (stringify message) = Val message
  /\ (nonempty (trim endpointV) = true ->
      In (Post (trim endpointV) (stringify message)) (effects (after run s))
      /\ (forall status, net = Response status ->
          (status < 200 \/ 299 < status)%N ->
          holds (after run s) d')
      /\ (net = NoResponse -> holds (after run s) d')
      /\ (forall status, net = Response status ->
          (200 <= status /\ status <= 299)%N ->
          storage (after run s) = storage s /\ holds (after run s) d))
  /\ (nonempty (trim endpointV) = false -> holds (after run s) d').
Proof.
  intros Hl V Hn He Hm message record run d'. assert (U := valid_usable d V).
  assert (Bad : forall status, (status < 200 \/ 299 < status)%N ->
                ok status = false).
  { intros status [H|H]; unfold ok.
    - apply N.leb_gt in H. now rewrite H.
    - apply N.leb_gt in H. rewrite H. apply andb_false_r. }
  assert (Good : forall status, (200 <= status /\ status <= 299)%N ->
                 ok status = true).
  { intros status [H1 H2]. unfold ok.
    apply N.leb_le in H1, H2. now rewrite H1, H2. }
  assert (K : kept_locally endpointV net = true ->
              outcome run s = Val tt /\ holds (after run s) d').
  { intros K. apply commits_holds.
    apply (submitContact_kept s d nameV emailV subjectV messageV endpointV
             net uid now Hl U Hn He Hm K). }
  assert (Sent : forall status, nonempty (trim endpointV) = true ->
                 net = Response status -> ok status = true ->
                 outcome run s = Val tt /\ storage (after run s) = storage s
                 /\ holds (after run s) d).
  { intros status Hp -> Hok. unfold outcome, after, run.
    rewrite submitContact_sent by assumption. cbn [fst snd].
    split; [reflexivity|]. split; [reflexivity|]. now apply holds_logged. }
  split; [|split; [|split; [|split]]].
  - destruct (kept_locally endpointV net) eqn:E; [now apply K|].
    unfold kept_locally in E.
    destruct (nonempty (trim endpointV)) eqn:Hp; [|discriminate].
    destruct net as [status|]; [|discriminate].
    apply negb_false_iff in E. now apply (Sent status).
  - apply records_with_collection. now apply usable_object.
  - apply parse_stringify. reflexivity.
  - intros Hp. split.
    { apply (submitContact_posted s d nameV emailV subjectV messageV
               endpointV net uid now Hl U Hn He Hm Hp). }
    split; [|split].
    + intros status -> Hst. apply K. unfold kept_locally.
      now rewrite Hp, (Bad status Hst).
    + intros ->. apply K. unfold kept_locally. now rewrite Hp.
    + intros status E Hst. apply (Sent status Hp E (Good status Hst)).
  - intros Hp. apply K. unfold kept_locally. now rewrite Hp.
Qed.

(** C8 on an endpoint that answers 500, and on one that answers 204. *)
Lemma C8_relay_fallback_witness :
  holds initial DEFAULT_DB /\ valid_document DEFAULT_DB = true
  /\ holds
       (after (submitContact (str "Ann") (str "ann@example.org") (str "Hi")
                 (str "Hello there") (str "https://formspree.io/f/abc")
                 (Response 500) Sample.uid0 Sample.now0) initial)
       (with_collection "messages"
          [VObj [(str "id", VStr Sample.uid0); (str "name", VStr (str "Ann"));
                 (str "email", VStr (str "ann@example.org"));
                 (str "subject", VStr (str "Hi"));
                 (str "message", VStr (str "Hello there"));
                 (str "created", VStr Sample.now0)]] DEFAULT_DB)
  /\ storage
       (after (submitContact (str "Ann") (str "ann@example.org") (str "Hi")
                 (str "Hello there") (str "https://formspree.io/f/abc")
                 (Response 204) Sample.uid0 Sample.now0) initial)
     = None.
Proof.
  assert (H : holds initial DEFAULT_DB) by (vm_compute; reflexivity).
  assert (V : valid_document DEFAULT_DB = true) by reflexivity.
  split; [exact H|]. split; [exact V|]. split.
  - assert (T := C8_relay_fallback initial DEFAULT_DB (str "Ann")
                   (str "ann@example.org") (str "Hi") (str "Hello there")
                   (str "https://formspree.io/f/abc") (Response 500)
                   Sample.uid0 Sample.now0 H V eq_refl eq_refl eq_refl).
    cbv zeta in T. destruct T as (_ & _ & _ & T & _).
    destruct (T eq_refl) as (_ & T2 & _).
    exact (T2 500%N eq_refl (or_intror eq_refl)).
  - assert (T := C8_relay_fallback initial DEFAULT_DB (str "Ann")
                   (str "ann@example.org") (str "Hi") (str "Hello there")
                   (str "https://formspree.io/f/abc") (Response 204)
                   Sample.uid0 Sample.now0 H V eq_refl eq_refl eq_refl).
    cbv zeta in T. destruct T as (_ & _ & _ & T & _).
    destruct (T eq_refl) as (_ & _ & _ & T4).
    apply (T4 204%N eq_refl). split; discriminate.
Defined.

(** C9 as stated fails: the tags are not made distinct.  The input
    [a, b ,a] is stored as the three tags [a], [b], [a]. *)
Lemma C9_duplicate_tags_are_stored :
  holds (after (saveWork (str "T") (str "a, b ,a") [] NoFile Sample.uid0
                  Sample.now0) initial) Sample.doc_tags
  /\ work_tags Sample.doc_tags
     = [Some (VArr [VStr (str "a"); VStr (str "b"); VStr (str "a")])]
  /\ tags_of (str "a, b ,a") = [str "a"; str "b"; str "a"]
  /\ distinct (tags_of (str "a, b ,a")) = false.
Proof. repeat split; vm_compute; reflexivity. Qed.

(** C9, amended.  Every input of the tags field is pieces without a comma,
    written with commas between them.  The tags [saveWork] stores for it,
    on a new work item and on an edited one, are a list: those pieces, each
    trimmed, the ones that are empty once trimmed left out, the others in
    the order of the input and as often as the input has them.  So every
    stored tag is non-empty and trimmed, and pieces that are tags already
    are stored as they are, a repeated one repeated. *)
Theorem C9_tags_nonempty_trimmed (s : state) (d : value)
  (pieces : list jstring) :
  holds s d -> valid_document d = true ->
  pieces <> [] -> forallb comma_free pieces = true ->
  let tagsV := join pieces in
  let tags := filter nonempty (map trim pieces) in
  Forall (fun t => nonempty t = true /\ trim t = t) tags
  /\ (Forall (fun p => nonempty p = true /\ trim p = p) pieces ->
      tags = pieces)
  /\ (forall titleV contentV file uid now,
        is_set (editingWorkId s) = false ->
        nonempty (trim titleV) = true -> file <> FileFails ->
        exists d',
          holds (after (saveWork titleV tagsV contentV file uid now) s) d'
          /\ work_tags d' = work_tags d ++ [Some (VArr (map VStr tags))])
  /\ (forall id titleV contentV file uid now,
        editingWorkId s = Some id -> nonempty id = true ->
        existsb (has_id id) (records "work" d) = true ->
        nonempty (trim titleV) = true -> file <> FileFails ->
        exists d' l1 w w' l2,
          holds (after (saveWork titleV tagsV contentV file uid now) s) d'
          /\ records "work" d = l1 ++ w :: l2
          /\ records "work" d' = l1 ++ w' :: l2
          /\ has_id id w = true
          /\ field "tags" w' = Some (VArr (map VStr tags)))
  /\ (forall input, exists ps,
        ps <> [] /\ forallb comma_free ps = true /\ input = join ps).
Proof.
  intros Hl V Hne Hc tagsV tags. assert (U := valid_usable d V).
  assert (O := usable_object d U).
  destruct (usable_seq d U) as (S1 & S2 & S3 & S4).
  assert (T : tags_of tagsV = tags) by (now apply tags_of_pieces).
  split; [rewrite <- T; apply tags_of_trimmed|].
  split; [apply tags_of_fixed|]. split; [|split].
  - intros titleV contentV file uid now Hed Ht Hf.
    destruct (commits_holds _ _ _
                (saveWork_create s d titleV tagsV contentV file uid now
                   Hl U Hed Ht Hf)) as [_ H].
    rewrite T in H. eexists. split; [exact H|].
    unfold work_tags. rewrite records_with_collection by assumption.
    rewrite map_app. reflexivity.
  - intros id titleV contentV file uid now Hed Hid Hex Ht Hf.
    destruct (existsb_find _ _ _ Hex) as (t & Hfind).
    destruct (commits_holds _ _ _
                (saveWork_edit s d id t titleV tagsV contentV file uid
                   now Hl U Hed Hid Hfind Ht Hf)) as [_ H].
    rewrite T in H.
    assert (Ob := records_objects "work" d S2).
    destruct (update_first_found id
                (edit_work (trim titleV) tags (trim contentV)
                   (image_of file) now) _ t Ob Hfind) as (l1 & l2 & E & A & B).
    exists (with_collection "work"
              (update_first id
                 (edit_work (trim titleV) tags (trim contentV)
                    (image_of file) now) (records "work" d)) d),
           l1, t,
           (edit_work (trim titleV) tags (trim contentV)
              (image_of file) now t), l2.
    split; [exact H|]. split; [exact E|].
    rewrite records_with_collection by assumption.
    split; [exact B|]. split; [apply find_some in Hfind; tauto|].
    apply edit_work_tags. eapply find_object; eassumption.
  - intros input. exists (split 44 input).
    split; [apply split_nonempty|]. split; [apply split_pieces|].
    symmetry. apply join_split.
Qed.

(** C9 on a save whose input has blanks, empty pieces and a repeated tag. *)
Lemma C9_tags_nonempty_trimmed_witness :
  holds initial DEFAULT_DB /\ valid_document DEFAULT_DB = true
  /\ join [str " rocq"; str " "; str "proofs "; str ""; str " rocq "]
     = str " rocq, ,proofs ,, rocq "
  /\ exists d',
       holds (after (saveWork (str "T") (str " rocq, ,proofs ,, rocq ") []
                       NoFile Sample.uid0 Sample.now0) initial) d'
       /\ work_tags d'
          = [Some (VArr [VStr (str "rocq"); VStr (str "proofs");
                         VStr (str "rocq")])].
Proof.
  assert (H : holds initial DEFAULT_DB) by (vm_compute; reflexivity).
  assert (V : valid_document DEFAULT_DB = true) by reflexivity.
  split; [exact H|]. split; [exact V|]. split; [reflexivity|].
  assert (T := C9_tags_nonempty_trimmed initial DEFAULT_DB
                 [str " rocq"; str " "; str "proofs "; str ""; str " rocq "]
                 H V ltac:(discriminate) eq_refl).
  cbv zeta in T. destruct T as (_ & _ & T & _).
  exact (T (str "T") [] NoFile Sample.uid0 Sample.now0
           eq_refl eq_refl ltac:(discriminate)).
Defined.

(** C10.  An edit without a new image file leaves the image field of every
    record of the collection as it was, whatever else it changes and also
    when it stops early.  Thoughts, work items and projects. *)
Theorem C10_edit_without_file_keeps_image (s : state) (d : value) :
  holds s d -> valid_document d = true ->
  (forall titleV categoryV contentV uid now,
     is_set (editingThoughtId s) = true ->
     exists d',
       holds (after (saveThought titleV categoryV contentV NoFile uid now) s) d'
       /\ images "thoughts" d' = images "thoughts" d)
  /\ (forall titleV tagsV contentV uid now,
        is_set (editingWorkId s) = true ->
        exists d',
          holds (after (saveWork titleV tagsV contentV NoFile uid now) s) d'
          /\ images "work" d' = images "work" d)
  /\ (forall titleV linkV descV uid now,
        is_set (editingProjectId s) = true ->
        exists d',
          holds (after (saveProject titleV linkV descV NoFile uid now) s) d'
          /\ images "projects" d' = images "projects" d).
Proof.
  intros Hl V. assert (U := valid_usable d V).
  assert (NF : NoFile <> FileFails) by discriminate.
  assert (Same : forall s', storage s' = storage s ->
                 exists d', holds s' d' /\ forall k, images k d' = images k d).
  { intros s' E. exists d. split; [|reflexivity].
    now apply (holds_same_storage s). }
  split; [|split].
  - intros titleV categoryV contentV uid now Hed.
    destruct (is_set_some _ Hed) as (id & Eid & Hid).
    destruct (nonempty (trim titleV)) eqn:Ht.
    + destruct (find (has_id id) (records "thoughts" d)) as [t|] eqn:Hfind.
      * destruct (commits_holds _ _ _
                    (saveThought_edit s d id t titleV categoryV contentV NoFile
                       uid now Hl U Eid Hid Hfind Ht NF)) as [_ H].
        eexists. split; [exact H|]. apply images_update; [assumption|].
        intros x. apply edit_thought_image.
      * destruct (Same (after (saveThought titleV categoryV contentV NoFile
                                 uid now) s)) as (d' & H & I); [|eauto].
        unfold after.
        rewrite (saveThought_missing s d id) by assumption.
        cbn [snd storage logged]. apply loaded_storage.
    + destruct (Same (after (saveThought titleV categoryV contentV NoFile
                               uid now) s)) as (d' & H & I); [|eauto].
      unfold after, saveThought. rewrite Ht. reflexivity.
  - intros titleV tagsV contentV uid now Hed.
    destruct (is_set_some _ Hed) as (id & Eid & Hid).
    destruct (nonempty (trim titleV)) eqn:Ht.
    + destruct (find (has_id id) (records "work" d)) as [t|] eqn:Hfind.
      * destruct (commits_holds _ _ _
                    (saveWork_edit s d id t titleV tagsV contentV NoFile
                       uid now Hl U Eid Hid Hfind Ht NF)) as [_ H].
        eexists. split; [exact H|]. apply images_update; [assumption|].
        intros x. apply edit_work_image.
      * destruct (Same (after (saveWork titleV tagsV contentV NoFile
                                 uid now) s)) as (d' & H & I); [|eauto].
        unfold after.
        rewrite (saveWork_missing s d id) by assumption.
        cbn [snd]. apply loaded_storage.
    + destruct (Same (after (saveWork titleV tagsV contentV NoFile
                               uid now) s)) as (d' & H & I); [|eauto].
      unfold after, saveWork. rewrite Ht. reflexivity.
  - intros titleV linkV descV uid now Hed.
    destruct (is_set_some _ Hed) as (id & Eid & Hid).
    destruct (nonempty (trim titleV)) eqn:Ht.
    + destruct (find (has_id id) (records "projects" d)) as [t|] eqn:Hfind.
      * destruct (commits_holds _ _ _
                    (saveProject_edit s d id t titleV linkV descV NoFile
                       uid now Hl U Eid Hid Hfind Ht NF)) as [_ H].
        eexists. split; [exact H|]. apply images_update; [assumption|].
        intros x. apply edit_project_image.
      * destruct (Same (after (saveProject titleV linkV descV NoFile
                                 uid now) s)) as (d' & H & I); [|eauto].
        unfold after.
        rewrite (saveProject_missing s d id) by assumption.
        cbn [snd]. apply loaded_storage.
    + destruct (Same (after (saveProject titleV linkV descV NoFile
                               uid now) s)) as (d' & H & I); [|eauto].
      unfold after, saveProject. rewrite Ht. reflexivity.
Qed.

(** C10 on a thought that has a picture. *)
Lemma C10_edit_without_file_keeps_image_witness :
  holds Sample.editing_pictured Sample.pictured
  /\ valid_document Sample.pictured = true
  /\ is_set (editingThoughtId Sample.editing_pictured) = true
  /\ images "thoughts" Sample.pictured = [Some (VStr Sample.png)]
  /\ exists d',
       holds (after (saveThought (str "A2") (str "Tech") (str "hi again")
                       NoFile Sample.uid1 Sample.now1)
                Sample.editing_pictured) d'
       /\ images "thoughts" d' = images "thoughts" Sample.pictured.
Proof.
  assert (H : holds Sample.editing_pictured Sample.pictured)
    by (vm_compute; reflexivity).
  assert (V : valid_document Sample.pictured = true) by (vm_compute; reflexivity).
  split; [exact H|]. split; [exact V|]. split; [reflexivity|].
  split; [reflexivity|].
  apply (proj1 (C10_edit_without_file_keeps_image Sample.editing_pictured
                  Sample.pictured H V)).
  reflexivity.
Defined.

(* ================================================================== *)
(** * Beyond the claims: more facts about the operations *)
(* ================================================================== *)

Import Terms Crypto Forms Download Views Relay.

(** ** Saving and counting *)

Module StoreFacts.
Local Arguments str : simpl never.
Local Arguments get : simpl never.
Local Arguments same_str : simpl never.

Lemma stat_frame sel k db s :
  storage (after (stat sel k db) s) = storage s
  /\ same_vars s (after (stat sel k db) s).
Proof.
  unfold after, stat, bind, lift, emit.
  destruct (get (Some db) (str k)) as [c|e]; [|split; [reflexivity|apply same_vars_refl]].
  destruct (length_of c) as [n|e]; split; try reflexivity;
    try apply same_vars_refl; apply same_vars_logged.
Qed.

Lemma bind_after_storage (m k : M unit) (s : state) :
  (forall x, storage (after m x) = storage x) ->
  (forall x, storage (after k x) = storage x) ->
  storage (after (m ;;; k) s) = storage s.
Proof.
  intros Hm Hk. unfold after, bind. specialize (Hm s). unfold after in Hm.
  destruct (m s) as [[[]|e] s1]; simpl in *; [|exact Hm].
  rewrite <- Hm. apply Hk.
Qed.

Lemma bind_after_vars (m k : M unit) (s : state) :
  (forall x, same_vars x (after m x)) ->
  (forall x, same_vars x (after k x)) ->
  same_vars s (after (m ;;; k) s).
Proof.
  intros Hm Hk. unfold after, bind. specialize (Hm s). unfold after in Hm.
  destruct (m s) as [[[]|e] s1]; simpl in *; [|exact Hm].
  eapply same_vars_trans; [exact Hm|apply Hk].
Qed.

Lemma updateStats_frame s :
  storage (after updateStats s) = storage s
  /\ same_vars s (after updateStats s).
Proof.
  destruct (loadDB_run s) as (d & s1 & E & St & V).
  assert (R : after updateStats s
              = after (stat "#statThoughts" "thoughts" d ;;;
                       stat "#statProjects" "projects" d ;;;
                       stat "#statContacts" "messages" d) s1).
  { unfold updateStats, after. unfold bind at 1. rewrite E. reflexivity. }
  rewrite R. split.
  - rewrite <- St. apply bind_after_storage; [intro; apply stat_frame|].
    intro. apply bind_after_storage; intro; apply stat_frame.
  - eapply same_vars_trans; [exact V|].
    apply bind_after_vars; [intro; apply stat_frame|].
    intro. apply bind_after_vars; intro; apply stat_frame.
Qed.

Lemma saveDB_frame d s :
  storage (after (saveDB d) s) = Some (stringify d)
  /\ same_vars s (after (saveDB d) s).
Proof.
  unfold saveDB, after. unfold bind at 1, setItem at 1.
  match goal with |- storage (snd (updateStats ?x)) = _ /\ _ =>
    destruct (updateStats_frame x) as [St V]; unfold after in St, V;
    rewrite St; split; [reflexivity|] end.
  eapply same_vars_trans; [|exact V]. repeat split.
Qed.

Lemma stat_cases sel k d s :
  is_object d = true ->
  stat sel k d s =
  match length_of (field k d) with
  | Val n => (Val tt, logged s [SetText sel n])
  | Throw e => (Throw e, s)
  end.
Proof.
  intros O. unfold stat, bind, lift, emit. rewrite (get_field k d O).
  destruct (length_of (field k d)); reflexivity.
Qed.

Lemma length_of_has x : has_length x = true -> exists n, length_of x = Val n.
Proof. destruct x as [[]|]; simpl; try discriminate; eauto. Qed.

Lemma length_of_lacks x : has_length x = false -> length_of x = Throw TypeError.
Proof. destruct x as [[]|]; simpl; try discriminate; eauto. Qed.

Lemma updateStats_outcome d s :
  holds s d ->
  outcome updateStats s = if counted d then Val tt else Throw TypeError.
Proof.
  intros H. unfold outcome, updateStats. unfold bind at 1.
  rewrite (holds_load _ _ H). unfold counted.
  destruct d; try (cbn; reflexivity).
  set (d := VObj props) in *. assert (O : is_object d = true) by reflexivity.
  unfold bind at 1. rewrite (stat_cases _ _ _ _ O).
  destruct (has_length (field "thoughts" d)) eqn:E1.
  - destruct (length_of_has _ E1) as [n1 ->].
    unfold bind at 1. rewrite (stat_cases _ _ _ _ O).
    destruct (has_length (field "projects" d)) eqn:E2.
    + destruct (length_of_has _ E2) as [n2 ->].
      rewrite (stat_cases _ _ _ _ O).
      destruct (has_length (field "messages" d)) eqn:E3.
      * destruct (length_of_has _ E3) as [n3 ->]. reflexivity.
      * rewrite (length_of_lacks _ E3). reflexivity.
    + rewrite (length_of_lacks _ E2). reflexivity.
  - rewrite (length_of_lacks _ E1). reflexivity.
Qed.

Lemma saveDB_outcome d s :
  storable d = true ->
  outcome (saveDB d) s = if counted d then Val tt else Throw TypeError.
Proof.
  intros S. unfold outcome, saveDB. unfold bind at 1, setItem at 1.
  apply updateStats_outcome. now apply holds_stored.
Qed.

Lemma saveDB_raises d s :
  storable d = true -> counted d = false ->
  exists s', saveDB d s = (Throw TypeError, s') /\ holds s' d.
Proof.
  intros S C. pose proof (saveDB_outcome d s S) as O.
  destruct (saveDB_frame d s) as [St _]. rewrite C in O.
  unfold outcome, after in *. destruct (saveDB d s) as [r s'].
  cbn [fst snd] in *. subst r. exists s'. split; [reflexivity|].
  now apply holds_stored.
Qed.

End StoreFacts.

Import StoreFacts.

(** ** One step of the store *)

Module StepFacts.
Local Arguments str : simpl never.
Local Arguments get : simpl never.
Local Arguments same_str : simpl never.

(** ** Records stay records *)

Lemma thought_new uid title category content img now :
  thought (new_thought uid title category content img now) = true.
Proof. destruct img as [u|]; [|reflexivity]. cbv [new_thought or_null]. destruct (nonempty u); reflexivity. Qed.

Lemma strings_map tags : strings (Some (VArr (map VStr tags))) = true.
Proof. unfold strings. induction tags; [reflexivity|exact IHtags]. Qed.

Lemma work_new uid title tags content img now :
  work_item (new_work uid title tags content img now) = true.
Proof.
  unfold work_item.
  replace (field "tags" (new_work uid title tags content img now))
    with (Some (VArr (map VStr tags))) by reflexivity.
  rewrite strings_map.
  destruct img as [u|]; [|reflexivity]. cbv [new_work or_null].
  destruct (nonempty u); reflexivity.
Qed.

Lemma project_new uid title link desc img now :
  project (new_project uid title link desc img now) = true.
Proof. destruct img as [u|]; [|reflexivity]. cbv [new_project or_null]. destruct (nonempty u); reflexivity. Qed.

Lemma message_new uid name email subject message now :
  Shape.message (new_message uid (payload_of name email subject message now)) = true.
Proof. reflexivity. Qed.

Lemma field_set_image img x :
  is_object x = true ->
  string_or_null (field "image" x) = true ->
  string_or_null (field "image" (set_image img x)) = true.
Proof.
  intros O H. destruct img as [u|]; [|exact H]. unfold set_image.
  destruct (nonempty u); [|exact H]. now rewrite field_set_same.
Qed.

Lemma record_is v : record v = true ->
  is_object v = true /\ is_string (field "id" v) = true
  /\ is_string (field "created" v) = true.
Proof.
  unfold record. intros H. apply andb_prop in H as [H _].
  apply andb_prop in H as [H H3]. apply andb_prop in H as [H1 H2]. auto.
Qed.

Ltac settle O :=
  repeat first
    [ rewrite field_set_other by reflexivity
    | rewrite field_set_image_other by reflexivity
    | rewrite field_set_same
        by (rewrite ?is_object_set, ?set_image_object; exact O) ].

Lemma thought_edit title category content img now x :
  thought x = true ->
  thought (edit_thought title category content img now x) = true.
Proof.
  unfold thought. intros H.
  apply andb_prop in H as [H Hi]. apply andb_prop in H as [H _].
  apply andb_prop in H as [H _]. apply andb_prop in H as [R _].
  destruct (record_is _ R) as (O & I & C).
  assert (Oe := edit_thought_object title category content img now x O).
  unfold record. rewrite Oe.
  rewrite !(edit_thought_keeps "id"), !(edit_thought_keeps "created")
    by reflexivity.
  rewrite edit_thought_updated by exact O. rewrite I, C.
  unfold edit_thought. settle O.
  rewrite field_set_image; [reflexivity|now rewrite !is_object_set|].
  settle O. exact Hi.
Qed.

Lemma work_edit title tags content img now x :
  work_item x = true ->
  work_item (edit_work title tags content img now x) = true.
Proof.
  unfold work_item. intros H.
  apply andb_prop in H as [H Hi]. apply andb_prop in H as [H _].
  apply andb_prop in H as [H _]. apply andb_prop in H as [R _].
  destruct (record_is _ R) as (O & I & C).
  assert (Oe := edit_work_object title tags content img now x O).
  unfold record. rewrite Oe.
  rewrite !(edit_work_keeps "id"), !(edit_work_keeps "created")
    by reflexivity.
  rewrite edit_work_updated by exact O. rewrite I, C.
  rewrite edit_work_tags by exact O. rewrite strings_map.
  unfold edit_work. settle O.
  rewrite field_set_image; [reflexivity|now rewrite !is_object_set|].
  settle O. exact Hi.
Qed.

Lemma project_edit title link desc img now x :
  project x = true ->
  project (edit_project title link desc img now x) = true.
Proof.
  unfold project. intros H.
  apply andb_prop in H as [H Hi]. apply andb_prop in H as [H _].
  apply andb_prop in H as [H _]. apply andb_prop in H as [R _].
  destruct (record_is _ R) as (O & I & C).
  assert (Oe := edit_project_object title link desc img now x O).
  unfold record. rewrite Oe.
  rewrite !(edit_project_keeps "id"), !(edit_project_keeps "created")
    by reflexivity.
  rewrite edit_project_updated by exact O. rewrite I, C.
  unfold edit_project. settle O.
  rewrite field_set_image; [reflexivity|now rewrite !is_object_set|].
  settle O. exact Hi.
Qed.

(** ** Documents stay documents *)

Lemma valid_parts d :
  valid_document d = true ->
  storable d = true
  /\ sequence_of thought (field "thoughts" d) = true
  /\ sequence_of work_item (field "work" d) = true
  /\ sequence_of project (field "projects" d) = true
  /\ sequence_of Shape.message (field "messages" d) = true
  /\ optional_credential (field "admin" d) = true.
Proof.
  unfold valid_document. intros H.
  apply andb_prop in H as [H H6]. apply andb_prop in H as [H H5].
  apply andb_prop in H as [H H4]. apply andb_prop in H as [H H3].
  apply andb_prop in H as [H1 H2]. auto 10.
Qed.

Lemma sequence_forallb kind k d :
  sequence_of kind (field k d) = true -> forallb kind (records k d) = true.
Proof.
  unfold sequence_of, records. destruct (field k d) as [[]|]; try discriminate.
  auto.
Qed.

Lemma valid_with k l d :
  valid_document d = true ->
  forallb storable l = true ->
  (str k = str "thoughts" /\ forallb thought l = true)
  \/ (str k = str "work" /\ forallb work_item l = true)
  \/ (str k = str "projects" /\ forallb project l = true)
  \/ (str k = str "messages" /\ forallb Shape.message l = true) ->
  valid_document (with_collection k l d) = true.
Proof.
  intros V Sl K. assert (O := usable_object d (valid_usable d V)).
  destruct (valid_parts d V) as (S & T & W & P & M & A).
  unfold valid_document.
  assert (S' : storable (with_collection k l d) = true)
    by (apply storable_set; [exact S|exact Sl]).
  rewrite S'. unfold with_collection.
  destruct K as [[E F]|[[E F]|[[E F]|[E F]]]]; rewrite E;
    rewrite !field_set_same by exact O;
    rewrite !field_set_other by reflexivity;
    rewrite ?T, ?W, ?P, ?M, ?A; cbn [sequence_of]; rewrite F; reflexivity.
Qed.

Lemma valid_set_admin c d :
  valid_document d = true -> storable c = true -> credential c = true ->
  valid_document (set (str "admin") c d) = true.
Proof.
  intros V Sc C. assert (O := usable_object d (valid_usable d V)).
  destruct (valid_parts d V) as (S & T & W & P & M & A).
  unfold valid_document. rewrite storable_set by assumption.
  rewrite !field_set_other by reflexivity. rewrite field_set_same by exact O.
  rewrite T, W, P, M. cbn [andb optional_credential].
  destruct c; try discriminate. exact C.
Qed.

(** ** Only one property changes *)

Lemma only_changes_refl k d : only_changes k d d.
Proof. intros k' _. reflexivity. Qed.

Lemma only_changes_set k v d : only_changes k d (set (str k) v d).
Proof.
  intros k' H. destruct d; try reflexivity.
  unfold set, get. now rewrite lookup_assign_other.
Qed.

(** ** Each operation, whatever its inputs *)

Lemma within_same m k s d :
  valid_document d = true -> holds (after m s) d -> within m k s d.
Proof. intros V H. exists d. auto using only_changes_refl. Qed.

Lemma within_commit m k l s d :
  valid_document d = true ->
  commits m s (with_collection k l d) ->
  forallb storable l = true ->
  (str k = str "thoughts" /\ forallb thought l = true)
  \/ (str k = str "work" /\ forallb work_item l = true)
  \/ (str k = str "projects" /\ forallb project l = true)
  \/ (str k = str "messages" /\ forallb Shape.message l = true) ->
  within m k s d.
Proof.
  intros V C Sl K. exists (with_collection k l d).
  split; [apply (commits_holds _ _ _ C)|].
  split; [apply only_changes_set|now apply valid_with].
Qed.

Lemma holds_loaded s d : holds s d -> holds (loaded s) d.
Proof. intros H. eapply holds_same_storage; [|exact H]. apply loaded_storage. Qed.

Lemma saveThought_blank s titleV categoryV contentV file uid now :
  nonempty (trim titleV) = false ->
  saveThought titleV categoryV contentV file uid now s
  = (Val tt, logged s [Alert "Title required"]).
Proof. intros H. unfold saveThought. rewrite H. reflexivity. Qed.

Lemma saveWork_blank s titleV tagsV contentV file uid now :
  nonempty (trim titleV) = false ->
  saveWork titleV tagsV contentV file uid now s
  = (Val tt, logged s [Alert "Title required"]).
Proof. intros H. unfold saveWork. rewrite H. reflexivity. Qed.

Lemma saveProject_blank s titleV linkV descV file uid now :
  nonempty (trim titleV) = false ->
  saveProject titleV linkV descV file uid now s
  = (Val tt, logged s [Alert "Title required"]).
Proof. intros H. unfold saveProject. rewrite H. reflexivity. Qed.

Lemma saveThought_unread s titleV categoryV contentV uid now :
  nonempty (trim titleV) = true ->
  saveThought titleV categoryV contentV FileFails uid now s
  = (Throw ReadError, s).
Proof. intros H. unfold saveThought. rewrite H. reflexivity. Qed.

Lemma saveWork_unread s titleV tagsV contentV uid now :
  nonempty (trim titleV) = true ->
  saveWork titleV tagsV contentV FileFails uid now s = (Throw ReadError, s).
Proof. intros H. unfold saveWork. rewrite H. reflexivity. Qed.

Lemma saveProject_unread s titleV linkV descV uid now :
  nonempty (trim titleV) = true ->
  saveProject titleV linkV descV FileFails uid now s = (Throw ReadError, s).
Proof. intros H. unfold saveProject. rewrite H. reflexivity. Qed.

Lemma file_cases (file : upload) : file = FileFails \/ file <> FileFails.
Proof. destruct file; [right|right|left]; congruence. Qed.

Ltac ran E := unfold after; rewrite E; cbn [snd].

Lemma saveThought_within s d titleV categoryV contentV file uid now :
  holds s d -> valid_document d = true ->
  within (saveThought titleV categoryV contentV file uid now) "thoughts" s d.
Proof.
  intros Hl V. assert (U := valid_usable d V).
  destruct (valid_parts d V) as (S & T & _).
  assert (Tr := sequence_forallb _ _ _ T).
  assert (Sr := records_storable "thoughts" d S).
  destruct (nonempty (trim titleV)) eqn:Ht.
  2:{ apply within_same; [exact V|].
      ran (saveThought_blank s titleV categoryV contentV file uid now Ht).
      now apply holds_logged. }
  destruct (file_cases file) as [->|Hf].
  { apply within_same; [exact V|].
    now ran (saveThought_unread s titleV categoryV contentV uid now Ht). }
  destruct (is_set (editingThoughtId s)) eqn:Hed.
  - destruct (is_set_some _ Hed) as (id & Eid & Hid).
    destruct (find (has_id id) (records "thoughts" d)) as [t|] eqn:Hfind.
    + eapply within_commit; [exact V| |
        |left; split; [reflexivity|]].
      * eapply saveThought_edit; eassumption.
      * apply update_first_forallb; [|exact Sr].
        intros x. apply edit_thought_storable.
      * apply update_first_forallb; [|exact Tr].
        intros x. apply thought_edit.
    + apply within_same; [exact V|].
      ran (saveThought_missing s d id titleV categoryV contentV file uid now
             Hl U Eid Hid Hfind Ht Hf).
      now apply holds_logged, holds_loaded.
  - eapply within_commit; [exact V| | |left; split; [reflexivity|]].
    + eapply saveThought_create; eassumption.
    + apply forallb_snoc; [exact Sr|apply new_thought_storable].
    + apply forallb_snoc; [exact Tr|apply thought_new].
Qed.

Lemma saveWork_within s d titleV tagsV contentV file uid now :
  holds s d -> valid_document d = true ->
  within (saveWork titleV tagsV contentV file uid now) "work" s d.
Proof.
  intros Hl V. assert (U := valid_usable d V).
  destruct (valid_parts d V) as (S & _ & T & _).
  assert (Tr := sequence_forallb _ _ _ T).
  assert (Sr := records_storable "work" d S).
  destruct (nonempty (trim titleV)) eqn:Ht.
  2:{ apply within_same; [exact V|].
      ran (saveWork_blank s titleV tagsV contentV file uid now Ht).
      now apply holds_logged. }
  destruct (file_cases file) as [->|Hf].
  { apply within_same; [exact V|].
    now ran (saveWork_unread s titleV tagsV contentV uid now Ht). }
  destruct (is_set (editingWorkId s)) eqn:Hed.
  - destruct (is_set_some _ Hed) as (id & Eid & Hid).
    destruct (find (has_id id) (records "work" d)) as [t|] eqn:Hfind.
    + eapply within_commit; [exact V| |
        |right; left; split; [reflexivity|]].
      * eapply saveWork_edit; eassumption.
      * apply update_first_forallb; [|exact Sr].
        intros x. apply edit_work_storable.
      * apply update_first_forallb; [|exact Tr].
        intros x. apply work_edit.
    + apply within_same; [exact V|].
      ran (saveWork_missing s d id titleV tagsV contentV file uid now
             Hl U Eid Hid Hfind Ht Hf).
      now apply holds_loaded.
  - eapply within_commit; [exact V| | |right; left; split; [reflexivity|]].
    + eapply saveWork_create; eassumption.
    + apply forallb_snoc; [exact Sr|apply new_work_storable].
    + apply forallb_snoc; [exact Tr|apply work_new].
Qed.

Lemma saveProject_within s d titleV linkV descV file uid now :
  holds s d -> valid_document d = true ->
  within (saveProject titleV linkV descV file uid now) "projects" s d.
Proof.
  intros Hl V. assert (U := valid_usable d V).
  destruct (valid_parts d V) as (S & _ & _ & T & _).
  assert (Tr := sequence_forallb _ _ _ T).
  assert (Sr := records_storable "projects" d S).
  destruct (nonempty (trim titleV)) eqn:Ht.
  2:{ apply within_same; [exact V|].
      ran (saveProject_blank s titleV linkV descV file uid now Ht).
      now apply holds_logged. }
  destruct (file_cases file) as [->|Hf].
  { apply within_same; [exact V|].
    now ran (saveProject_unread s titleV linkV descV uid now Ht). }
  destruct (is_set (editingProjectId s)) eqn:Hed.
  - destruct (is_set_some _ Hed) as (id & Eid & Hid).
    destruct (find (has_id id) (records "projects" d)) as [t|] eqn:Hfind.
    + eapply within_commit; [exact V| |
        |right; right; left; split; [reflexivity|]].
      * eapply saveProject_edit; eassumption.
      * apply update_first_forallb; [|exact Sr].
        intros x. apply edit_project_storable.
      * apply update_first_forallb; [|exact Tr].
        intros x. apply project_edit.
    + apply within_same; [exact V|].
      ran (saveProject_missing s d id titleV linkV descV file uid now
             Hl U Eid Hid Hfind Ht Hf).
      now apply holds_loaded.
  - eapply within_commit; [exact V| | |right; right; left; split; [reflexivity|]].
    + eapply saveProject_create; eassumption.
    + apply forallb_snoc; [exact Sr|apply new_project_storable].
    + apply forallb_snoc; [exact Tr|apply project_new].
Qed.

Lemma deleteThought_within s d id :
  holds s d -> valid_document d = true ->
  within (deleteThought id) "thoughts" s d.
Proof.
  intros Hl V. assert (U := valid_usable d V).
  destruct (valid_parts d V) as (S & T & _).
  eapply within_commit; [exact V| | |left; split; [reflexivity|]].
  - now apply deleteThought_run.
  - apply filter_forallb, records_storable, S.
  - apply filter_forallb, sequence_forallb, T.
Qed.

Lemma deleteWork_within s d id :
  holds s d -> valid_document d = true ->
  within (deleteWork id) "work" s d.
Proof.
  intros Hl V. assert (U := valid_usable d V).
  destruct (valid_parts d V) as (S & _ & T & _).
  eapply within_commit; [exact V| | |right; left; split; [reflexivity|]].
  - now apply deleteWork_run.
  - apply filter_forallb, records_storable, S.
  - apply filter_forallb, sequence_forallb, T.
Qed.

Lemma deleteProject_within s d id :
  holds s d -> valid_document d = true ->
  within (deleteProject id) "projects" s d.
Proof.
  intros Hl V. assert (U := valid_usable d V).
  destruct (valid_parts d V) as (S & _ & _ & T & _).
  eapply within_commit; [exact V| | |right; right; left; split; [reflexivity|]].
  - now apply deleteProject_run.
  - apply filter_forallb, records_storable, S.
  - apply filter_forallb, sequence_forallb, T.
Qed.

Lemma submitContact_blank s nameV emailV subjectV messageV endpointV net uid now :
  nonempty (trim nameV) && nonempty (trim emailV) && nonempty (trim messageV)
  = false ->
  submitContact nameV emailV subjectV messageV endpointV net uid now s
  = (Val tt, logged s [Alert "Fill required fields"]).
Proof.
  intros H. unfold submitContact.
  replace (negb (nonempty (trim nameV)) || negb (nonempty (trim emailV))
           || negb (nonempty (trim messageV))) with true; [reflexivity|].
  destruct (nonempty (trim nameV)), (nonempty (trim emailV)),
    (nonempty (trim messageV)); try reflexivity; discriminate.
Qed.

Lemma new_message_storable uid name email subject message now :
  storable (new_message uid (payload_of name email subject message now)) = true.
Proof. reflexivity. Qed.

Lemma submitContact_within s d nameV emailV subjectV messageV endpointV net uid now :
  holds s d -> valid_document d = true ->
  within (submitContact nameV emailV subjectV messageV endpointV net uid now)
    "messages" s d.
Proof.
  intros Hl V. assert (U := valid_usable d V).
  destruct (valid_parts d V) as (S & _ & _ & _ & T & _).
  destruct (nonempty (trim nameV) && nonempty (trim emailV)
            && nonempty (trim messageV)) eqn:Hreq.
  2:{ apply within_same; [exact V|].
      ran (submitContact_blank s nameV emailV subjectV messageV endpointV net
             uid now Hreq).
      now apply holds_logged. }
  apply andb_prop in Hreq as [Hreq Hm]. apply andb_prop in Hreq as [Hn He].
  destruct (kept_locally endpointV net) eqn:K.
  - eapply within_commit; [exact V| | |right; right; right; split; [reflexivity|]].
    + now apply submitContact_kept.
    + apply forallb_snoc; [apply records_storable, S|apply new_message_storable].
    + apply forallb_snoc; [apply sequence_forallb, T|apply message_new].
  - unfold kept_locally in K.
    destruct (nonempty (trim endpointV)) eqn:En; [|discriminate].
    destruct net as [status|]; [|discriminate].
    apply negb_false_iff in K.
    apply within_same; [exact V|].
    ran (submitContact_sent s nameV emailV subjectV messageV endpointV status
           uid now Hn He Hm En K).
    now apply holds_logged.
Qed.

Section Digest.
Variable hashText : jstring -> jstring.

Lemma setupAdmin_within s d emailV pass :
  holds s d -> valid_document d = true ->
  within (setupAdmin hashText emailV pass) "admin" s d.
Proof.
  intros Hl V. assert (U := valid_usable d V).
  destruct (nonempty (trim emailV)) eqn:He.
  2:{ apply within_same; [exact V|].
      ran (setupAdmin_blank hashText s emailV pass (or_introl He)).
      now apply holds_logged. }
  destruct (nonempty pass) eqn:Hp.
  2:{ apply within_same; [exact V|].
      ran (setupAdmin_blank hashText s emailV pass (or_intror Hp)).
      now apply holds_logged. }
  exists (set (str "admin") (new_admin (trim emailV) (hashText pass)) d).
  split; [|split].
  - apply (commits_holds _ _ _ (setupAdmin_run hashText s d emailV pass Hl U He Hp)).
  - apply only_changes_set.
  - apply valid_set_admin; [exact V|reflexivity|reflexivity].
Qed.

End Digest.

End StepFacts.

Import StepFacts.

(** ** Reading, and operations in sequence *)

Module FlowFacts.
Local Arguments str : simpl never.
Local Arguments get : simpl never.
Local Arguments same_str : simpl never.

(** ** Operations that only read *)

Lemma reads_bind {A B} (m : M A) (k : A -> M B) :
  reads_only m -> (forall a, reads_only (k a)) -> reads_only (bind m k).
Proof.
  intros Hm Hk s. unfold after, bind. specialize (Hm s). unfold after in Hm.
  destruct (m s) as [[a|e] s1]; cbn [snd] in *; [|exact Hm].
  rewrite <- Hm. apply Hk.
Qed.

Lemma reads_lift {A} (r : res A) : reads_only (lift r).
Proof. intro; reflexivity. Qed.
Lemma reads_emit e : reads_only (emit e).
Proof. intro; reflexivity. Qed.
Lemma reads_read {A} (f : state -> A) : reads_only (read f).
Proof. intro; reflexivity. Qed.
Lemma reads_found x : reads_only (found x).
Proof. destruct x; intro; reflexivity. Qed.
Lemma reads_loadDB : reads_only loadDB.
Proof.
  intro s. destruct (loadDB_run s) as (d & s1 & E & St & _).
  unfold after. now rewrite E.
Qed.
Lemma reads_updateStats : reads_only updateStats.
Proof. intro s. apply updateStats_frame. Qed.

Ltac quiet :=
  repeat first
    [ apply reads_loadDB | apply reads_lift | apply reads_emit
    | apply reads_read | apply reads_found
    | (intro; reflexivity)
    | apply reads_bind; [|intro]
    | match goal with
      | |- reads_only (if ?b then _ else _) => destruct b
      | |- reads_only (match ?x with Some _ => _ | None => _ end) => destruct x
      end ].

Lemma reads_openThought id : reads_only (openThoughtEditorFor id).
Proof. unfold openThoughtEditorFor, collection, showToast. quiet. Qed.
Lemma reads_openWork id : reads_only (openWorkEditorFor id).
Proof. unfold openWorkEditorFor, collection. quiet. Qed.
Lemma reads_openProject id : reads_only (openProjectEditorFor id).
Proof. unfold openProjectEditorFor, collection. quiet. Qed.
Lemma reads_login hashText emailV pass : reads_only (loginAdmin hashText emailV pass).
Proof. unfold loginAdmin, alert, showToast. quiet. Qed.
Lemma reads_logout : reads_only logout.
Proof. unfold logout, showToast. quiet. Qed.

(** ** One operation after another *)

Lemma then_run {A} (m : M unit) (k : M A) s s1 :
  m s = (Val tt, s1) -> (m ;;; k) s = k s1.
Proof. intros E. unfold bind. now rewrite E. Qed.

Lemma then_outcome {A} (m : M unit) (k : M A) s s1 :
  m s = (Val tt, s1) -> outcome (m ;;; k) s = outcome k s1.
Proof. intros E. unfold outcome. now rewrite (then_run _ _ _ _ E). Qed.

Lemma then_after {A} (m : M unit) (k : M A) s s1 :
  m s = (Val tt, s1) -> after (m ;;; k) s = after k s1.
Proof. intros E. unfold after. now rewrite (then_run _ _ _ _ E). Qed.

(** The editors, opened for a new record. *)
Lemma openThought_new id s :
  is_set id = false ->
  exists s1, openThoughtEditorFor id s = (Val tt, s1)
             /\ storage s1 = storage s /\ editingThoughtId s1 = id.
Proof.
  intros H. unfold openThoughtEditorFor. rewrite H.
  eexists. split; [reflexivity|]. split; reflexivity.
Qed.

Lemma openWork_new id s :
  is_set id = false ->
  exists s1, openWorkEditorFor id s = (Val tt, s1)
             /\ storage s1 = storage s /\ editingWorkId s1 = id.
Proof.
  intros H. unfold openWorkEditorFor. rewrite H.
  eexists. split; [reflexivity|]. split; reflexivity.
Qed.

Lemma openProject_new id s :
  is_set id = false ->
  exists s1, openProjectEditorFor id s = (Val tt, s1)
             /\ storage s1 = storage s /\ editingProjectId s1 = id.
Proof.
  intros H. unfold openProjectEditorFor. rewrite H.
  eexists. split; [reflexivity|]. split; reflexivity.
Qed.

(** The editors, opened on a record of the collection. *)
Lemma openThought_found id t s d :
  holds s d -> usable d = true -> nonempty id = true ->
  find (has_id id) (records "thoughts" d) = Some t ->
  exists s1, openThoughtEditorFor (Some id) s = (Val tt, s1)
             /\ storage s1 = storage s /\ editingThoughtId s1 = Some id.
Proof.
  intros Hl U Hid Hfind.
  destruct (usable_seq _ U) as (S1 & S2 & S3 & S4).
  unfold openThoughtEditorFor. cbn [is_set id_of]. rewrite Hid.
  step. unfold setEditingThought at 1.
  set (s0 := mkState _ _ _ _ _ _).
  assert (H0 : holds s0 d) by (eapply holds_same_storage; [|exact Hl]; reflexivity).
  destruct (same_vars_is _ _ (loaded_vars s0)) as (V1 & _ & _).
  run_load H0.
  step. rewrite (usable_collection _ _ S1).
  step. unfold lift at 1.
  rewrite find_by_id_objects by (now apply records_objects). rewrite Hfind.
  eexists. split; [reflexivity|]. split.
  - cbn [bind emit storage logged]. now rewrite loaded_storage.
  - cbn [bind emit editingThoughtId logged]. now rewrite V1.
Qed.

(** The tags of a work item are strings, and strings can be joined. *)
Lemma joins_strings x : strings x = true -> joins x = Val tt.
Proof.
  destruct x as [[| | | |l|]|]; try discriminate. unfold strings, joins.
  cbn [truthy]. intros H.
  replace (forallb printable l) with true; [reflexivity|].
  symmetry. apply forallb_forall. intros v Hv.
  rewrite forallb_forall in H. specialize (H v Hv).
  destruct v; try discriminate. reflexivity.
Qed.

Lemma work_item_tags t :
  work_item t = true -> is_object t = true /\ strings (field "tags" t) = true.
Proof.
  unfold work_item. intros H.
  apply andb_prop in H as [H _]. apply andb_prop in H as [H _].
  apply andb_prop in H as [H T]. apply andb_prop in H as [R _].
  destruct (record_is _ R) as (O & _). auto.
Qed.

Lemma openWork_found id t s d :
  holds s d -> usable d = true -> nonempty id = true ->
  find (has_id id) (records "work" d) = Some t ->
  work_item t = true ->
  exists s1, openWorkEditorFor (Some id) s = (Val tt, s1)
             /\ storage s1 = storage s /\ editingWorkId s1 = Some id.
Proof.
  intros Hl U Hid Hfind W.
  destruct (usable_seq _ U) as (S1 & S2 & S3 & S4).
  destruct (work_item_tags t W) as (Ot & Tt).
  unfold openWorkEditorFor. cbn [is_set id_of]. rewrite Hid.
  step. unfold setEditingWork at 1.
  set (s0 := mkState _ _ _ _ _ _).
  assert (H0 : holds s0 d) by (eapply holds_same_storage; [|exact Hl]; reflexivity).
  destruct (same_vars_is _ _ (loaded_vars s0)) as (_ & V2 & _).
  step. run_load H0.
  step. rewrite (usable_collection _ _ S2).
  step. unfold lift at 1.
  rewrite find_by_id_objects by (now apply records_objects). rewrite Hfind.
  step. unfold found at 1, ret at 1.
  step. unfold lift at 1. rewrite (get_field "tags" t Ot).
  step. unfold lift at 1. rewrite (joins_strings _ Tt).
  eexists. split; [reflexivity|]. split.
  - cbn [bind emit storage logged]. now rewrite loaded_storage.
  - cbn [bind emit editingWorkId logged]. now rewrite V2.
Qed.

Lemma openProject_found id t s d :
  holds s d -> usable d = true -> nonempty id = true ->
  find (has_id id) (records "projects" d) = Some t ->
  exists s1, openProjectEditorFor (Some id) s = (Val tt, s1)
             /\ storage s1 = storage s /\ editingProjectId s1 = Some id.
Proof.
  intros Hl U Hid Hfind.
  destruct (usable_seq _ U) as (S1 & S2 & S3 & S4).
  unfold openProjectEditorFor. cbn [is_set id_of]. rewrite Hid.
  step. unfold setEditingProject at 1.
  set (s0 := mkState _ _ _ _ _ _).
  assert (H0 : holds s0 d) by (eapply holds_same_storage; [|exact Hl]; reflexivity).
  destruct (same_vars_is _ _ (loaded_vars s0)) as (_ & _ & V3).
  step. run_load H0.
  step. rewrite (usable_collection _ _ S3).
  step. unfold lift at 1.
  rewrite find_by_id_objects by (now apply records_objects). rewrite Hfind.
  eexists. split; [reflexivity|]. split.
  - cbn [bind emit found ret storage logged]. now rewrite loaded_storage.
  - cbn [bind emit found ret editingProjectId logged]. now rewrite V3.
Qed.

(** From the commit of the second operation to what the pair does. *)
Lemma creates_then (m k : M unit) key uid now s s1 d t :
  m s = (Val tt, s1) ->
  usable d = true ->
  commits k s1 (with_collection key (records key d ++ [t]) d) ->
  field "id" t = Some (VStr uid) ->
  field "created" t = Some (VStr now) ->
  field "updated" t = None ->
  creates (m ;;; k) key uid now s d.
Proof.
  intros E U C F1 F2 F3. destruct (commits_holds _ _ _ C) as [O H].
  unfold creates. rewrite (then_outcome _ _ _ _ E), (then_after _ _ _ _ E).
  split; [exact O|]. eexists. split; [exact H|]. now apply appended_push.
Qed.

Lemma edits_then (m k : M unit) key id now f t s s1 d :
  m s = (Val tt, s1) ->
  usable d = true ->
  sequence_of is_object (field key d) = true ->
  find (has_id id) (records key d) = Some t ->
  commits k s1 (with_collection key (update_first id f (records key d)) d) ->
  (forall x, field "id" (f x) = field "id" x) ->
  (forall x, field "created" (f x) = field "created" x) ->
  (forall x, is_object x = true -> field "updated" (f x) = Some (VStr now)) ->
  edits (m ;;; k) key id now s d.
Proof.
  intros E U S Hfind C F1 F2 F3. destruct (commits_holds _ _ _ C) as [O H].
  unfold edits. rewrite (then_outcome _ _ _ _ E), (then_after _ _ _ _ E).
  split; [exact O|]. eexists. split; [exact H|].
  eapply edited_update; eauto using records_objects.
Qed.

(** Nothing has the id once the records that have it are filtered out. *)
Lemma find_filtered id l :
  find (has_id id) (filter (fun x => negb (has_id id x)) l) = None.
Proof.
  induction l as [|x r IH]; [reflexivity|]. cbn [filter].
  destruct (has_id id x) eqn:E; cbn [negb]; [exact IH|].
  cbn [find]. now rewrite E.
Qed.

Lemma existsb_filtered id l :
  existsb (has_id id) (filter (fun x => negb (has_id id x)) l) = false.
Proof.
  induction l as [|x r IH]; [reflexivity|]. cbn [filter].
  destruct (has_id id x) eqn:E; cbn [negb]; [exact IH|].
  cbn [existsb]. now rewrite E.
Qed.

Lemma commits_run m s d :
  commits m s d ->
  exists s1, m s = (Val tt, s1) /\ holds s1 d /\ usable d = true
             /\ same_vars s s1.
Proof.
  intros [(s1 & E & St & V) U]. exists s1. split; [exact E|].
  split; [|split; [exact U|exact V]].
  apply holds_stored; auto using usable_storable.
Qed.

(** ** Admin *)

Lemma get_any k d : d <> VNull -> get (Some d) (str k) = Val (field k d).
Proof. destruct d; try reflexivity. congruence. Qed.

Lemma truthy_not_null c : truthy (Some c) = true -> c <> VNull.
Proof. intros H ->. discriminate. Qed.

Section Digest.
Variable hashText : jstring -> jstring.

Lemma login_run s d emailV pass :
  holds s d -> d <> VNull ->
  exists s1, loginAdmin hashText emailV pass s = (Val tt, s1)
             /\ adminVisible s1 = accepts hashText d emailV pass || adminVisible s.
Proof.
  intros Hl Nd. unfold accepts.
  destruct (loaded_vars s) as (_ & _ & _ & Va).
  destruct (nonempty (trim emailV)) eqn:He.
  2:{ rewrite (loginAdmin_blank hashText s emailV pass (or_introl He)).
      eexists. split; reflexivity. }
  destruct (nonempty pass) eqn:Hp.
  2:{ rewrite (loginAdmin_blank hashText s emailV pass (or_intror Hp)).
      eexists. split; reflexivity. }
  cbn [andb]. unfold loginAdmin. rewrite He, Hp. cbn [negb orb].
  run_load Hl.
  step. unfold lift at 1. rewrite (get_any "admin" d Nd).
  destruct (truthy (field "admin" d)) eqn:Tr; cbn [negb andb orb].
  2:{ eexists. split; [reflexivity|]. exact Va. }
  destruct (field "admin" d) as [c|]; [|discriminate].
  assert (Nc := truthy_not_null c Tr).
  step. unfold lift at 1. rewrite (get_any "email" c Nc).
  destruct (same_str (field "email" c) (trim emailV)); cbn [andb orb].
  2:{ eexists. split; [reflexivity|]. exact Va. }
  step. unfold lift at 1. rewrite (get_any "passHash" c Nc).
  destruct (same_str (field "passHash" c) (hashText pass)); cbn [andb orb].
  2:{ eexists. split; [reflexivity|]. exact Va. }
  eexists. split; reflexivity.
Qed.

End Digest.

Lemma assign_assign k v1 v2 ps : assign k v2 (assign k v1 ps) = assign k v2 ps.
Proof.
  induction ps as [|[k' v'] r IH]; cbn [assign].
  - now rewrite streq_refl.
  - destruct (streq k k') eqn:E; cbn [assign].
    + now rewrite streq_refl.
    + now rewrite E, IH.
Qed.

Lemma set_set k v1 v2 d : set k v2 (set k v1 d) = set k v2 d.
Proof. destruct d; try reflexivity. unfold set. now rewrite assign_assign. Qed.

End FlowFacts.

Import FlowFacts.

(** ** Bytes and digits *)

Module CryptoFacts.
Local Open Scope N_scope.
Local Arguments N.eqb : simpl never.
Local Arguments N.ltb : simpl never.
Local Arguments N.leb : simpl never.
Local Arguments N.div : simpl never.
Local Arguments N.modulo : simpl never.

(** ** Hexadecimal *)

Ltac atoms :=
  repeat match goal with
  | |- context [?a / ?b] => generalize dependent (a / b); intros
  | |- context [?a mod ?b] => generalize dependent (a mod b); intros
  | H : context [?a / ?b] |- _ => generalize dependent (a / b); intros
  | H : context [?a mod ?b] |- _ => generalize dependent (a mod b); intros
  end.

Lemma nibbles b : b < 256 -> b / 16 < 16 /\ b mod 16 < 16 /\ b = 16 * (b / 16) + b mod 16.
Proof.
  intros H. pose proof (N.div_mod b 16 ltac:(lia)).
  pose proof (N.mod_lt b 16 ltac:(lia)). atoms. lia.
Qed.

Lemma log2_16 b : 16 <= b -> exists f, N.to_nat (N.log2 b) = S f.
Proof.
  intros H. pose proof (N.log2_le_mono 16 b H) as L.
  change (N.log2 16) with 4 in L.
  destruct (N.to_nat (N.log2 b)) eqn:E; [lia|eauto].
Qed.

Lemma byte_hex b :
  b < 256 ->
  padStart 2 48 (toString16 b) = [hex_digit (b / 16); hex_digit (b mod 16)].
Proof.
  intros H. destruct (nibbles b H) as (Hh & Hl & Hb).
  unfold toString16. destruct (N.ltb_spec b 16) as [L|L].
  - cbn [radix16]. apply N.ltb_lt in L as L'. rewrite L'.
    rewrite (N.div_small b 16 L), (N.mod_small b 16 L). reflexivity.
  - destruct (log2_16 b L) as [f ->]. cbn [radix16].
    apply N.ltb_ge in L as L'. rewrite L'.
    apply N.ltb_lt in Hh as Hh'. rewrite Hh'. reflexivity.
Qed.

Lemma hex_cons b r :
  b < 256 -> hex (b :: r) = hex_digit (b / 16) :: hex_digit (b mod 16) :: hex r.
Proof. intros H. unfold hex. cbn [map List.concat]. now rewrite byte_hex. Qed.

Lemma octets_cons b r : octets (b :: r) = true -> b < 256 /\ octets r = true.
Proof.
  unfold octets. cbn [forallb]. intros H. apply andb_prop in H as [H1 H2].
  apply N.ltb_lt in H1. auto.
Qed.

Lemma hex_digit_is_hex d : d < 16 -> is_hex (hex_digit d) = true.
Proof.
  intros H. unfold hex_digit, is_hex. destruct (N.ltb_spec d 10).
  - replace (48 <=? 48 + d) with true by (symmetry; apply N.leb_le; lia).
    replace (48 + d <=? 57) with true by (symmetry; apply N.leb_le; lia).
    reflexivity.
  - replace (97 <=? 87 + d) with true by (symmetry; apply N.leb_le; lia).
    replace (87 + d <=? 102) with true by (symmetry; apply N.leb_le; lia).
    apply orb_true_r.
Qed.

Lemma hex_digit_inj a b : a < 16 -> b < 16 -> hex_digit a = hex_digit b -> a = b.
Proof.
  unfold hex_digit. intros Ha Hb.
  destruct (N.ltb_spec a 10), (N.ltb_spec b 10); lia.
Qed.

Lemma hex_length bytes :
  octets bytes = true -> List.length (hex bytes) = (2 * List.length bytes)%nat.
Proof.
  induction bytes as [|b r IH]; [reflexivity|]. intros H.
  destruct (octets_cons _ _ H) as [Hb Hr]. rewrite hex_cons by exact Hb.
  cbn [List.length]. rewrite IH by exact Hr. lia.
Qed.

Lemma hex_is_hex bytes : octets bytes = true -> forallb is_hex (hex bytes) = true.
Proof.
  induction bytes as [|b r IH]; [reflexivity|]. intros H.
  destruct (octets_cons _ _ H) as [Hb Hr]. rewrite hex_cons by exact Hb.
  destruct (nibbles b Hb) as (Hh & Hl & _).
  cbn [forallb]. now rewrite !hex_digit_is_hex, IH.
Qed.

Lemma hex_inj a : forall b,
  octets a = true -> octets b = true -> hex a = hex b -> a = b.
Proof.
  induction a as [|x a IH]; intros [|y b] Ha Hb E.
  - reflexivity.
  - destruct (octets_cons _ _ Hb) as [Hy _]. rewrite hex_cons in E by exact Hy.
    discriminate.
  - destruct (octets_cons _ _ Ha) as [Hx _]. rewrite hex_cons in E by exact Hx.
    discriminate.
  - destruct (octets_cons _ _ Ha) as [Hx Ha'].
    destruct (octets_cons _ _ Hb) as [Hy Hb'].
    rewrite !hex_cons in E by assumption.
    injection E as E1 E2 E3.
    destruct (nibbles x Hx) as (X1 & X2 & X3).
    destruct (nibbles y Hy) as (Y1 & Y2 & Y3).
    apply hex_digit_inj in E1; [|assumption..].
    apply hex_digit_inj in E2; [|assumption..].
    f_equal; [|now apply IH]. rewrite X3, Y3, E1, E2. reflexivity.
Qed.

(** ** UTF-8 *)

Lemma parts p :
  p = 64 * (p / 64) + p mod 64 /\ p mod 64 < 64
  /\ p / 64 = 64 * (p / 4096) + p / 64 mod 64 /\ p / 64 mod 64 < 64
  /\ p / 4096 = 64 * (p / 262144) + p / 4096 mod 64 /\ p / 4096 mod 64 < 64.
Proof.
  replace (p / 4096) with (p / 64 / 64)
    by (rewrite N.Div0.div_div; reflexivity).
  replace (p / 262144) with (p / 64 / 64 / 64)
    by (rewrite !N.Div0.div_div; reflexivity).
  repeat split;
    first [apply N.div_mod; lia | apply N.mod_lt; lia].
Qed.

Lemma cons_eq (A : Type) (a b : A) l m : a :: l = b :: m -> a = b /\ l = m.
Proof. intros H. injection H. auto. Qed.

Ltac cases_utf8 p :=
  unfold utf8;
  destruct (N.ltb_spec p 128); [|destruct (N.ltb_spec p 2048);
                                  [|destruct (N.ltb_spec p 65536)]].

Lemma utf8_prefix p q r r' :
  p < 1114112 -> q < 1114112 ->
  utf8 p ++ r = utf8 q ++ r' -> p = q /\ r = r'.
Proof.
  intros Hp Hq. pose proof (parts p) as Pp. pose proof (parts q) as Pq.
  cases_utf8 p; cases_utf8 q; rewrite <- ?app_comm_cons, ?app_nil_l;
    intros E;
    repeat match goal with
           | H : _ :: _ = _ :: _ |- _ => apply cons_eq in H as [? ?]
           end;
    atoms; (split; [lia|]); first [assumption | exfalso; lia].
Qed.

Lemma utf8_nonempty p : utf8 p <> [].
Proof. cases_utf8 p; discriminate. Qed.

Lemma utf8_list_inj ps : forall qs,
  Forall (fun p => p < 1114112) ps -> Forall (fun p => p < 1114112) qs ->
  flat_map utf8 ps = flat_map utf8 qs -> ps = qs.
Proof.
  induction ps as [|p ps IH]; intros [|q qs] Hp Hq E; cbn [flat_map] in E.
  - reflexivity.
  - symmetry in E. apply app_eq_nil in E as [E _]. now apply utf8_nonempty in E.
  - apply app_eq_nil in E as [E _]. now apply utf8_nonempty in E.
  - inversion Hp; inversion Hq; subst.
    apply utf8_prefix in E as [-> E]; [|assumption..].
    f_equal. now apply IH.
Qed.

(** ** Code points *)

Lemma lead_range c : is_lead c = true <-> 55296 <= c <= 56319.
Proof.
  unfold is_lead. rewrite andb_true_iff, !N.leb_le. reflexivity.
Qed.

Lemma trail_range c : is_trail c = true <-> 56320 <= c <= 57343.
Proof.
  unfold is_trail. rewrite andb_true_iff, !N.leb_le. reflexivity.
Qed.

Lemma not_lead c : is_lead c = false <-> c < 55296 \/ 56319 < c.
Proof.
  unfold is_lead. rewrite andb_false_iff, !N.leb_gt. tauto.
Qed.

Lemma not_trail c : is_trail c = false <-> c < 56320 \/ 57343 < c.
Proof.
  unfold is_trail. rewrite andb_false_iff, !N.leb_gt. tauto.
Qed.

Lemma code_units_cons c r :
  code_units (c :: r) = true -> c < 65536 /\ code_units r = true.
Proof.
  unfold code_units. cbn [forallb]. intros H. apply andb_prop in H as [H1 H2].
  apply N.ltb_lt in H1. auto.
Qed.

Lemma code_points_range_aux n : forall s,
  (List.length s <= n)%nat -> code_units s = true ->
  Forall (fun p => p < 1114112) (code_points s).
Proof.
  induction n as [|n IH]; intros [|c r] L U; cbn [List.length] in L;
    try (constructor; fail); try lia.
  destruct (code_units_cons _ _ U) as [Hc Ur]. cbn [code_points].
  destruct (is_lead c) eqn:Lc.
  - apply lead_range in Lc. destruct r as [|d r']; [repeat constructor|].
    destruct (code_units_cons _ _ Ur) as [Hd Ur'].
    destruct (is_trail d) eqn:Td.
    + apply trail_range in Td. constructor; [lia|].
      apply IH; [cbn [List.length] in L; lia|exact Ur'].
    + constructor; [lia|]. apply IH; [lia|exact Ur].
  - destruct (is_trail c); (constructor; [lia|]); apply IH; first [lia|exact Ur].
Qed.

Lemma code_points_range s :
  code_units s = true -> Forall (fun p => p < 1114112) (code_points s).
Proof. apply (code_points_range_aux (List.length s)). lia. Qed.

Lemma code_points_inj_aux n : forall s t,
  (List.length s <= n)%nat ->
  code_units s = true -> code_units t = true ->
  well_formed s = true -> well_formed t = true ->
  code_points s = code_points t -> s = t.
Proof.
  induction n as [|n IH]; intros s t L Us Ut Ws Wt E.
  - destruct s; [|cbn [List.length] in L; lia].
    destruct t as [|c r]; [reflexivity|].
    cbn [code_points well_formed] in *.
    destruct (is_lead c); [destruct r; [discriminate|]|].
    + destruct (is_trail n); discriminate.
    + destruct (is_trail c); discriminate.
  - destruct s as [|c r].
    { destruct t as [|c2 r2]; [reflexivity|].
      cbn [code_points well_formed] in *.
      destruct (is_lead c2); [destruct r2 as [|d2 r2']; [discriminate|]|].
      + destruct (is_trail d2); discriminate.
      + destruct (is_trail c2); discriminate. }
    destruct t as [|c2 r2].
    { cbn [code_points well_formed] in *.
      destruct (is_lead c); [destruct r as [|d r']; [discriminate|]|].
      + destruct (is_trail d); discriminate.
      + destruct (is_trail c); discriminate. }
    destruct (code_units_cons _ _ Us) as [Hc Ur].
    destruct (code_units_cons _ _ Ut) as [Hc2 Ur2].
    cbn [code_points well_formed List.length] in *.
    destruct (is_lead c) eqn:Lc.
    + destruct r as [|d r']; [discriminate|].
      apply andb_prop in Ws as [Td Wr]. rewrite Td in E.
      apply lead_range in Lc. apply trail_range in Td.
      destruct (code_units_cons _ _ Ur) as [Hd Ur'].
      destruct (is_lead c2) eqn:Lc2.
      * destruct r2 as [|d2 r2']; [discriminate|].
        apply andb_prop in Wt as [Td2 Wr2]. rewrite Td2 in E.
        apply lead_range in Lc2. apply trail_range in Td2.
        destruct (code_units_cons _ _ Ur2) as [Hd2 Ur2'].
        apply cons_eq in E as [E1 E2].
        assert (c = c2 /\ d = d2) as [-> ->] by lia.
        do 2 f_equal. apply IH; try assumption. cbn [List.length] in L. lia.
      * apply andb_prop in Wt as [Tc2 Wr2]. apply negb_true_iff in Tc2.
        rewrite Tc2 in E. apply cons_eq in E as [E1 E2]. exfalso. lia.
    + apply andb_prop in Ws as [Tc Wr]. apply negb_true_iff in Tc.
      rewrite Tc in E.
      destruct (is_lead c2) eqn:Lc2.
      * destruct r2 as [|d2 r2']; [discriminate|].
        apply andb_prop in Wt as [Td2 Wr2]. rewrite Td2 in E.
        apply lead_range in Lc2. apply trail_range in Td2.
        apply cons_eq in E as [E1 E2]. exfalso. lia.
      * apply andb_prop in Wt as [Tc2 Wr2]. apply negb_true_iff in Tc2.
        rewrite Tc2 in E. apply cons_eq in E as [-> E2].
        f_equal. apply IH; try assumption. lia.
Qed.

Lemma encode_inj s t :
  code_units s = true -> code_units t = true ->
  well_formed s = true -> well_formed t = true ->
  encode s = encode t -> s = t.
Proof.
  intros Us Ut Ws Wt E.
  apply (code_points_inj_aux (List.length s)); try assumption; [lia|].
  apply utf8_list_inj; auto using code_points_range.
Qed.

Lemma encode_octets s : code_units s = true -> octets (encode s) = true.
Proof.
  intros U. pose proof (code_points_range s U) as R. unfold encode.
  induction R as [|p ps Hp _ IH]; [reflexivity|].
  cbn [flat_map]. unfold octets in *. rewrite forallb_app, IH, andb_true_r.
  pose proof (parts p) as Pp.
  cases_utf8 p; cbn [forallb]; rewrite ?andb_true_r, ?andb_true_iff, ?N.ltb_lt;
    atoms; lia.
Qed.

End CryptoFacts.

Import CryptoFacts.

(** ** Reading the indented text *)

Module DownloadFacts.
Local Open Scope N_scope.
Local Arguments N.eqb : simpl never.
Local Arguments N.ltb : simpl never.
Local Arguments N.leb : simpl never.

Lemma skip_ws_blank w s : blank w = true -> skip_ws (w ++ s) = skip_ws s.
Proof.
  induction w as [|c w IH]; [reflexivity|]. unfold blank. cbn [forallb].
  intros H. apply andb_prop in H as [H1 H2]. cbn [app skip_ws]. rewrite H1.
  now apply IH.
Qed.

Lemma skip_ws_idem s : skip_ws (skip_ws s) = skip_ws s.
Proof.
  induction s as [|c r IH]; [reflexivity|]. cbn [skip_ws].
  destruct (is_ws c) eqn:E; [exact IH|]. cbn [skip_ws]. now rewrite E.
Qed.

Lemma parse_value_skip fuel s : parse_value fuel (skip_ws s) = parse_value fuel s.
Proof. destruct fuel; [reflexivity|]. cbn [parse_value]. now rewrite skip_ws_idem. Qed.

Lemma parse_value_blank fuel w s :
  blank w = true -> parse_value fuel (w ++ s) = parse_value fuel s.
Proof.
  intros H. rewrite <- parse_value_skip, skip_ws_blank by exact H.
  apply parse_value_skip.
Qed.

Lemma blank_app a b : blank a = true -> blank b = true -> blank (a ++ b) = true.
Proof. unfold blank. intros. rewrite forallb_app. now apply andb_true_intro. Qed.

Lemma blank_line ind : blank ind = true -> blank (10 :: ind) = true.
Proof. intros H. exact H. Qed.

Lemma blank_gap ind : blank ind = true -> blank (ind ++ gap) = true.
Proof. intros H. now apply blank_app. Qed.

Lemma join_with_cons2 sep x y l :
  join_with sep (x :: y :: l) = x ++ sep ++ join_with sep (y :: l).
Proof. reflexivity. Qed.

(** The elements of an indented array: [w1] before each element, [w2]
    before the closing bracket. *)
Lemma parse_elems_lines pv (P : value -> jstring) w1 w2 l : forall rest n,
  l <> [] ->
  blank w1 = true -> blank w2 = true ->
  Forall (fun x => forall w rest, blank w = true ->
                                  pv (w ++ P x ++ rest) = Some (x, rest)) l ->
  (List.length l <= n)%nat ->
  parse_elems pv n
    (w1 ++ join_with (44 :: w1) (map P l) ++ w2 ++ 93 :: rest)
  = Some (l, rest).
Proof.
  induction l as [|x l IH]; intros rest n Hne B1 B2 HF Hn; [congruence|].
  destruct n as [|n]; [cbn [List.length] in Hn; lia|].
  inversion HF as [|? ? Hx HF']; subst.
  destruct l as [|y l].
  - cbn [map join_with parse_elems]. rewrite (Hx w1 _ B1).
    rewrite skip_ws_blank by exact B2.
    rewrite skip_ws_cons by reflexivity. reflexivity.
  - cbn [map]. rewrite join_with_cons2. rewrite <- !app_assoc.
    cbn [parse_elems]. rewrite (Hx w1 _ B1). cbn [app].
    rewrite skip_ws_cons by reflexivity.
    change (44 =? 44) with true. cbv iota.
    change (P y :: map P l) with (map P (y :: l)).
    rewrite IH; [reflexivity|discriminate|assumption..|cbn [List.length] in *; lia].
Qed.

Lemma parse_members_lines pv (P : value -> jstring) w1 w2 ps : forall rest n,
  ps <> [] ->
  blank w1 = true -> blank w2 = true ->
  Forall (fun kv => forall w rest,
            blank w = true ->
            pv (w ++ P (snd kv) ++ rest) = Some (snd kv, rest)) ps ->
  (List.length ps <= n)%nat ->
  parse_members pv n
    (w1 ++ join_with (44 :: w1) (map (pretty_member P) ps)
     ++ w2 ++ 125 :: rest)
  = Some (ps, rest).
Proof.
  induction ps as [|[k x] ps IH]; intros rest n Hne B1 B2 HF Hn; [congruence|].
  destruct n as [|n]; [cbn [List.length] in Hn; lia|].
  inversion HF as [|? ? Hx HF']; subst. cbn [snd] in Hx.
  assert (Hstep : forall tail,
    parse_members pv (S n) (w1 ++ pretty_member P (k, x) ++ tail) =
    match skip_ws tail with
    | c :: r4 =>
        if c =? 44 then
          match parse_members pv n r4 with
          | Some (ms, rest) => Some ((k, x) :: ms, rest)
          | None => None
          end
        else if c =? 125 then Some ([(k, x)], r4)
        else None
    | [] => None
    end).
  { intros tail. unfold pretty_member, quote. cbn [fst snd parse_members].
    rewrite skip_ws_blank by exact B1. cbn [app].
    rewrite skip_ws_cons by reflexivity.
    change (34 =? 34) with true. cbv iota.
    repeat rewrite <- app_assoc. cbn [app].
    rewrite parse_quote. rewrite skip_ws_cons by reflexivity.
    change (58 =? 58) with true. cbv iota.
    assert (Hx' := Hx [32] tail eq_refl). cbn [app] in Hx'.
    rewrite Hx'. reflexivity. }
  destruct ps as [|kv ps].
  - cbn [map join_with]. rewrite Hstep.
    rewrite skip_ws_blank by exact B2.
    rewrite skip_ws_cons by reflexivity. reflexivity.
  - cbn [map]. rewrite join_with_cons2. rewrite <- !app_assoc. rewrite Hstep.
    cbn [app]. rewrite skip_ws_cons by reflexivity.
    change (44 =? 44) with true. cbv iota.
    change (pretty_member P kv :: map (pretty_member P) ps)
      with (map (pretty_member P) (kv :: ps)).
    rewrite IH; [reflexivity|discriminate|assumption..|cbn [List.length] in *; lia].
Qed.

Lemma join_with_length (A : Type) sep (f : A -> jstring) (l : list A) :
  Forall (fun x => 1 <= List.length (f x))%nat l ->
  (List.length l <= List.length (join_with sep (map f l)))%nat.
Proof.
  induction l as [|x l IH]; intros H; [cbn; lia|].
  inversion H as [|? ? Hx Hl]; subst.
  destruct l as [|y l]; [cbn in *; lia|].
  specialize (IH Hl). cbn [map] in *.
  rewrite join_with_cons2, !length_app. cbn [List.length] in *. lia.
Qed.

Lemma join_with_covers (A : Type) sep (f : A -> jstring) l x :
  In x l -> (List.length (f x) <= List.length (join_with sep (map f l)))%nat.
Proof.
  induction l as [|y l IH]; [intros []|].
  intros [->|H].
  - destruct l; [cbn [map join_with]; lia|].
    cbn [map]. rewrite join_with_cons2, length_app. lia.
  - destruct l as [|z l]; [destruct H|]. cbn [map] in *.
    rewrite join_with_cons2, !length_app. specialize (IH H). lia.
Qed.

Lemma pretty_opens ind v :
  storable v = true -> exists c r, pretty ind v = c :: r /\ opens c.
Proof.
  unfold opens; destruct v as [|[]| | |[|x l]|[|kv ps]]; cbn [pretty stringify storable];
    try discriminate; intros _;
    eexists; eexists; (split; [reflexivity|]); tauto.
Qed.

Lemma pretty_length ind v :
  storable v = true -> (1 <= List.length (pretty ind v))%nat.
Proof.
  intros H. destruct (pretty_opens ind v H) as (c & r & E & _).
  rewrite E. cbn [List.length]. lia.
Qed.

Lemma pretty_member_nonempty P kv : (1 <= List.length (pretty_member P kv))%nat.
Proof. unfold pretty_member, quote. cbn [app List.length]. lia. Qed.

Lemma pretty_members ind ps :
  map (fun kv => quote (fst kv) ++ 58 :: 32 :: pretty ind (snd kv)) ps
  = map (pretty_member (pretty ind)) ps.
Proof. reflexivity. Qed.

Lemma parse_value_pretty v :
  storable v = true ->
  forall fuel ind rest, blank ind = true -> (depth v < fuel)%nat ->
  parse_value fuel (pretty ind v ++ rest) = Some (v, rest).
Proof.
  induction v as [|b|lit|s|l IH|ps IH] using value_induction;
    intros St fuel ind rest B Hd;
    try (apply (parse_value_stringify _ St fuel rest Hd)).
  - destruct fuel as [|f]; [lia|].
    destruct l as [|x l]; [reflexivity|].
    cbn [storable depth] in *.
    assert (Hall : Forall (fun x => forall w rest,
               blank w = true ->
               parse_value f (w ++ pretty (ind ++ gap) x ++ rest)
               = Some (x, rest)) (x :: l)).
    { apply forallb_Forall in St.
      assert (Hd' : Forall (fun d => (d < f)%nat) (map depth (x :: l)))
        by (apply list_max_le_each; lia).
      rewrite Forall_map in Hd'.
      rewrite Forall_forall in *. intros y Hy w rest' Bw.
      rewrite parse_value_blank by exact Bw.
      apply IH; auto using blank_gap. }
    assert (Hx : storable x = true)
      by (cbn [forallb] in St; now apply andb_prop in St).
    destruct (pretty_opens (ind ++ gap) x Hx) as (c & r & E & Ho).
    set (w1 := 10 :: ind ++ gap). set (w2 := 10 :: ind).
    assert (B1 : blank w1 = true) by (apply blank_line, blank_gap, B).
    assert (B2 : blank w2 = true) by (apply blank_line, B).
    assert (T : pretty ind (VArr (x :: l)) ++ rest
                = 91 :: w1 ++ join_with (44 :: w1)
                                (map (pretty (ind ++ gap)) (x :: l))
                  ++ w2 ++ 93 :: rest).
    { unfold w1, w2. cbn [pretty app]. rewrite <- !app_assoc. cbn [app].
      rewrite <- !app_assoc. reflexivity. }
    rewrite T. cbn [parse_value].
    rewrite skip_ws_cons by reflexivity. lits.
    assert (Hskip : exists r',
              skip_ws (w1 ++ join_with (44 :: w1)
                               (map (pretty (ind ++ gap)) (x :: l))
                       ++ w2 ++ 93 :: rest) = c :: r').
    { rewrite skip_ws_blank by exact B1.
      destruct l; cbn [map join_with]; rewrite E; [|rewrite <- !app_assoc];
        cbn [app]; rewrite skip_ws_cons by (now apply opens_not_ws); eauto. }
    destruct Hskip as (r' & ->).
    replace (c =? 93) with false
      by (symmetry; apply N.eqb_neq; unfold opens in Ho; lia).
    rewrite parse_elems_lines; [reflexivity|discriminate|assumption..|].
    rewrite !length_app.
    apply forallb_Forall in St.
    assert (L := join_with_length _ (44 :: w1) (pretty (ind ++ gap)) (x :: l)
                   (Forall_impl _ (pretty_length (ind ++ gap)) St)).
    lia.
  - destruct fuel as [|f]; [lia|].
    destruct ps as [|[k x] ps]; [reflexivity|].
    cbn [storable depth] in *.
    apply andb_prop in St as [Hk St].
    assert (Hall : Forall (fun kv => forall w rest,
               blank w = true ->
               parse_value f (w ++ pretty (ind ++ gap) (snd kv) ++ rest)
               = Some (snd kv, rest)) ((k, x) :: ps)).
    { apply forallb_Forall in St.
      assert (Hd' : Forall (fun d => (d < f)%nat)
                           (map (fun kv => depth (snd kv)) ((k, x) :: ps)))
        by (apply list_max_le_each; lia).
      rewrite Forall_map in Hd'.
      rewrite Forall_forall in *. intros y Hy w rest' Bw.
      rewrite parse_value_blank by exact Bw.
      apply IH; auto using blank_gap. }
    set (w1 := 10 :: ind ++ gap). set (w2 := 10 :: ind).
    assert (B1 : blank w1 = true) by (apply blank_line, blank_gap, B).
    assert (B2 : blank w2 = true) by (apply blank_line, B).
    assert (T : pretty ind (VObj ((k, x) :: ps)) ++ rest
                = 123 :: w1 ++ join_with (44 :: w1)
                                 (map (pretty_member (pretty (ind ++ gap)))
                                    ((k, x) :: ps))
                  ++ w2 ++ 125 :: rest).
    { unfold w1, w2. cbn [pretty]. rewrite pretty_members.
      cbn [app]. rewrite <- !app_assoc. cbn [app].
      rewrite <- !app_assoc. reflexivity. }
    rewrite T. cbn [parse_value].
    rewrite skip_ws_cons by reflexivity. lits.
    assert (Hskip : exists r',
              skip_ws (w1 ++ join_with (44 :: w1)
                               (map (pretty_member (pretty (ind ++ gap)))
                                  ((k, x) :: ps))
                       ++ w2 ++ 125 :: rest) = 34 :: r').
    { rewrite skip_ws_blank by exact B1.
      destruct ps; cbn [map join_with]; unfold pretty_member at 1, quote;
        cbn [fst app]; [|rewrite <- !app_assoc; cbn [app]];
        rewrite skip_ws_cons by reflexivity; eauto. }
    destruct Hskip as (r' & ->). lits.
    rewrite parse_members_lines; [|discriminate|assumption..|].
    + now rewrite build_distinct.
    + rewrite !length_app.
      assert (J := join_with_length _ (44 :: w1)
                     (pretty_member (pretty (ind ++ gap))) ((k, x) :: ps)
                     (proj2 (Forall_forall _ _)
                        (fun kv _ => pretty_member_nonempty _ kv))).
      lia.
Qed.

Lemma pretty_member_length P kv :
  (List.length (P (snd kv)) <= List.length (pretty_member P kv))%nat.
Proof. unfold pretty_member. rewrite length_app. cbn [List.length]. lia. Qed.

Lemma depth_pretty v : forall ind, (depth v <= List.length (pretty ind v))%nat.
Proof.
  induction v as [|b|lit|s|l IH|ps IH] using value_induction; intros ind;
    try (cbn; lia).
  - destruct l as [|x l]; [cbn; lia|].
    cbn [depth pretty List.length]. rewrite !length_app.
    set (sep := 44 :: 10 :: ind ++ gap).
    assert (list_max (map depth (x :: l))
            <= List.length (join_with sep
                              (map (pretty (ind ++ gap)) (x :: l))))%nat.
    { apply list_max_le. rewrite Forall_map.
      rewrite Forall_forall in *. intros y Hy.
      specialize (IH y Hy (ind ++ gap)).
      assert (J := join_with_covers _ sep
                     (pretty (ind ++ gap)) (x :: l) y Hy). lia. }
    lia.
  - destruct ps as [|kv ps]; [cbn; lia|].
    cbn [depth pretty List.length]. rewrite pretty_members, !length_app.
    set (sep := 44 :: 10 :: ind ++ gap).
    assert (list_max (map (fun kv => depth (snd kv)) (kv :: ps))
            <= List.length (join_with sep
                              (map (pretty_member (pretty (ind ++ gap)))
                                 (kv :: ps))))%nat.
    { apply list_max_le. rewrite Forall_map.
      rewrite Forall_forall in *. intros y Hy.
      specialize (IH y Hy (ind ++ gap)).
      assert (J := join_with_covers _ sep
                     (pretty_member (pretty (ind ++ gap))) (kv :: ps) y Hy).
      assert (K := pretty_member_length (pretty (ind ++ gap)) y). lia. }
    lia.
Qed.

Lemma parse_pretty v : storable v = true -> parse (pretty [] v) = Val v.
Proof.
  intros H. unfold parse.
  rewrite <- (app_nil_r (pretty [] v)) at 2.
  rewrite parse_value_pretty; [reflexivity|assumption|reflexivity|].
  assert (D := depth_pretty v []). lia.
Qed.

End DownloadFacts.

Import DownloadFacts.

(** ** Categories *)

Module ViewFacts.
Local Arguments str : simpl never.
Local Arguments get : simpl never.
Local Arguments same_str : simpl never.

Lemma thought_category t :
  thought t = true ->
  is_object t = true /\ exists c, field "category" t = Some (VStr c).
Proof.
  unfold thought. intros H.
  apply andb_prop in H as [H _]. apply andb_prop in H as [H _].
  apply andb_prop in H as [H C]. apply andb_prop in H as [R _].
  destruct (record_is _ R) as (O & _). split; [exact O|].
  destruct (field "category" t) as [[]|]; try discriminate. eauto.
Qed.

Lemma category_shown_thought t :
  thought t = true -> category_shown t = Val (VStr (category_text t)).
Proof.
  intros H. destruct (thought_category t H) as (O & c & E).
  unfold category_shown, category_text. rewrite (get_field "category" t O), E.
  cbn [truthy]. destruct (nonempty c); reflexivity.
Qed.

Lemma map_res_thoughts l :
  forallb thought l = true ->
  map_res category_shown l = Val (map (fun t => VStr (category_text t)) l).
Proof.
  induction l as [|t l IH]; [reflexivity|]. cbn [forallb]. intros H.
  apply andb_prop in H as [Ht Hl]. cbn [map_res map].
  now rewrite (category_shown_thought t Ht), (IH Hl).
Qed.

Lemma existsb_strings same_number c acc :
  existsb (same_value_zero same_number (VStr c)) (map VStr acc) = mem c acc.
Proof.
  induction acc as [|a acc IH]; [reflexivity|].
  cbn [map existsb mem same_value_zero]. now rewrite IH.
Qed.

Lemma members_strings same_number l : forall acc,
  distinct acc = true ->
  exists cs,
    fold_left (add_member same_number) (map VStr l) (map VStr acc)
    = map VStr cs
    /\ distinct cs = true
    /\ forall c, mem c cs = mem c acc || mem c l.
Proof.
  induction l as [|x l IH]; intros acc D.
  - exists acc. split; [reflexivity|]. split; [exact D|].
    intros c. now rewrite orb_false_r.
  - cbn [map fold_left]. unfold add_member at 2.
    rewrite existsb_strings. destruct (mem x acc) eqn:E.
    + destruct (IH acc D) as (cs & F & Dc & M). exists cs.
      split; [exact F|]. split; [exact Dc|]. intros c. rewrite M.
      cbn [mem]. destruct (streq c x) eqn:S; [|reflexivity].
      apply streq_eq in S. subst. now rewrite E.
    + change [VStr x] with (map VStr [x]). rewrite <- map_app.
      destruct (IH (acc ++ [x]) (distinct_snoc _ _ D E)) as (cs & F & Dc & M).
      exists cs. split; [exact F|]. split; [exact Dc|]. intros c. rewrite M.
      rewrite mem_app. cbn [mem]. now rewrite orb_false_r, orb_assoc.
Qed.

End ViewFacts.

Import ViewFacts.

(** ** Saving a message that cannot be counted *)

Module RelayFacts.
Local Arguments str : simpl never.
Local Arguments get : simpl never.
Local Arguments same_str : simpl never.

Lemma collection_array k d l s :
  field k d = Some (VArr l) -> collection k d s = (Val l, s).
Proof.
  intros F. assert (O : is_object d = true) by (destruct d; try discriminate; reflexivity).
  unfold collection, bind, lift. now rewrite (get_field k d O), F.
Qed.

Lemma counted_messages l d :
  is_object d = true ->
  counted (with_collection "messages" l d)
  = has_length (field "thoughts" d) && has_length (field "projects" d).
Proof.
  intros O. unfold counted.
  rewrite !field_with_collection_other by reflexivity.
  rewrite field_with_collection_same by exact O. apply andb_true_r.
Qed.

Lemma saveLocalMessage_raises s d ms uid name email subject message now :
  holds s d -> storable d = true ->
  field "messages" d = Some (VArr ms) -> counted d = false ->
  let d1 := with_collection "messages"
              (ms ++ [new_message uid (payload_of name email subject message now)])
              d in
  exists s', saveLocalMessage (payload_of name email subject message now) uid s
             = (Throw TypeError, s')
             /\ holds s' d1 /\ storable d1 = true
             /\ field "messages" d1
                = Some (VArr (ms ++ [new_message uid
                                       (payload_of name email subject message now)]))
             /\ counted d1 = false.
Proof.
  intros Hl S F C d1.
  assert (O : is_object d = true) by (destruct d; try discriminate; reflexivity).
  assert (Sm : forallb storable ms = true).
  { pose proof (records_storable "messages" d S) as R.
    unfold records in R. now rewrite F in R. }
  assert (S1 : storable d1 = true).
  { apply storable_set; [exact S|]. cbn [storable].
    apply forallb_snoc; [exact Sm|apply new_message_storable]. }
  assert (C1 : counted d1 = false).
  { unfold d1. rewrite counted_messages by exact O.
    unfold counted in C. rewrite F in C. cbn [has_length] in C.
    now rewrite andb_true_r in C. }
  destruct (saveDB_raises d1 (loaded s) S1 C1) as (s' & E & H').
  exists s'. split; [|split; [exact H'|split; [exact S1|split; [|exact C1]]]].
  - unfold saveLocalMessage. run_load Hl.
    step. rewrite (collection_array _ _ _ _ F). exact E.
  - apply field_with_collection_same, O.
Qed.

Lemma with_collection_twice k l1 l2 d :
  with_collection k l2 (with_collection k l1 d) = with_collection k l2 d.
Proof. apply set_set. Qed.

End RelayFacts.

Import RelayFacts.

(** ** The editing variables *)

Module EditingFacts.
Local Arguments str : simpl never.
Local Arguments get : simpl never.
Local Arguments same_str : simpl never.

Lemma keeps_bind {A B} (m : M A) (k : A -> M B) :
  keeps_editing m -> (forall a, keeps_editing (k a)) -> keeps_editing (bind m k).
Proof.
  intros Hm Hk s. unfold after, bind. specialize (Hm s). unfold after in Hm.
  destruct (m s) as [[a|e] s1]; cbn [snd] in *; [|exact Hm].
  destruct Hm as (H1 & H2 & H3). rewrite <- H1, <- H2, <- H3. apply Hk.
Qed.

Lemma keeps_try {A} (m : M A) (h : exn -> M A) :
  keeps_editing m -> (forall e, keeps_editing (h e)) -> keeps_editing (try_catch m h).
Proof.
  intros Hm Hh s. unfold after, try_catch. specialize (Hm s). unfold after in Hm.
  destruct (m s) as [[a|e] s1]; cbn [snd] in *; [exact Hm|].
  destruct Hm as (H1 & H2 & H3). rewrite <- H1, <- H2, <- H3. apply Hh.
Qed.

Lemma keeps_lift {A} (r : res A) : keeps_editing (lift r).
Proof. intro; repeat split. Qed.
Lemma keeps_emit e : keeps_editing (emit e).
Proof. intro; repeat split. Qed.
Lemma keeps_read {A} (f : state -> A) : keeps_editing (read f).
Proof. intro; repeat split. Qed.
Lemma keeps_found x : keeps_editing (found x).
Proof. destruct x; intro; repeat split. Qed.
Lemma keeps_file f : keeps_editing (fileToBase64 f).
Proof. destruct f; intro; repeat split. Qed.
Lemma keeps_panel b : keeps_editing (setAdminVisible b).
Proof. intro; repeat split. Qed.
Lemma keeps_loadDB : keeps_editing loadDB.
Proof. intro s. apply (same_vars_is _ _ (loaded_vars s)). Qed.
Lemma keeps_saveDB d : keeps_editing (saveDB d).
Proof. intro s. apply same_vars_is, saveDB_frame. Qed.

Ltac kept :=
  repeat first
    [ apply keeps_loadDB | apply keeps_saveDB | apply keeps_lift
    | apply keeps_emit | apply keeps_read | apply keeps_found
    | apply keeps_file | apply keeps_panel
    | apply keeps_bind; [|intro]
    | apply keeps_try; [|intro]
    | match goal with
      | |- keeps_editing (if ?b then _ else _) => destruct b
      | |- keeps_editing (match ?x with Some _ => _ | None => _ end) => destruct x
      | |- keeps_editing (match ?x with Response _ => _ | NoResponse => _ end) =>
          destruct x
      end ].

Lemma keeps_saveThought titleV categoryV contentV file uid now :
  keeps_editing (saveThought titleV categoryV contentV file uid now).
Proof. unfold saveThought, collection, alert, showToast. cbv zeta. kept. Qed.
Lemma keeps_saveWork titleV tagsV contentV file uid now :
  keeps_editing (saveWork titleV tagsV contentV file uid now).
Proof. unfold saveWork, collection, alert, showToast. cbv zeta. kept. Qed.
Lemma keeps_saveProject titleV linkV descV file uid now :
  keeps_editing (saveProject titleV linkV descV file uid now).
Proof. unfold saveProject, collection, alert, showToast. cbv zeta. kept. Qed.
Lemma keeps_deleteThought id : keeps_editing (deleteThought id).
Proof. unfold deleteThought, collection, showToast. kept. Qed.
Lemma keeps_deleteWork id : keeps_editing (deleteWork id).
Proof. unfold deleteWork, collection, showToast. kept. Qed.
Lemma keeps_deleteProject id : keeps_editing (deleteProject id).
Proof. unfold deleteProject, collection, showToast. kept. Qed.
Lemma keeps_submitContact nameV emailV subjectV messageV endpointV net uid now :
  keeps_editing
    (submitContact nameV emailV subjectV messageV endpointV net uid now).
Proof.
  unfold submitContact, saveLocalMessage, fetch, throw, ret, collection, alert,
    showToast. cbv zeta. kept; intro; repeat split.
Qed.
Lemma keeps_setupAdmin hashText emailV pass :
  keeps_editing (setupAdmin hashText emailV pass).
Proof. unfold setupAdmin, alert, showToast. cbv zeta. kept. Qed.
Lemma keeps_loginAdmin hashText emailV pass :
  keeps_editing (loginAdmin hashText emailV pass).
Proof. unfold loginAdmin, alert, showToast. cbv zeta. kept. Qed.
Lemma keeps_logout : keeps_editing logout.
Proof. unfold logout, showToast. kept. Qed.

Lemma set_thought_then {A} (k : M A) id s :
  keeps_editing k ->
  editingThoughtId (after (setEditingThought id ;;; k) s) = id
  /\ editingWorkId (after (setEditingThought id ;;; k) s) = editingWorkId s
  /\ editingProjectId (after (setEditingThought id ;;; k) s)
     = editingProjectId s.
Proof.
  intros K.
  destruct (K (mkState (storage s) id (editingWorkId s) (editingProjectId s)
                 (adminVisible s) (effects s))) as (K1 & K2 & K3).
  split; [exact K1|split; [exact K2|exact K3]].
Qed.

Lemma set_work_then {A} (k : M A) id s :
  keeps_editing k ->
  editingThoughtId (after (setEditingWork id ;;; k) s) = editingThoughtId s
  /\ editingWorkId (after (setEditingWork id ;;; k) s) = id
  /\ editingProjectId (after (setEditingWork id ;;; k) s)
     = editingProjectId s.
Proof.
  intros K.
  destruct (K (mkState (storage s) (editingThoughtId s) id
                 (editingProjectId s) (adminVisible s) (effects s)))
    as (K1 & K2 & K3).
  split; [exact K1|split; [exact K2|exact K3]].
Qed.

Lemma set_project_then {A} (k : M A) id s :
  keeps_editing k ->
  editingThoughtId (after (setEditingProject id ;;; k) s) = editingThoughtId s
  /\ editingWorkId (after (setEditingProject id ;;; k) s) = editingWorkId s
  /\ editingProjectId (after (setEditingProject id ;;; k) s) = id.
Proof.
  intros K.
  destruct (K (mkState (storage s) (editingThoughtId s) (editingWorkId s) id
                 (adminVisible s) (effects s))) as (K1 & K2 & K3).
  split; [exact K1|split; [exact K2|exact K3]].
Qed.

End EditingFacts.

Import EditingFacts.

(* ================================================================== *)
(** * Properties of the script beyond the claims *)
(* ================================================================== *)

(** ** The store *)

(** [resetDB] from any state, a corrupt slot included: the slot is removed
    and the toast is shown before [initApp] is called.  [initApp], which is
    in the part of the file that is not available and is recorded as an
    effect, starts in a state whose slot is empty, where [loadDB] returns
    the default document, with the editing variables and the admin panel
    as they were. *)
Theorem resetDB_then_load (s : state) :
  outcome resetDB s = Val tt
  /\ storage (after resetDB s) = None
  /\ holds (after resetDB s) DEFAULT_DB
  /\ same_vars s (after resetDB s)
  /\ effects (after resetDB s) = effects s ++ [Toast "DB cleared"; InitApp].
Proof.
  destruct s as [st e1 e2 e3 a ev].
  unfold holds, document, outcome, after, resetDB, bind, removeItem,
    showToast, emit, logged.
  cbn [fst snd storage effects editingThoughtId editingWorkId
       editingProjectId adminVisible].
  repeat split. rewrite <- app_assoc. reflexivity.
Qed.

(** [saveDB] writes the slot before [updateStats] counts: whatever the
    value, the slot holds its text afterwards and the other variables are
    unchanged.  For a value that survives the round trip, [saveDB] returns
    exactly when [thoughts], [projects] and [messages] can be counted, and
    raises [TypeError] otherwise, the value already written; [work] is not
    counted. *)
Theorem saveDB_writes_before_it_counts (d : value) (s : state) :
  storage (after (saveDB d) s) = Some (stringify d)
  /\ same_vars s (after (saveDB d) s)
  /\ (storable d = true ->
      holds (after (saveDB d) s) d
      /\ outcome (saveDB d) s = if counted d then Val tt else Throw TypeError).
Proof.
  destruct (saveDB_frame d s) as [St V]. split; [exact St|]. split; [exact V|].
  intros S. split; [now apply holds_stored|].
  now apply saveDB_outcome.
Qed.

(** On a document without [messages]: it is written, and [saveDB] raises. *)
Lemma saveDB_writes_before_it_counts_witness :
  storable (VObj [(str "thoughts", VArr []); (str "projects", VArr [])]) = true
  /\ holds (after (saveDB (VObj [(str "thoughts", VArr []);
                                 (str "projects", VArr [])])) initial)
       (VObj [(str "thoughts", VArr []); (str "projects", VArr [])])
  /\ outcome (saveDB (VObj [(str "thoughts", VArr []);
                            (str "projects", VArr [])])) initial
     = Throw TypeError.
Proof.
  split; [reflexivity|].
  exact (proj2 (proj2 (saveDB_writes_before_it_counts
                         (VObj [(str "thoughts", VArr []);
                                (str "projects", VArr [])]) initial))
           eq_refl).
Defined.

(** [loadDB] never writes: the slot and the variables are as they were.
    It logs one console error exactly when the slot holds text that is not
    empty and is not JSON, and that text stays in the slot, so the next
    load finds it again. *)
Theorem loadDB_never_repairs (s : state) :
  storage (after loadDB s) = storage s
  /\ same_vars s (after loadDB s)
  /\ effects (after loadDB s)
     = effects s ++ (if garbled s then [ConsoleError] else [])
  /\ garbled (after loadDB s) = garbled s.
Proof.
  unfold garbled, after. rewrite loadDB_cases.
  destruct (storage s) as [r|] eqn:E.
  - destruct (nonempty r) eqn:N.
    + destruct (parse r) eqn:P; cbn [snd storage logged effects andb];
        rewrite ?E, ?N, ?P, ?app_nil_r; repeat split.
    + cbn [snd andb]. rewrite E, N, app_nil_r. repeat split.
  - cbn [snd]. rewrite E, app_nil_r. repeat split.
Qed.

(** The export is the document.  What the export button writes,
    [JSON.stringify(loadDB(), null, 2)], parses back to the document the
    store holds, so a slot that is given the exported text holds the same
    document; the export itself writes nothing. *)
Theorem export_round_trip (s : state) (d : value) :
  holds s d -> storable d = true ->
  outcome export_text s = Val (pretty [] d)
  /\ parse (pretty [] d) = Val d
  /\ storage (after export_text s) = storage s
  /\ forall s', storage s' = Some (pretty [] d) -> holds s' d.
Proof.
  intros Hl St. assert (P := parse_pretty d St).
  unfold outcome, after, export_text. unfold bind at 1 2.
  rewrite (holds_load _ _ Hl). cbn [fst snd ret].
  split; [reflexivity|]. split; [exact P|]. split; [apply loaded_storage|].
  intros s' E. unfold holds, document, outcome. rewrite loadDB_cases, E.
  destruct (pretty_opens [] d St) as (c & r & Ep & _). rewrite Ep in *.
  cbn [nonempty]. now rewrite P.
Qed.

(** The sample document, exported and read again. *)
Lemma export_round_trip_witness :
  holds Sample.one_thought Sample.doc1
  /\ storable Sample.doc1 = true
  /\ parse (pretty [] Sample.doc1) = Val Sample.doc1.
Proof.
  assert (H : holds Sample.one_thought Sample.doc1) by (vm_compute; reflexivity).
  assert (S : storable Sample.doc1 = true) by (vm_compute; reflexivity).
  split; [exact H|]. split; [exact S|].
  exact (proj1 (proj2 (export_round_trip Sample.one_thought Sample.doc1 H S))).
Defined.

(** ** The operations *)

(** Each operation that writes changes one property of the document and
    no other, whatever its inputs and however it ends (alert, not found,
    a file that cannot be read, [TypeError] on a missing id): the saves
    and deletes their own collection, the contact form [messages],
    [setupAdmin] the credential. *)
Theorem operations_touch_one_property (hashText : jstring -> jstring)
  (s : state) (d : value) :
  holds s d -> valid_document d = true ->
  (forall titleV categoryV contentV file uid now,
     touches_only (saveThought titleV categoryV contentV file uid now)
       "thoughts" s d)
  /\ (forall titleV tagsV contentV file uid now,
        touches_only (saveWork titleV tagsV contentV file uid now) "work" s d)
  /\ (forall titleV linkV descV file uid now,
        touches_only (saveProject titleV linkV descV file uid now)
          "projects" s d)
  /\ (forall id, touches_only (deleteThought id) "thoughts" s d)
  /\ (forall id, touches_only (deleteWork id) "work" s d)
  /\ (forall id, touches_only (deleteProject id) "projects" s d)
  /\ (forall nameV emailV subjectV messageV endpointV net uid now,
        touches_only
          (submitContact nameV emailV subjectV messageV endpointV net uid now)
          "messages" s d)
  /\ (forall emailV pass,
        touches_only (setupAdmin hashText emailV pass) "admin" s d).
Proof.
  intros Hl V.
  assert (W : forall m k, within m k s d -> touches_only m k s d).
  { intros m k (d' & H & O & _). exists d'. auto. }
  repeat split; intros; apply W.
  - now apply saveThought_within.
  - now apply saveWork_within.
  - now apply saveProject_within.
  - now apply deleteThought_within.
  - now apply deleteWork_within.
  - now apply deleteProject_within.
  - now apply submitContact_within.
  - now apply setupAdmin_within.
Qed.

(** On the sample document: deleting its thought leaves [work] alone. *)
Lemma operations_touch_one_property_witness :
  holds Sample.one_thought Sample.doc1
  /\ valid_document Sample.doc1 = true
  /\ touches_only (deleteThought Sample.uid0) "thoughts" Sample.one_thought
       Sample.doc1.
Proof.
  assert (H1 : holds Sample.one_thought Sample.doc1) by (vm_compute; reflexivity).
  assert (V : valid_document Sample.doc1 = true) by (vm_compute; reflexivity).
  split; [exact H1|]. split; [exact V|].
  exact (proj1 (proj2 (proj2 (proj2
           (operations_touch_one_property Sample.digest Sample.one_thought
              Sample.doc1 H1 V)))) Sample.uid0).
Defined.

(** The document of the specification is an invariant: from a state that
    holds a valid document, every operation that writes leaves a valid
    document in the store, whatever its inputs and however it ends. *)
Theorem operations_keep_document_valid (hashText : jstring -> jstring)
  (s : state) (d : value) :
  holds s d -> valid_document d = true ->
  (forall titleV categoryV contentV file uid now,
     keeps_valid (saveThought titleV categoryV contentV file uid now) s)
  /\ (forall titleV tagsV contentV file uid now,
        keeps_valid (saveWork titleV tagsV contentV file uid now) s)
  /\ (forall titleV linkV descV file uid now,
        keeps_valid (saveProject titleV linkV descV file uid now) s)
  /\ (forall id, keeps_valid (deleteThought id) s)
  /\ (forall id, keeps_valid (deleteWork id) s)
  /\ (forall id, keeps_valid (deleteProject id) s)
  /\ (forall nameV emailV subjectV messageV endpointV net uid now,
        keeps_valid
          (submitContact nameV emailV subjectV messageV endpointV net uid now)
          s)
  /\ (forall emailV pass, keeps_valid (setupAdmin hashText emailV pass) s).
Proof.
  intros Hl V.
  assert (W : forall m k, within m k s d -> keeps_valid m s).
  { intros m k (d' & H & _ & V'). exists d'. auto. }
  repeat split; intros.
  - apply (W _ "thoughts"%string). now apply saveThought_within.
  - apply (W _ "work"%string). now apply saveWork_within.
  - apply (W _ "projects"%string). now apply saveProject_within.
  - apply (W _ "thoughts"%string). now apply deleteThought_within.
  - apply (W _ "work"%string). now apply deleteWork_within.
  - apply (W _ "projects"%string). now apply deleteProject_within.
  - apply (W _ "messages"%string). now apply submitContact_within.
  - apply (W _ "admin"%string). now apply setupAdmin_within.
Qed.

(** On the sample document: a work update with two tags. *)
Lemma operations_keep_document_valid_witness :
  holds Sample.one_thought Sample.doc1
  /\ valid_document Sample.doc1 = true
  /\ keeps_valid (saveWork (str "T") (str "a, b") (str "") NoFile Sample.uid1
                    Sample.now1) Sample.one_thought.
Proof.
  assert (H1 : holds Sample.one_thought Sample.doc1) by (vm_compute; reflexivity).
  assert (V : valid_document Sample.doc1 = true) by (vm_compute; reflexivity).
  split; [exact H1|]. split; [exact V|].
  exact (proj1 (proj2 (operations_keep_document_valid Sample.digest
                         Sample.one_thought Sample.doc1 H1 V))
           (str "T") (str "a, b") (str "") NoFile Sample.uid1 Sample.now1).
Defined.

(** What never writes the slot, whatever it returns and whatever the slot
    holds: [loadDB], [updateStats], opening an editor (on a new record, on
    an id that exists or on one that does not), [loginAdmin] and
    [logout]. *)
Theorem editors_and_login_never_write :
  reads_only loadDB
  /\ reads_only updateStats
  /\ (forall id, reads_only (openThoughtEditorFor id))
  /\ (forall id, reads_only (openWorkEditorFor id))
  /\ (forall id, reads_only (openProjectEditorFor id))
  /\ (forall hashText emailV pass,
        reads_only (loginAdmin hashText emailV pass))
  /\ reads_only logout.
Proof.
  split; [apply reads_loadDB|]. split; [apply reads_updateStats|].
  split; [intro; apply reads_openThought|].
  split; [intro; apply reads_openWork|].
  split; [intro; apply reads_openProject|].
  split; [intros; apply reads_login|apply reads_logout].
Qed.

(** Opening an editor without an id ([null], or the empty string) and
    saving creates a record, whatever id the editor was open on before:
    the opening resets the editing variable. *)
Theorem new_editor_then_save_creates (s : state) (d : value) :
  holds s d -> valid_document d = true ->
  (forall id titleV categoryV contentV file uid now,
     is_set id = false ->
     nonempty (trim titleV) = true -> file <> FileFails ->
     creates (openThoughtEditorFor id ;;;
              saveThought titleV categoryV contentV file uid now)
       "thoughts" uid now s d)
  /\ (forall id titleV tagsV contentV file uid now,
        is_set id = false ->
        nonempty (trim titleV) = true -> file <> FileFails ->
        creates (openWorkEditorFor id ;;;
                 saveWork titleV tagsV contentV file uid now)
          "work" uid now s d)
  /\ (forall id titleV linkV descV file uid now,
        is_set id = false ->
        nonempty (trim titleV) = true -> file <> FileFails ->
        creates (openProjectEditorFor id ;;;
                 saveProject titleV linkV descV file uid now)
          "projects" uid now s d).
Proof.
  intros Hl V. assert (U := valid_usable d V).
  split; [|split]; intros id * Hid Ht Hf.
  - destruct (openThought_new id s Hid) as (s1 & E & St & Ed).
    eapply creates_then;
      [exact E|exact U
      |apply saveThought_create;
         [eapply holds_same_storage; [exact St|exact Hl]
         |exact U|now rewrite Ed|exact Ht|exact Hf]
      |reflexivity..].
  - destruct (openWork_new id s Hid) as (s1 & E & St & Ed).
    eapply creates_then;
      [exact E|exact U
      |apply saveWork_create;
         [eapply holds_same_storage; [exact St|exact Hl]
         |exact U|now rewrite Ed|exact Ht|exact Hf]
      |reflexivity..].
  - destruct (openProject_new id s Hid) as (s1 & E & St & Ed).
    eapply creates_then;
      [exact E|exact U
      |apply saveProject_create;
         [eapply holds_same_storage; [exact St|exact Hl]
         |exact U|now rewrite Ed|exact Ht|exact Hf]
      |reflexivity..].
Qed.

(** From a state whose thought editor is still open on the sample thought:
    "new" and save appends a second thought. *)
Lemma new_editor_then_save_creates_witness :
  holds Sample.editing_thought Sample.doc1
  /\ valid_document Sample.doc1 = true
  /\ creates (openThoughtEditorFor None ;;;
              saveThought (str "B") [] [] NoFile Sample.uid1 Sample.now1)
       "thoughts" Sample.uid1 Sample.now1 Sample.editing_thought Sample.doc1.
Proof.
  assert (H1 : holds Sample.editing_thought Sample.doc1)
    by (vm_compute; reflexivity).
  assert (V : valid_document Sample.doc1 = true) by (vm_compute; reflexivity).
  split; [exact H1|]. split; [exact V|].
  apply (proj1 (new_editor_then_save_creates Sample.editing_thought
                  Sample.doc1 H1 V));
    [reflexivity|reflexivity|discriminate].
Defined.

(** Opening an editor on the id of a record of the collection and saving
    edits that record, whatever the editor was open on before. *)
Theorem open_editor_then_save_edits (s : state) (d : value) :
  holds s d -> valid_document d = true ->
  (forall id titleV categoryV contentV file uid now,
     nonempty id = true ->
     existsb (has_id id) (records "thoughts" d) = true ->
     nonempty (trim titleV) = true -> file <> FileFails ->
     edits (openThoughtEditorFor (Some id) ;;;
            saveThought titleV categoryV contentV file uid now)
       "thoughts" id now s d)
  /\ (forall id titleV tagsV contentV file uid now,
        nonempty id = true ->
        existsb (has_id id) (records "work" d) = true ->
        nonempty (trim titleV) = true -> file <> FileFails ->
        edits (openWorkEditorFor (Some id) ;;;
               saveWork titleV tagsV contentV file uid now)
          "work" id now s d)
  /\ (forall id titleV linkV descV file uid now,
        nonempty id = true ->
        existsb (has_id id) (records "projects" d) = true ->
        nonempty (trim titleV) = true -> file <> FileFails ->
        edits (openProjectEditorFor (Some id) ;;;
               saveProject titleV linkV descV file uid now)
          "projects" id now s d).
Proof.
  intros Hl V. assert (U := valid_usable d V).
  destruct (usable_seq d U) as (S1 & S2 & S3 & S4).
  split; [|split]; intros id * Hid Hex Ht Hf;
    destruct (existsb_find _ _ _ Hex) as (t & Hfind).
  - destruct (openThought_found id t s d Hl U Hid Hfind) as (s1 & E & St & Ed).
    eapply edits_then; [exact E|exact U|exact S1|exact Hfind| | | |].
    + eapply saveThought_edit; try eassumption.
      eapply holds_same_storage; [exact St|exact Hl].
    + intros. now apply edit_thought_keeps.
    + intros. now apply edit_thought_keeps.
    + intros. now apply edit_thought_updated.
  - assert (W : work_item t = true).
    { destruct (valid_parts d V) as (_ & _ & Wk & _).
      pose proof (sequence_forallb _ _ _ Wk) as F.
      rewrite forallb_forall in F. apply F.
      now apply find_some in Hfind. }
    destruct (openWork_found id t s d Hl U Hid Hfind W)
      as (s1 & E & St & Ed).
    eapply edits_then; [exact E|exact U|exact S2|exact Hfind| | | |].
    + eapply saveWork_edit; try eassumption.
      eapply holds_same_storage; [exact St|exact Hl].
    + intros. now apply edit_work_keeps.
    + intros. now apply edit_work_keeps.
    + intros. now apply edit_work_updated.
  - destruct (openProject_found id t s d Hl U Hid Hfind) as (s1 & E & St & Ed).
    eapply edits_then; [exact E|exact U|exact S3|exact Hfind| | | |].
    + eapply saveProject_edit; try eassumption.
      eapply holds_same_storage; [exact St|exact Hl].
    + intros. now apply edit_project_keeps.
    + intros. now apply edit_project_keeps.
    + intros. now apply edit_project_updated.
Qed.

(** On the sample document: open the editor on its thought, then save. *)
Lemma open_editor_then_save_edits_witness :
  holds Sample.one_thought Sample.doc1
  /\ valid_document Sample.doc1 = true
  /\ edits (openThoughtEditorFor (Some Sample.uid0) ;;;
            saveThought (str "A2") [] [] NoFile Sample.uid1 Sample.now1)
       "thoughts" Sample.uid0 Sample.now1 Sample.one_thought Sample.doc1.
Proof.
  assert (H1 : holds Sample.one_thought Sample.doc1) by (vm_compute; reflexivity).
  assert (V : valid_document Sample.doc1 = true) by (vm_compute; reflexivity).
  split; [exact H1|]. split; [exact V|].
  apply (proj1 (open_editor_then_save_edits Sample.one_thought Sample.doc1
                  H1 V));
    [reflexivity|reflexivity|reflexivity|discriminate].
Defined.

(** Deleting a record while its editor is open leaves the editor on an id
    that no record has, and the save that follows finds nothing: for a
    thought it shows "Not found" and returns, for a work update and for a
    project it raises [TypeError].  In the three cases the record is not
    stored again: the store holds what the deletion left. *)
Theorem save_after_delete_stores_nothing (s : state) (d : value)
  (id : jstring) :
  holds s d -> valid_document d = true -> nonempty id = true ->
  (forall titleV categoryV contentV file uid now,
     editingThoughtId s = Some id ->
     nonempty (trim titleV) = true -> file <> FileFails ->
     outcome (deleteThought id ;;;
              saveThought titleV categoryV contentV file uid now) s = Val tt
     /\ last (effects (after (deleteThought id ;;;
                              saveThought titleV categoryV contentV file uid
                                now) s)) InitApp = Toast "Not found"
     /\ exists d',
          holds (after (deleteThought id) s) d'
          /\ holds (after (deleteThought id ;;;
                           saveThought titleV categoryV contentV file uid now)
                      s) d'
          /\ existsb (has_id id) (records "thoughts" d') = false)
  /\ (forall titleV tagsV contentV file uid now,
        editingWorkId s = Some id ->
        nonempty (trim titleV) = true -> file <> FileFails ->
        outcome (deleteWork id ;;;
                 saveWork titleV tagsV contentV file uid now) s
        = Throw TypeError
        /\ exists d',
             holds (after (deleteWork id) s) d'
             /\ holds (after (deleteWork id ;;;
                              saveWork titleV tagsV contentV file uid now) s)
                  d'
             /\ existsb (has_id id) (records "work" d') = false)
  /\ (forall titleV linkV descV file uid now,
        editingProjectId s = Some id ->
        nonempty (trim titleV) = true -> file <> FileFails ->
        outcome (deleteProject id ;;;
                 saveProject titleV linkV descV file uid now) s
        = Throw TypeError
        /\ exists d',
             holds (after (deleteProject id) s) d'
             /\ holds (after (deleteProject id ;;;
                              saveProject titleV linkV descV file uid now) s)
                  d'
             /\ existsb (has_id id) (records "projects" d') = false).
Proof.
  intros Hl V Hid. assert (U := valid_usable d V).
  assert (O := usable_object d U).
  split; [|split]; intros * Hed Ht Hf.
  - destruct (commits_run _ _ _ (deleteThought_run s d id Hl U))
      as (s1 & E & H1 & U1 & V1).
    destruct (same_vars_is _ _ V1) as (Ed & _ & _). rewrite Hed in Ed.
    assert (R := saveThought_missing s1 _ id titleV categoryV contentV file
                   uid now H1 U1 Ed Hid).
    rewrite records_with_collection in R by exact O.
    specialize (R (find_filtered id _) Ht Hf).
    rewrite (then_outcome _ _ _ _ E), (then_after _ _ _ _ E).
    unfold outcome, after. rewrite R, E. cbn [fst snd].
    split; [reflexivity|]. split; [apply last_logged|].
    eexists. split; [exact H1|]. split.
    + now apply holds_logged, holds_loaded.
    + rewrite records_with_collection by exact O. apply existsb_filtered.
  - destruct (commits_run _ _ _ (deleteWork_run s d id Hl U))
      as (s1 & E & H1 & U1 & V1).
    destruct (same_vars_is _ _ V1) as (_ & Ed & _). rewrite Hed in Ed.
    assert (R := saveWork_missing s1 _ id titleV tagsV contentV file
                   uid now H1 U1 Ed Hid).
    rewrite records_with_collection in R by exact O.
    specialize (R (find_filtered id _) Ht Hf).
    rewrite (then_outcome _ _ _ _ E), (then_after _ _ _ _ E).
    unfold outcome, after. rewrite R, E. cbn [fst snd].
    split; [reflexivity|].
    eexists. split; [exact H1|]. split.
    + now apply holds_loaded.
    + rewrite records_with_collection by exact O. apply existsb_filtered.
  - destruct (commits_run _ _ _ (deleteProject_run s d id Hl U))
      as (s1 & E & H1 & U1 & V1).
    destruct (same_vars_is _ _ V1) as (_ & _ & Ed). rewrite Hed in Ed.
    assert (R := saveProject_missing s1 _ id titleV linkV descV file
                   uid now H1 U1 Ed Hid).
    rewrite records_with_collection in R by exact O.
    specialize (R (find_filtered id _) Ht Hf).
    rewrite (then_outcome _ _ _ _ E), (then_after _ _ _ _ E).
    unfold outcome, after. rewrite R, E. cbn [fst snd].
    split; [reflexivity|].
    eexists. split; [exact H1|]. split.
    + now apply holds_loaded.
    + rewrite records_with_collection by exact O. apply existsb_filtered.
Qed.

(** The sample thought is deleted while its editor is open, then saved. *)
Lemma save_after_delete_stores_nothing_witness :
  holds Sample.editing_thought Sample.doc1
  /\ valid_document Sample.doc1 = true
  /\ nonempty Sample.uid0 = true
  /\ outcome (deleteThought Sample.uid0 ;;;
              saveThought (str "A2") [] [] NoFile Sample.uid1 Sample.now1)
       Sample.editing_thought = Val tt
  /\ holds (after (deleteThought Sample.uid0 ;;;
                   saveThought (str "A2") [] [] NoFile Sample.uid1
                     Sample.now1) Sample.editing_thought) DEFAULT_DB.
Proof.
  assert (H1 : holds Sample.editing_thought Sample.doc1)
    by (vm_compute; reflexivity).
  assert (V : valid_document Sample.doc1 = true) by (vm_compute; reflexivity).
  split; [exact H1|]. split; [exact V|]. split; [reflexivity|].
  split; [|vm_compute; reflexivity].
  apply (proj1 (save_after_delete_stores_nothing Sample.editing_thought
                  Sample.doc1 Sample.uid0 H1 V eq_refl));
    [reflexivity|reflexivity|discriminate].
Defined.

(** [loginAdmin] on any stored value but [null] returns, and what decides
    it is the stored credential alone: the panel is opened exactly when
    both fields are filled, a credential is stored, and the trimmed email
    and the digest of the password are the stored strings.  A login that
    is turned away leaves the panel as it was, open if it was open. *)
Theorem login_decided_by_credential (hashText : jstring -> jstring)
  (s : state) (d : value) (emailV pass : jstring) :
  holds s d -> d <> VNull ->
  outcome (loginAdmin hashText emailV pass) s = Val tt
  /\ adminVisible (after (loginAdmin hashText emailV pass) s)
     = accepts hashText d emailV pass || adminVisible s.
Proof.
  intros Hl Nd.
  destruct (login_run hashText s d emailV pass Hl Nd) as (s1 & E & A).
  unfold outcome, after. rewrite E. split; [reflexivity|exact A].
Qed.

(** With no credential stored, a login with both fields filled is turned
    away. *)
Lemma login_decided_by_credential_witness :
  holds initial DEFAULT_DB
  /\ DEFAULT_DB <> VNull
  /\ adminVisible (after (loginAdmin Sample.digest (str "ann@example.org")
                            (str "pw")) initial) = false.
Proof.
  assert (H : holds initial DEFAULT_DB) by (vm_compute; reflexivity).
  assert (N : DEFAULT_DB <> VNull) by discriminate.
  split; [exact H|]. split; [exact N|].
  exact (proj2 (login_decided_by_credential Sample.digest initial DEFAULT_DB
                  (str "ann@example.org") (str "pw") H N)).
Defined.

(** [setupAdmin] asks for no login and keeps no history: a second setup
    replaces the credential of the first, the store is what the second
    setup alone would have left, and the admin panel is as it was.  The
    first email and password open the panel afterwards only if they are
    the second ones, up to trimming and digest. *)
Theorem second_setup_replaces_credential (hashText : jstring -> jstring)
  (s : state) (d : value) (email1 pass1 email2 pass2 : jstring) :
  holds s d -> valid_document d = true ->
  nonempty (trim email1) = true -> nonempty pass1 = true ->
  nonempty (trim email2) = true -> nonempty pass2 = true ->
  outcome (setupAdmin hashText email1 pass1 ;;;
           setupAdmin hashText email2 pass2) s = Val tt
  /\ adminVisible (after (setupAdmin hashText email1 pass1 ;;;
                          setupAdmin hashText email2 pass2) s)
     = adminVisible s
  /\ exists d',
       holds (after (setupAdmin hashText email1 pass1 ;;;
                     setupAdmin hashText email2 pass2) s) d'
       /\ holds (after (setupAdmin hashText email2 pass2) s) d'
       /\ accepts hashText d' email2 pass2 = true
       /\ accepts hashText d' email1 pass1
          = streq (trim email2) (trim email1)
            && streq (hashText pass2) (hashText pass1).
Proof.
  intros Hl V E1 P1 E2 P2. assert (U := valid_usable d V).
  assert (O := usable_object d U).
  destruct (commits_run _ _ _ (setupAdmin_run hashText s d email1 pass1
                                 Hl U E1 P1)) as (s1 & R1 & H1 & U1 & V1).
  destruct (commits_run _ _ _ (setupAdmin_run hashText s1 _ email2 pass2
                                 H1 U1 E2 P2)) as (s2 & R2 & H2 & U2 & V2).
  rewrite set_set in H2.
  rewrite (then_outcome _ _ _ _ R1), (then_after _ _ _ _ R1).
  unfold outcome, after. rewrite R2. cbn [fst snd].
  split; [reflexivity|]. split.
  - destruct V1 as (_ & _ & _ & A1), V2 as (_ & _ & _ & A2). congruence.
  - eexists. split; [exact H2|]. split.
    + apply (commits_holds _ _ _ (setupAdmin_run hashText s d email2 pass2
                                    Hl U E2 P2)).
    + unfold accepts. rewrite field_set_same by exact O.
      rewrite E1, P1, E2, P2. cbn [andb truthy new_admin].
      change (field "email" (new_admin (trim email2) (hashText pass2)))
        with (Some (VStr (trim email2))).
      change (field "passHash" (new_admin (trim email2) (hashText pass2)))
        with (Some (VStr (hashText pass2))).
      cbn [same_str]. rewrite !streq_refl. split; reflexivity.
Qed.

(** Two setups in a row from the empty store. *)
Lemma second_setup_replaces_credential_witness :
  holds initial DEFAULT_DB
  /\ valid_document DEFAULT_DB = true
  /\ outcome (setupAdmin Sample.digest (str "ann@example.org") (str "pw") ;;;
              setupAdmin Sample.digest (str "bob@example.org") (str "pw2"))
       initial = Val tt.
Proof.
  assert (H : holds initial DEFAULT_DB) by (vm_compute; reflexivity).
  assert (V : valid_document DEFAULT_DB = true) by (vm_compute; reflexivity).
  split; [exact H|]. split; [exact V|].
  exact (proj1 (second_setup_replaces_credential Sample.digest initial
                  DEFAULT_DB (str "ann@example.org") (str "pw")
                  (str "bob@example.org") (str "pw2") H V
                  eq_refl eq_refl eq_refl eq_refl)).
Defined.

(** Only opening an editor sets a "currently editing" variable.  The
    saves, the deletes, the cancels, the contact form and the admin
    operations leave the three variables as they were,
    whatever their inputs and however they end: a save does not close the
    edit it was part of, and a delete does not close the editor of the
    record it removes.  Opening an editor sets its own variable to the id
    it is given and leaves the other two. *)
Theorem only_editors_set_editing :
  (forall titleV categoryV contentV file uid now,
     keeps_editing (saveThought titleV categoryV contentV file uid now))
  /\ (forall titleV tagsV contentV file uid now,
        keeps_editing (saveWork titleV tagsV contentV file uid now))
  /\ (forall titleV linkV descV file uid now,
        keeps_editing (saveProject titleV linkV descV file uid now))
  /\ (forall id, keeps_editing (deleteThought id)
                 /\ keeps_editing (deleteWork id)
                 /\ keeps_editing (deleteProject id))
  /\ (keeps_editing cancelThought /\ keeps_editing cancelWork
      /\ keeps_editing cancelProject)
  /\ (forall nameV emailV subjectV messageV endpointV net uid now,
        keeps_editing
          (submitContact nameV emailV subjectV messageV endpointV net uid now))
  /\ (forall hashText emailV pass,
        keeps_editing (setupAdmin hashText emailV pass)
        /\ keeps_editing (loginAdmin hashText emailV pass))
  /\ keeps_editing logout
  /\ (forall id s,
        editingThoughtId (after (openThoughtEditorFor id) s) = id
        /\ editingWorkId (after (openThoughtEditorFor id) s) = editingWorkId s
        /\ editingProjectId (after (openThoughtEditorFor id) s)
           = editingProjectId s)
  /\ (forall id s,
        editingThoughtId (after (openWorkEditorFor id) s) = editingThoughtId s
        /\ editingWorkId (after (openWorkEditorFor id) s) = id
        /\ editingProjectId (after (openWorkEditorFor id) s)
           = editingProjectId s)
  /\ (forall id s,
        editingThoughtId (after (openProjectEditorFor id) s)
        = editingThoughtId s
        /\ editingWorkId (after (openProjectEditorFor id) s) = editingWorkId s
        /\ editingProjectId (after (openProjectEditorFor id) s) = id).
Proof.
  split; [intros; apply keeps_saveThought|].
  split; [intros; apply keeps_saveWork|].
  split; [intros; apply keeps_saveProject|].
  split; [intros; auto using keeps_deleteThought, keeps_deleteWork,
                    keeps_deleteProject|].
  split; [repeat split|].
  split; [intros; apply keeps_submitContact|].
  split; [intros; auto using keeps_setupAdmin, keeps_loginAdmin|].
  split; [apply keeps_logout|].
  split; [|split]; intros id s.
  - apply set_thought_then. unfold collection, showToast. kept.
  - apply set_work_then. unfold collection. kept.
  - apply set_project_then. unfold collection. kept.
Qed.

(** The fallback on a document [updateStats] cannot count.  When the store
    holds a document with its [messages] but without [thoughts] or
    [projects], a submission that passes the required-field check and
    falls back to the local store raises [TypeError] after the message is
    written: [saveDB] writes before it counts.  When the relay answered
    with an error status the exception is raised inside the [try], so the
    handler of the [catch] saves the message a second time and raises
    again: the store then holds two copies. *)
Theorem fallback_without_counters (s : state) (d : value) (ms : list value)
  (nameV emailV subjectV messageV endpointV : jstring) (net : reply)
  (uid now : jstring) :
  holds s d -> storable d = true ->
  field "messages" d = Some (VArr ms) -> counted d = false ->
  nonempty (trim nameV) = true -> nonempty (trim emailV) = true ->
  nonempty (trim messageV) = true ->
  kept_locally endpointV net = true ->
  outcome (submitContact nameV emailV subjectV messageV endpointV net uid now)
    s = Throw TypeError
  /\ exists copies,
       holds (after (submitContact nameV emailV subjectV messageV endpointV
                       net uid now) s)
         (with_collection "messages" (ms ++ copies) d)
       /\ Forall (copy_of (payload_of (trim nameV) (trim emailV)
                             (trim subjectV) (trim messageV) now)) copies
       /\ List.length copies = if answered_badly endpointV net then 2 else 1.
Proof.
  intros Hl S F C Hn He Hm K.
  set (payload := payload_of (trim nameV) (trim emailV) (trim subjectV)
                    (trim messageV) now).
  assert (One : forall x, holds x d ->
            exists s',
              saveLocalMessage payload uid x = (Throw TypeError, s')
              /\ holds s' (with_collection "messages"
                             (ms ++ [new_message uid payload]) d)).
  { intros x Hx.
    destruct (saveLocalMessage_raises x d ms uid (trim nameV) (trim emailV)
                (trim subjectV) (trim messageV) now Hx S F C)
      as (s' & E & H' & _). eauto. }
  assert (Cp : copy_of payload (new_message uid payload)) by (now exists uid).
  unfold outcome, after, submitContact, answered_badly. fold payload.
  rewrite Hn, He, Hm. cbn [negb orb].
  unfold kept_locally in K.
  destruct (nonempty (trim endpointV)); cbn [andb].
  - destruct net as [status|].
    + apply negb_true_iff in K. rewrite K. cbn [negb].
      destruct (saveLocalMessage_raises
                  (logged (logged s [Post (trim endpointV)
                                       (stringify (VObj payload))])
                     [Toast "Formspree returned error; saved locally"])
                  d ms uid (trim nameV) (trim emailV) (trim subjectV)
                  (trim messageV) now)
        as (s1 & E1 & H1 & S1 & F1 & C1); [now repeat apply holds_logged|assumption..|].
      destruct (saveLocalMessage_raises (logged s1 [ConsoleError]) _ _ uid
                  (trim nameV) (trim emailV) (trim subjectV) (trim messageV)
                  now (holds_logged _ _ _ H1) S1 F1 C1)
        as (s2 & E2 & H2 & _).
      rewrite with_collection_twice, <- app_assoc in H2. cbn [app] in H2.
      fold payload in E1, E2, H2.
      assert (R : (try_catch
                     (status0 <- fetch (trim endpointV)
                                   (stringify (VObj payload))
                                   (Response status);;
                      (if ok status0
                       then showToast "Message sent via Formspree"
                       else showToast "Formspree returned error; saved locally";;;
                            saveLocalMessage payload uid))
                     (fun _ : exn =>
                        emit ConsoleError;;;
                        saveLocalMessage payload uid;;;
                        showToast "Network error; saved locally")) s
                  = (Throw TypeError, s2)).
      { unfold try_catch. step. unfold fetch at 1. step.
        unfold emit at 1. unfold ret at 1. rewrite K.
        run_toast. rewrite E1.
        step. unfold emit at 1. step. rewrite E2. reflexivity. }
      match goal with |- fst (?m s) = _ /\ _ =>
        assert (Run : m s = (Throw TypeError, s2))
          by (step; rewrite R; reflexivity)
      end.
      rewrite Run. cbn [fst snd].
      split; [reflexivity|]. eexists. split; [exact H2|].
      split; [repeat constructor; exact Cp|reflexivity].
    + destruct (One (logged (logged s [Post (trim endpointV)
                                          (stringify (VObj payload))])
                       [ConsoleError]))
        as (s1 & E1 & H1); [now repeat apply holds_logged|].
      assert (R : (try_catch
                     (status0 <- fetch (trim endpointV)
                                   (stringify (VObj payload)) NoResponse;;
                      (if ok status0
                       then showToast "Message sent via Formspree"
                       else showToast "Formspree returned error; saved locally";;;
                            saveLocalMessage payload uid))
                     (fun _ : exn =>
                        emit ConsoleError;;;
                        saveLocalMessage payload uid;;;
                        showToast "Network error; saved locally")) s
                  = (Throw TypeError, s1)).
      { unfold try_catch. step. unfold fetch at 1. step.
        unfold emit at 1. unfold throw at 1.
        step. unfold emit at 1. step. rewrite E1. reflexivity. }
      match goal with |- fst (?m s) = _ /\ _ =>
        assert (Run : m s = (Throw TypeError, s1))
          by (step; rewrite R; reflexivity)
      end.
      rewrite Run. cbn [fst snd].
      split; [reflexivity|]. eexists. split; [exact H1|].
      split; [repeat constructor; exact Cp|reflexivity].
  - destruct (One s Hl) as (s1 & E1 & H1).
    match goal with |- fst (?m s) = _ /\ _ =>
      assert (Run : m s = (Throw TypeError, s1))
        by (step; step; rewrite E1; reflexivity)
    end.
    rewrite Run. cbn [fst snd].
    split; [reflexivity|]. eexists. split; [exact H1|].
    split; [repeat constructor; exact Cp|reflexivity].
Qed.

(** A store that holds only [messages], a relay that answers 500. *)
Lemma fallback_without_counters_witness :
  holds (mkState (Some (stringify (VObj [(str "messages", VArr [])])))
           None None None false [])
    (VObj [(str "messages", VArr [])])
  /\ counted (VObj [(str "messages", VArr [])]) = false
  /\ kept_locally (str "https://formspree.io/f/x") (Response 500) = true
  /\ outcome (submitContact (str "Ann") (str "ann@example.org") (str "Hi")
                (str "Hello there") (str "https://formspree.io/f/x")
                (Response 500) Sample.uid0 Sample.now0)
       (mkState (Some (stringify (VObj [(str "messages", VArr [])])))
          None None None false [])
     = Throw TypeError.
Proof.
  assert (H : holds (mkState (Some (stringify (VObj [(str "messages", VArr [])])))
                       None None None false [])
                (VObj [(str "messages", VArr [])]))
    by (vm_compute; reflexivity).
  split; [exact H|]. split; [reflexivity|]. split; [reflexivity|].
  exact (proj1 (fallback_without_counters _ _ [] (str "Ann")
                  (str "ann@example.org") (str "Hi") (str "Hello there")
                  (str "https://formspree.io/f/x") (Response 500)
                  Sample.uid0 Sample.now0 H eq_refl eq_refl eq_refl
                  eq_refl eq_refl eq_refl eq_refl)).
Defined.

(** The tags of a work update survive its editor.  For a work update as
    [saveWork] stores it, new or edited, the text that
    [openWorkEditorFor] puts in the tags field is the stored tags joined
    by commas, and [saveWork] reads the same tags back from that text: a
    tag holds no comma, is trimmed and is not empty. *)
Theorem tags_survive_the_editor (number_text : jstring -> jstring)
  (tagsV : jstring) :
  (forall uid title content img now,
     tags_text number_text
       (new_work uid title (tags_of tagsV) content img now)
     = Val (join (tags_of tagsV)))
  /\ (forall title content img now w,
        is_object w = true ->
        tags_text number_text
          (edit_work title (tags_of tagsV) content img now w)
        = Val (join (tags_of tagsV)))
  /\ tags_of (join (tags_of tagsV)) = tags_of tagsV
  /\ forallb comma_free (tags_of tagsV) = true.
Proof.
  split; [|split; [|split]].
  - intros. unfold tags_text.
    change (get (Some (new_work uid title (tags_of tagsV) content img now))
              (str "tags"))
      with (Val (Some (VArr (map VStr (tags_of tagsV))))).
    cbn [truthy]. apply array_join_strings.
  - intros * O. unfold tags_text.
    rewrite get_field
      by (now apply edit_work_object).
    rewrite edit_work_tags by exact O.
    cbn [truthy]. apply array_join_strings.
  - apply tags_of_join.
  - apply tags_of_comma_free.
Qed.

(** ** The digest of the password *)

(** [hashText] writes the digest in full: two lower-case hexadecimal
    digits for each byte of the buffer, so 64 code units for SHA-256, and
    two texts have the same hash exactly when their digests are the same
    bytes. *)
Theorem hashText_renders_digest (sha256 : list N -> list N)
  (text text' : jstring) :
  octets (sha256 (encode text)) = true ->
  octets (sha256 (encode text')) = true ->
  List.length (hashText sha256 text)
  = (2 * List.length (sha256 (encode text)))%nat
  /\ forallb is_hex (hashText sha256 text) = true
  /\ (hashText sha256 text = hashText sha256 text'
      <-> sha256 (encode text) = sha256 (encode text')).
Proof.
  intros O O'. unfold hashText.
  split; [now apply hex_length|]. split; [now apply hex_is_hex|].
  split; [now apply hex_inj|now intros ->].
Qed.

(** With a digest of 32 bytes the hash has 64 digits. *)
Lemma hashText_renders_digest_witness :
  octets (sum32 (encode (str "pw"))) = true
  /\ List.length (hashText sum32 (str "pw")) = 64%nat.
Proof.
  split; [reflexivity|].
  exact (proj1 (hashText_renders_digest sum32 (str "pw") (str "pw")
                  eq_refl eq_refl)).
Defined.

(** What [hashText] hashes is the UTF-8 encoding of the text.  Two
    well-formed texts with the same encoding are the same text, so only a
    collision of the digest makes their hashes equal; a trail surrogate
    without its lead is encoded as U+FFFD, so a text that starts with one
    has the hash of the text with U+FFFD in its place, whatever the
    digest. *)
Theorem hashText_reads_utf8 (sha256 : list N -> list N) :
  (forall text text',
     code_units text = true -> code_units text' = true ->
     well_formed text = true -> well_formed text' = true ->
     encode text = encode text' -> text = text')
  /\ (forall c rest,
        is_trail c = true ->
        hashText sha256 (c :: rest) = hashText sha256 (65533%N :: rest)).
Proof.
  split; [intros; now apply encode_inj|].
  intros c rest T. unfold hashText, encode. cbn [code_points].
  assert (L : is_lead c = false).
  { apply trail_range in T. apply not_lead. lia. }
  rewrite L, T. reflexivity.
Qed.

(** Two passwords that differ in a lone surrogate. *)
Lemma hashText_reads_utf8_witness :
  is_trail 56320 = true
  /\ hashText sum32 (56320%N :: str "pw") = hashText sum32 (65533%N :: str "pw").
Proof.
  split; [reflexivity|].
  exact (proj2 (hashText_reads_utf8 sum32) 56320%N (str "pw") eq_refl).
Defined.

(** With [hashText] as the script defines it, the login that follows a
    setup opens the admin panel exactly when the digest of the UTF-8
    encoding of the password entered is the digest of the one set up: the
    hexadecimal text loses nothing of the digest. *)
Theorem login_compares_digests (sha256 : list N -> list N) (s : state)
  (d : value) (emailV pass pass' : jstring) :
  (forall data, octets (sha256 data) = true) ->
  holds s d -> valid_document d = true -> adminVisible s = false ->
  nonempty (trim emailV) = true -> nonempty pass = true ->
  nonempty pass' = true ->
  (adminVisible (after (setupAdmin (hashText sha256) emailV pass ;;;
                        loginAdmin (hashText sha256) emailV pass') s) = true
   <-> sha256 (encode pass') = sha256 (encode pass)).
Proof.
  intros Oct Hl V A He Hp Hp'. assert (U := valid_usable d V).
  assert (O := usable_object d U).
  destruct (commits_run _ _ _ (setupAdmin_run (hashText sha256) s d emailV
                                 pass Hl U He Hp))
    as (s1 & R1 & H1 & U1 & V1).
  rewrite (then_after _ _ _ _ R1).
  destruct (login_run (hashText sha256) s1 _ emailV pass' H1) as (s2 & R2 & A2).
  { unfold set. destruct d; discriminate. }
  unfold after. rewrite R2. cbn [snd]. rewrite A2.
  destruct V1 as (_ & _ & _ & A1). rewrite A1, A, orb_false_r.
  unfold accepts. rewrite field_set_same by exact O.
  rewrite He, Hp'. cbn [andb truthy new_admin].
  change (field "email" (new_admin (trim emailV) (hashText sha256 pass)))
    with (Some (VStr (trim emailV))).
  change (field "passHash" (new_admin (trim emailV) (hashText sha256 pass)))
    with (Some (VStr (hashText sha256 pass))).
  cbn [same_str]. rewrite streq_refl. cbn [andb].
  rewrite streq_eq. unfold hashText. split.
  - intros E. symmetry. now apply hex_inj.
  - now intros ->.
Qed.

(** From the empty store, with the stand-in digest: the password set up
    opens the panel. *)
Lemma login_compares_digests_witness :
  (forall data, octets (sum32 data) = true)
  /\ holds initial DEFAULT_DB
  /\ valid_document DEFAULT_DB = true
  /\ adminVisible (after (setupAdmin (hashText sum32) (str "ann@example.org")
                            (str "pw") ;;;
                          loginAdmin (hashText sum32) (str "ann@example.org")
                            (str "pw")) initial) = true.
Proof.
  assert (Oct : forall data, octets (sum32 data) = true).
  { intros data. unfold sum32, octets.
    assert (B : (fold_right N.add 0 data mod 256 <? 256)%N = true)
      by (apply N.ltb_lt, N.mod_lt; discriminate).
    generalize dependent (fold_right N.add 0 data mod 256)%N.
    intros b B. cbn [repeat forallb]. rewrite B. reflexivity. }
  assert (H : holds initial DEFAULT_DB) by (vm_compute; reflexivity).
  assert (V : valid_document DEFAULT_DB = true) by (vm_compute; reflexivity).
  split; [exact Oct|]. split; [exact H|]. split; [exact V|].
  apply (login_compares_digests sum32 initial DEFAULT_DB
           (str "ann@example.org") (str "pw") (str "pw") Oct H V
           eq_refl eq_refl eq_refl eq_refl).
  reflexivity.
Defined.

(** ** The category filter *)

(** The category filter listseach category once.  For a valid document
    the categories [renderCategoryOptions] offers are strings without
    repetition, and a string is among them exactly when it is the
    category of a thought, where a thought whose category is empty counts
    under "Uncategorized"; a thought as [saveThought] builds it never
    needs that default, its category is the one stored. *)
Theorem categories_listed_once (same_number : jstring -> jstring -> bool)
  (s : state) (d : value) :
  holds s d -> valid_document d = true ->
  (exists cs,
     outcome (categories same_number) s = Val (map VStr cs)
     /\ distinct cs = true
     /\ forall c, mem c cs
                  = mem c (map category_text (records "thoughts" d)))
  /\ storage (after (categories same_number) s) = storage s
  /\ forall uid title categoryV content img now,
       category_text
         (new_thought uid title (category_of categoryV) content img now)
       = category_of categoryV.
Proof.
  intros Hl V. assert (U := valid_usable d V).
  destruct (usable_seq d U) as (S1 & _).
  destruct (valid_parts d V) as (_ & T & _).
  assert (R : categories same_number s
              = (Val (members same_number
                        (map VStr (map category_text (records "thoughts" d)))),
                 loaded s)).
  { unfold categories. run_load Hl.
    step. rewrite (usable_collection _ _ S1).
    step. unfold lift at 1.
    rewrite map_res_thoughts by (now apply sequence_forallb).
    now rewrite map_map. }
  unfold outcome, after. rewrite R. cbn [fst snd].
  split; [|split; [apply loaded_storage|]].
  - destruct (members_strings same_number
                (map category_text (records "thoughts" d)) [] eq_refl)
      as (cs & F & D & M).
    exists cs. split; [now rewrite <- F|]. split; [exact D|exact M].
  - intros. unfold category_text, category_of.
    change (field "category" (new_thought uid title ?c content img now))
      with (Some (VStr c)).
    cbv beta. destruct (nonempty (trim categoryV)) eqn:E; [|reflexivity].
    change (field "category"
              (new_thought uid title (trim categoryV) content img now))
      with (Some (VStr (trim categoryV))).
    now rewrite E.
Qed.

(** The sample document has one category. *)
Lemma categories_listed_once_witness :
  holds Sample.one_thought Sample.doc1
  /\ valid_document Sample.doc1 = true
  /\ storage (after (categories (fun _ _ => false)) Sample.one_thought)
     = storage Sample.one_thought.
Proof.
  assert (H : holds Sample.one_thought Sample.doc1) by (vm_compute; reflexivity).
  assert (V : valid_document Sample.doc1 = true) by (vm_compute; reflexivity).
  split; [exact H|]. split; [exact V|].
  exact (proj1 (proj2 (categories_listed_once (fun _ _ => false)
                         Sample.one_thought Sample.doc1 H V))).
Defined.
